(** * Data lake: zone store, metadata catalog and lake manager

    A shallow embedding of [src/data_lake.py] (classes [DataLakeStorage],
    [MetadataCatalog], [DataLakeManager]) and the properties stated about it.

    Modelling conventions.
    - A Python [str] is a [string]: a sequence of characters with code points
      below 256.  [bytes] are [list byte].
    - The file system is a set of directory paths and a finite map from file
      paths to files.  A path is the string that [str(path)] yields, and the
      operations of [pathlib] are those of [PurePosixPath]: a path is a root
      (none, one separator or two) and the components between separators,
      without the empty ones and the [.] ones; [..] is a component like any
      other and is not resolved.  Creating a directory or a file fails when
      the parent directory is missing; no other limit of the operating
      system (length or characters of a name, permissions, a file where a
      directory is wanted or the reverse) is modelled.
    - The SQLite database is a pair of tables kept in row order, with a flag
      telling whether it accepts writes (a read-only or locked database file
      makes every INSERT raise [sqlite3.OperationalError]).  LIKE reads a
      text up to its first NUL and refuses a pattern of more than 50000
      bytes; a WHERE clause deeper than 1000 is refused when the statement
      is prepared (SQLite's default limits).
    - The clock is an oracle [nat -> datetime] with a counter of the readings
      taken so far; every [datetime.now()] and every file write reads it.
    - pandas (data frames, their encodings) and MD5 are external to the
      program and enter as the interfaces [Pandas] and [Digest]. *)

From Stdlib Require Import ZArith NArith Ascii Lia Bool.
From stdpp Require Import gmap strings list.

Local Open Scope N_scope.

Set Warnings "-clear-no-such-hyp".

(** ** Python strings *)

Module Str.

Definition ord (c : ascii) : N := N_of_ascii c.
Definition chr (n : N) : ascii := ascii_of_N n.

Definition dquote : ascii := chr 34.
Definition bslash : ascii := chr 92.
Definition slash : ascii := chr 47.
Definition dot : ascii := chr 46.
Definition nul : ascii := chr 0.

Definition of_char (c : ascii) : string := String c EmptyString.

(** [s.startswith(p)] *)
Fixpoint startswith (p s : string) : bool :=
  match p, s with
  | EmptyString, _ => true
  | String _ _, EmptyString => false
  | String a p', String b s' => Ascii.eqb a b && startswith p' s'
  end.

(** [needle in hay] *)
Fixpoint contains (needle hay : string) : bool :=
  startswith needle hay ||
  match hay with
  | EmptyString => false
  | String _ h => contains needle h
  end.


(** [s.rpartition(sep)] for a one-character separator: the text before and
    after the last occurrence of [sep], or [None] when [sep] does not occur. *)
Fixpoint rpartition (sep : ascii) (s : string) : option (string * string) :=
  match s with
  | EmptyString => None
  | String c r =>
      match rpartition sep r with
      | Some (h, t) => Some (String c h, t)
      | None => if Ascii.eqb c sep then Some (EmptyString, r) else None
      end
  end.

(** [s.split(sep)] for a one-character separator: the texts between the
    occurrences of [sep], in order. *)
Fixpoint split (sep : ascii) (s : string) : list string :=
  match s with
  | EmptyString => [EmptyString]
  | String c r =>
      if Ascii.eqb c sep then EmptyString :: split sep r
      else match split sep r with
           | h :: t => String c h :: t
           | [] => [String c EmptyString]
           end
  end.

(** [s[1:]] *)
Definition tail (s : string) : string :=
  match s with
  | EmptyString => EmptyString
  | String _ r => r
  end.

(** [sep.join(l)] *)
Fixpoint join (sep : string) (l : list string) : string :=
  match l with
  | [] => EmptyString
  | [x] => x
  | x :: r => x +:+ sep +:+ join sep r
  end.

(** ASCII lower-casing of one character (the folding SQLite's LIKE uses). *)
Definition lower (c : ascii) : ascii :=
  let n := ord c in
  if (65 <=? n) && (n <=? 90) then chr (n + 32) else c.

(** Decimal digits. *)
Definition digit_char (d : N) : ascii := chr (48 + d).

Definition digit_val (c : ascii) : option N :=
  let n := ord c in
  if (48 <=? n) && (n <=? 57) then Some (n - 48) else None.

(** [n] printed on exactly [k] decimal digits (the [%0kd] of a value below
    [10^k]). *)
Fixpoint pad (k : nat) (n : N) : string :=
  match k with
  | O => EmptyString
  | S k' => String (digit_char ((n / 10 ^ N.of_nat k') mod 10)) (pad k' n)
  end.

(** Reads exactly [k] decimal digits. *)
Fixpoint take_num (k : nat) (acc : N) (s : string) : option (N * string) :=
  match k with
  | O => Some (acc, s)
  | S k' =>
      match s with
      | EmptyString => None
      | String c r =>
          match digit_val c with
          | Some d => take_num k' (10 * acc + d) r
          | None => None
          end
      end
  end.

(** Expects the character [c] at the head of [s]. *)
Definition expect (c : ascii) (s : string) : option string :=
  match s with
  | String d r => if Ascii.eqb c d then Some r else None
  | EmptyString => None
  end.

(** [s.encode()] (UTF-8) for code points below 256. *)
Fixpoint encode (s : string) : list Byte.byte :=
  match s with
  | EmptyString => []
  | String c r =>
      let n := ord c in
      if n <? 128 then byte_of_ascii c :: encode r
      else byte_of_ascii (chr (192 + n / 64))
             :: byte_of_ascii (chr (128 + n mod 64)) :: encode r
  end.

End Str.

(** ** The [json] module, for the two value types the catalog stores *)

Module Json.

Definition hex_char (d : N) : ascii :=
  if d <? 10 then Str.chr (48 + d) else Str.chr (87 + d).

Definition hex_val (c : ascii) : option N :=
  let n := Str.ord c in
  if (48 <=? n) && (n <=? 57) then Some (n - 48)
  else if (97 <=? n) && (n <=? 102) then Some (n - 87)
  else if (65 <=? n) && (n <=? 70) then Some (n - 55)
  else None.

(** [json.encoder]: one character of a string under [ensure_ascii=True].
    The printable ASCII characters stand for themselves, except the quote
    and the backslash; the others are escaped. *)
Definition escape_char (c : ascii) : string :=
  let n := Str.ord c in
  if n =? 34 then String Str.bslash (Str.of_char Str.dquote)
  else if n =? 92 then String Str.bslash (Str.of_char Str.bslash)
  else if n =? 10 then String Str.bslash "n"
  else if n =? 13 then String Str.bslash "r"
  else if n =? 9 then String Str.bslash "t"
  else if n =? 12 then String Str.bslash "f"
  else if n =? 8 then String Str.bslash "b"
  else if (32 <=? n) && (n <=? 126) then Str.of_char c
  else String Str.bslash
         (String "u" (String "0" (String "0"
            (String (hex_char (n / 16)) (Str.of_char (hex_char (n mod 16))))))).

Fixpoint escape (s : string) : string :=
  match s with
  | EmptyString => EmptyString
  | String c r => escape_char c +:+ escape r
  end.

(** [json.dumps(s)] for a string. *)
Definition dumps_str (s : string) : string :=
  String Str.dquote (escape s +:+ Str.of_char Str.dquote).

(** [json.dumps(l)] for a list of strings (default separators). *)
Definition dumps_list (l : list string) : string :=
  "[" +:+ Str.join ", " (dumps_str <$> l) +:+ "]".

Definition dumps_item (kv : string * string) : string :=
  dumps_str kv.1 +:+ ": " +:+ dumps_str kv.2.

(** [json.dumps(d)] for a dictionary from strings to strings; the items
    come in the iteration order of the map. *)
Definition dumps_dict (d : gmap string string) : string :=
  "{" +:+ Str.join ", " (dumps_item <$> map_to_list d) +:+ "}".

(** [json.decoder]: the character a one-letter escape stands for. *)
Definition unescape (e : ascii) : option ascii :=
  let n := Str.ord e in
  if n =? 34 then Some Str.dquote
  else if n =? 92 then Some Str.bslash
  else if n =? 47 then Some Str.slash
  else if n =? 98 then Some (Str.chr 8)
  else if n =? 102 then Some (Str.chr 12)
  else if n =? 110 then Some (Str.chr 10)
  else if n =? 114 then Some (Str.chr 13)
  else if n =? 116 then Some (Str.chr 9)
  else None.

Definition hex4 (a b c d : ascii) : option N :=
  match hex_val a, hex_val b, hex_val c, hex_val d with
  | Some x, Some y, Some z, Some w => Some (((x * 16 + y) * 16 + z) * 16 + w)
  | _, _, _, _ => None
  end.

Definition push (c : ascii) (r : option (string * string)) : option (string * string) :=
  match r with
  | Some (s, rest) => Some (String c s, rest)
  | None => None
  end.

(** [scanstring], strict mode: reads a string literal whose opening quote
    has been consumed; yields the decoded string and the text after the
    closing quote.  A [\uXXXX] escape of a code point from 256 on leaves
    the modelled character range and is rejected. *)
Fixpoint scanstring (s : string) : option (string * string) :=
  match s with
  | EmptyString => None
  | String c r =>
      let n := Str.ord c in
      if n =? 34 then Some (EmptyString, r)
      else if n =? 92 then
        match r with
        | EmptyString => None
        | String e r1 =>
            if Str.ord e =? 117 then
              match r1 with
              | String h1 (String h2 (String h3 (String h4 r2))) =>
                  match hex4 h1 h2 h3 h4 with
                  | Some v => if v <? 256 then push (Str.chr v) (scanstring r2) else None
                  | None => None
                  end
              | _ => None
              end
            else
              match unescape e with
              | Some c' => push c' (scanstring r1)
              | None => None
              end
        end
      else if n <? 32 then None
      else push c (scanstring r)
  end.

Definition is_ws (c : ascii) : bool :=
  let n := Str.ord c in
  (n =? 32) || (n =? 9) || (n =? 10) || (n =? 13).

Fixpoint skip_ws (s : string) : string :=
  match s with
  | EmptyString => EmptyString
  | String c r => if is_ws c then skip_ws r else s
  end.

(** The elements of an array of strings, from the first element on; the
    fuel bounds the number of elements. *)
Fixpoint parse_elems (fuel : nat) (s : string) : option (list string * string) :=
  match fuel with
  | O => None
  | S fuel' =>
      r ← Str.expect Str.dquote s;
      '(x, r1) ← scanstring r;
      match skip_ws r1 with
      | EmptyString => None
      | String d r2 =>
          if Ascii.eqb d "," then
            '(xs, r3) ← parse_elems fuel' (skip_ws r2);
            Some (x :: xs, r3)
          else if Ascii.eqb d "]" then Some ([x], r2)
          else None
      end
  end.

Definition parse_array (s : string) : option (list string * string) :=
  r ← Str.expect "[" s;
  match skip_ws r with
  | String c r' =>
      if Ascii.eqb c "]" then Some ([], r')
      else parse_elems (String.length r) (String c r')
  | EmptyString => None
  end.

(** The members of an object with string values, from the first key on. *)
Fixpoint parse_members (fuel : nat) (s : string)
  : option (list (string * string) * string) :=
  match fuel with
  | O => None
  | S fuel' =>
      r ← Str.expect Str.dquote s;
      '(k, r1) ← scanstring r;
      r2 ← Str.expect ":" (skip_ws r1);
      r3 ← Str.expect Str.dquote (skip_ws r2);
      '(v, r4) ← scanstring r3;
      match skip_ws r4 with
      | EmptyString => None
      | String d r5 =>
          if Ascii.eqb d "," then
            '(kvs, r6) ← parse_members fuel' (skip_ws r5);
            Some ((k, v) :: kvs, r6)
          else if Ascii.eqb d "}" then Some ([(k, v)], r5)
          else None
      end
  end.

Definition parse_object (s : string) : option (list (string * string) * string) :=
  r ← Str.expect "{" s;
  match skip_ws r with
  | String c r' =>
      if Ascii.eqb c "}" then Some ([], r')
      else parse_members (String.length r) (String c r')
  | EmptyString => None
  end.

(** A dictionary built from its items in order: a later item replaces an
    earlier one with the same key. *)
Definition dict_of_items (l : list (string * string)) : gmap string string :=
  foldl (fun d kv => <[kv.1 := kv.2]> d) ∅ l.

(** The whole document must be one value, surrounded by white space only. *)
Definition whole {A} (r : option (A * string)) : option A :=
  '(a, rest) ← r;
  match skip_ws rest with
  | EmptyString => Some a
  | String _ _ => None
  end.

(** [json.loads(s)], when the document is an array of strings; [None]
    stands for [JSONDecodeError] (or for a value of another shape). *)
Definition loads_list (s : string) : option (list string) :=
  whole (parse_array (skip_ws s)).

(** [json.loads(s)], when the document is an object with string values. *)
Definition loads_dict (s : string) : option (gmap string string) :=
  dict_of_items <$> whole (parse_object (skip_ws s)).

End Json.

(** ** The [datetime] class (naive values, as [datetime.now()] and
    [datetime.fromtimestamp] produce them) *)

Module DateTime.

Record datetime := mk {
  year : N; month : N; day : N;
  hour : N; minute : N; second : N; microsecond : N }.

Definition is_leap (y : N) : bool :=
  ((y mod 4 =? 0) && negb (y mod 100 =? 0)) || (y mod 400 =? 0).

Definition days_in_month (y m : N) : N :=
  if m =? 2 then (if is_leap y then 29 else 28)
  else if (m =? 4) || (m =? 6) || (m =? 9) || (m =? 11) then 30
  else 31.

(** The ranges the constructor of [datetime] enforces. *)
Definition valid (d : datetime) : bool :=
  (1 <=? year d) && (year d <=? 9999) &&
  (1 <=? month d) && (month d <=? 12) &&
  (1 <=? day d) && (day d <=? days_in_month (year d) (month d)) &&
  (hour d <? 24) && (minute d <? 60) && (second d <? 60) &&
  (microsecond d <? 1000000).

Definition date_part (d : datetime) : string :=
  Str.pad 4 (year d) +:+ "-" +:+ Str.pad 2 (month d) +:+ "-" +:+ Str.pad 2 (day d).

Definition fraction (d : datetime) : string :=
  if microsecond d =? 0 then EmptyString else "." +:+ Str.pad 6 (microsecond d).

Definition time_part (d : datetime) : string :=
  Str.pad 2 (hour d) +:+ ":" +:+ Str.pad 2 (minute d) +:+ ":" +:+
  Str.pad 2 (second d) +:+ fraction d.

(** [d.isoformat(sep)] *)
Definition isoformat_sep (sep : ascii) (d : datetime) : string :=
  date_part d +:+ String sep (time_part d).

(** [d.isoformat()] *)
Definition isoformat : datetime -> string := isoformat_sep "T".

(** [str(d)] *)
Definition to_str : datetime -> string := isoformat_sep " ".

(** [d.strftime("%Y%m%d_%H%M%S")] *)
Definition strftime_stamp (d : datetime) : string :=
  Str.pad 4 (year d) +:+ Str.pad 2 (month d) +:+ Str.pad 2 (day d) +:+ "_" +:+
  Str.pad 2 (hour d) +:+ Str.pad 2 (minute d) +:+ Str.pad 2 (second d).

Definition checked (d : datetime) : option datetime :=
  if valid d then Some d else None.

(** The fraction of a second: absent, or a dot and six digits, then the end
    of the text. *)
Definition parse_fraction (s : string) : option N :=
  match s with
  | EmptyString => Some 0
  | String c r =>
      if Ascii.eqb c "." then
        '(us, r') ← Str.take_num 6 0 r;
        match r' with
        | EmptyString => Some us
        | String _ _ => None
        end
      else None
  end.

(** [datetime.fromisoformat(s)] on the shapes [YYYY-MM-DD] and
    [YYYY-MM-DD?HH:MM:SS[.ffffff]], [?] being any one character; [None]
    stands for [ValueError].  The shorter time forms and the UTC offsets
    that Python also reads are not modelled. *)
Definition fromisoformat (s : string) : option datetime :=
  '(y, r) ← Str.take_num 4 0 s;
  r ← Str.expect "-" r;
  '(m, r) ← Str.take_num 2 0 r;
  r ← Str.expect "-" r;
  '(d, r) ← Str.take_num 2 0 r;
  match r with
  | EmptyString => checked (mk y m d 0 0 0 0)
  | String _ r =>
      '(h, r) ← Str.take_num 2 0 r;
      r ← Str.expect ":" r;
      '(mi, r) ← Str.take_num 2 0 r;
      r ← Str.expect ":" r;
      '(se, r) ← Str.take_num 2 0 r;
      us ← parse_fraction r;
      checked (mk y m d h mi se us)
  end.

End DateTime.

Abbreviation datetime := DateTime.datetime.

(** ** SQLite's LIKE operator *)

Module Sqlite.

(** What LIKE reads of a TEXT value, pattern or text: the characters before
    the first NUL. *)
Fixpoint c_str (s : string) : string :=
  match s with
  | EmptyString => EmptyString
  | String c r => if Ascii.eqb c Str.nul then EmptyString else String c (c_str r)
  end.

(** The comparison of a text with a LIKE pattern under the default
    settings: [%] matches any run of characters, [_] any one character, and
    the letters A-Z match without regard to case; there is no escape
    character. *)
Fixpoint pattern_compare (p : string) : string -> bool :=
  match p with
  | EmptyString =>
      fun s => match s with EmptyString => true | String _ _ => false end
  | String c p' =>
      if Ascii.eqb c "%" then
        fix star (s : string) : bool :=
          pattern_compare p' s ||
          match s with
          | EmptyString => false
          | String _ s' => star s'
          end
      else if Ascii.eqb c "_" then
        fun s => match s with EmptyString => false | String _ s' => pattern_compare p' s' end
      else
        fun s =>
          match s with
          | EmptyString => false
          | String d s' => Ascii.eqb (Str.lower c) (Str.lower d) && pattern_compare p' s'
          end
  end.

(** The limits SQLITE_MAX_LIKE_PATTERN_LENGTH and SQLITE_MAX_EXPR_DEPTH, at
    their defaults. *)
Definition max_like_pattern_length : N := 50000.
Definition max_expr_depth : N := 1000.

(** Whether a pattern is within the length limit, which counts the bytes of
    the whole pattern in UTF-8. *)
Definition pattern_fits (p : string) : bool :=
  N.of_nat (length (Str.encode p)) <=? max_like_pattern_length.

(** [text LIKE pattern]; [None] is the error "LIKE or GLOB pattern too
    complex" of a pattern beyond the limit. *)
Definition like (p s : string) : option bool :=
  if pattern_fits p then Some (pattern_compare (c_str p) (c_str s)) else None.

(** The pattern that [f"%{x}%"] builds. *)
Definition anywhere (x : string) : string := "%" +:+ x +:+ "%".

(** Largest value of an INTEGER column. *)
Definition fits_int64 (n : Z) : bool :=
  ((- 2 ^ 63 <=? n) && (n <? 2 ^ 63))%Z.

End Sqlite.

(** ** External collaborators *)

(** pandas: the data frames, their three encodings and the column types. *)
Class Pandas := {
  DataFrame : Type;
  to_parquet : DataFrame -> list Byte.byte;
  to_csv : DataFrame -> list Byte.byte;
  to_json : DataFrame -> list Byte.byte;
  read_parquet : list Byte.byte -> option DataFrame;
  read_csv : list Byte.byte -> option DataFrame;
  read_json : list Byte.byte -> option DataFrame;
  (** [data.dtypes.items()], each type already through [str] *)
  dtypes : DataFrame -> list (string * string) }.

(** [hashlib.md5(b).hexdigest()] *)
Class Digest := { md5_hexdigest : list Byte.byte -> string }.

(** ** The data model *)

Record DataAsset := {
  asset_id : string;
  name : string;
  path : string;
  format : string;
  size_bytes : Z;
  created_at : datetime;
  updated_at : datetime;
  schema : gmap string string;
  tags : list string;
  owner : string;
  description : string;
  checksum : string }.

(** A row of the table [data_assets]: the twelve columns in order. *)
Record Row := {
  row_asset_id : string;
  row_name : string;
  row_path : string;
  row_format : string;
  row_size_bytes : Z;
  row_created_at : string;
  row_updated_at : string;
  row_schema : string;
  row_tags : string;
  row_owner : string;
  row_description : string;
  row_checksum : string }.

(** A row of the table [lineage]. *)
Record Edge := {
  edge_id : N;
  source_asset_id : string;
  target_asset_id : string;
  transformation : string;
  edge_created_at : string }.

Record Database := {
  data_assets : list Row;
  lineage : list Edge;
  writable : bool }.

Record File := {
  content : list Byte.byte;
  st_ctime : datetime;
  st_mtime : datetime }.

Record FileSystem := {
  dirs : gset string;
  files : gmap string File }.

Record World := {
  fs : FileSystem;
  db : Database;
  clock : nat -> datetime;
  ticks : nat }.

(** ** Computations: a state over [World] with exceptions *)

Inductive exn :=
| ValueError (msg : string)
| KeyError (key : string)
| FileNotFoundError (p : string)
| IsADirectoryError (p : string)
| OperationalError
| JSONDecodeError
| ParserError.

Inductive result (A : Type) :=
| Ok (a : A)
| Raise (e : exn).
Arguments Ok {A} a.
Arguments Raise {A} e.

Definition M (A : Type) : Type := World -> result A * World.

#[global] Instance M_ret : MRet M := fun A a w => (Ok a, w).

#[global] Instance M_bind : MBind M := fun A B f m w =>
  match m w with
  | (Ok a, w') => f a w'
  | (Raise e, w') => (Raise e, w')
  end.

Definition raise {A} (e : exn) : M A := fun w => (Raise e, w).

Definition get_world : M World := fun w => (Ok w, w).

Definition set_fs (f : FileSystem) : M unit := fun w =>
  (Ok tt, {| fs := f; db := db w; clock := clock w; ticks := ticks w |}).

Definition set_db (d : Database) : M unit := fun w =>
  (Ok tt, {| fs := fs w; db := d; clock := clock w; ticks := ticks w |}).

(** [datetime.now()]: the next reading of the clock. *)
Definition now : M datetime := fun w =>
  (Ok (clock w (ticks w)),
   {| fs := fs w; db := db w; clock := clock w; ticks := S (ticks w) |}).

(** The errors of the specification are [ValueError]s in the code. *)
Definition InvalidZone (zone : string) : exn :=
  ValueError ("Invalid zone: " +:+ zone).
Definition UnsupportedFormat (fmt : string) : exn :=
  ValueError ("Unsupported format: " +:+ fmt).
Definition UnsupportedFileFormat (sfx : string) : exn :=
  ValueError ("Unsupported file format: " +:+ sfx).
Definition AssetNotFound (id : string) : exn :=
  ValueError ("Source asset not found: " +:+ id).

(** ** [pathlib] and the file system *)

(** The texts between separators that [pathlib] keeps as components: all
    but the empty one and [.]. *)
Definition is_part (x : string) : bool :=
  negb (String.eqb x EmptyString) && negb (String.eqb x ".").

(** The components of [Path(s)], without the root. *)
Definition path_parts (s : string) : list string :=
  List.filter is_part (Str.split Str.slash s).

(** The root of [Path(s)]: exactly two leading separators are kept, any
    other number of them is one. *)
Definition path_root (s : string) : string :=
  if Str.startswith "///" s then "/"
  else if Str.startswith "//" s then "//"
  else if Str.startswith "/" s then "/"
  else EmptyString.

(** [str(p)] for the path with these root and components. *)
Definition path_str (root : string) (parts : list string) : string :=
  match root, parts with
  | EmptyString, [] => "."
  | _, _ => root +:+ Str.join "/" parts
  end.

(** [str(Path(d) / n)]: an [n] with a root replaces [d]. *)
Definition path_join (d n : string) : string :=
  match path_root n with
  | EmptyString => path_str (path_root d) (path_parts d ++ path_parts n)
  | String c r => path_str (String c r) (path_parts n)
  end.

(** [Path(p).name]: the last component, if there is one. *)
Definition path_name (p : string) : string :=
  List.last (path_parts p) EmptyString.

(** [str(Path(p).parent)] *)
Definition path_parent (p : string) : string :=
  path_str (path_root p) (List.removelast (path_parts p)).

(** [Path(p).suffix]: the last component from its last dot on, when that dot
    is neither its first nor its last character. *)
Definition path_suffix (p : string) : string :=
  match Str.rpartition Str.dot (path_name p) with
  | Some (String _ _, String c t) => String Str.dot (String c t)
  | _ => EmptyString
  end.

Arguments path_join : simpl never.
Arguments path_parent : simpl never.
Arguments path_name : simpl never.
Arguments path_suffix : simpl never.

(** The path itself and every prefix of it that ends before a separator. *)
Fixpoint ancestors_from (pre s : string) : list string :=
  match s with
  | EmptyString => [pre]
  | String c r =>
      if Ascii.eqb c Str.slash
      then match pre with
           | EmptyString => ancestors_from (String c EmptyString) r
           | String _ _ => pre :: ancestors_from (pre +:+ Str.of_char c) r
           end
      else ancestors_from (pre +:+ Str.of_char c) r
  end.

Definition is_dir (p : string) : M bool := fun w =>
  (Ok (bool_decide (p ∈ dirs (fs w))), w).

(** [p.mkdir(parents=True, exist_ok=True)] *)
Definition makedirs (p : string) : M unit :=
  w ← get_world;
  set_fs {| dirs := dirs (fs w) ∪ list_to_set (ancestors_from EmptyString p);
            files := files (fs w) |}.

(** [p.mkdir(exist_ok=True)] *)
Definition mkdir (p : string) : M unit :=
  w ← get_world;
  if bool_decide (p ∈ dirs (fs w)) then mret tt
  else if bool_decide (path_parent p ∈ dirs (fs w)) then
    set_fs {| dirs := dirs (fs w) ∪ {[ p ]}; files := files (fs w) |}
  else raise (FileNotFoundError p).

(** Creates or replaces the file at [p]; both time stamps are the clock's
    reading at the write. *)
Definition write_file (p : string) (bytes : list Byte.byte) : M unit :=
  w ← get_world;
  if bool_decide (path_parent p ∈ dirs (fs w)) then
    t ← now;
    set_fs {| dirs := dirs (fs w);
              files := <[ p := {| content := bytes; st_ctime := t; st_mtime := t |} ]>
                         (files (fs w)) |}
  else raise (FileNotFoundError p).

Definition read_file (p : string) : M (list Byte.byte) :=
  w ← get_world;
  match files (fs w) !! p with
  | Some f => mret (content f)
  | None =>
      if bool_decide (p ∈ dirs (fs w)) then raise (IsADirectoryError p)
      else raise (FileNotFoundError p)
  end.

(** ** Zone store: class [DataLakeStorage] *)

Record DataLakeStorage := {
  base_path : string;
  zones : list (string * string) }.

Definition zone_names : list string := ["raw"; "bronze"; "silver"; "gold"].

(** [self.zones[zone]], [None] when [zone not in self.zones] *)
Fixpoint zone_lookup (zone : string) (zs : list (string * string)) : option string :=
  match zs with
  | [] => None
  | (z, p) :: r => if String.eqb zone z then Some p else zone_lookup zone r
  end.

Fixpoint for_each {A} (f : A -> M unit) (l : list A) : M unit :=
  match l with
  | [] => mret tt
  | x :: r => f x ;; for_each f r
  end.

(** The object that [DataLakeStorage.__init__] sets up. *)
Definition storage_at (base : string) : DataLakeStorage :=
  {| base_path := base;
     zones := (fun z => (z, path_join base z)) <$> zone_names |}.

(** [DataLakeStorage.__init__] *)
Definition storage_init (base : string) : M DataLakeStorage :=
  let self := storage_at base in
  for_each (fun zp => makedirs zp.2) (zones self) ;;
  mret self.

Record FileInfo := {
  info_size_bytes : Z;
  info_created_at : datetime;
  info_modified_at : datetime;
  info_checksum : string }.

Record ZoneSummary := {
  dataset_count : nat;
  asset_count : nat;
  (** the source reports this sum divided by 2^20 and rounded to two
      decimals, as a float *)
  total_size : Z }.

(** A caller-supplied transformation: the function and its [__name__], if
    it has one. *)
Record Transformation {pd : Pandas} := {
  apply : DataFrame -> DataFrame;
  func_name : option string }.

Section Lake.

Context {pd : Pandas} {dg : Digest}.

Definition decoded (r : option DataFrame) : M DataFrame :=
  match r with
  | Some d => mret d
  | None => raise ParserError
  end.

(** [DataLakeStorage.store_data] *)
Definition store_data (self : DataLakeStorage) (data : DataFrame)
    (zone dataset_name format : string) : M string :=
  match zone_lookup zone (zones self) with
  | None => raise (InvalidZone zone)
  | Some zone_path =>
      let dataset_path := path_join zone_path dataset_name in
      mkdir dataset_path ;;
      t ← now;
      let timestamp := DateTime.strftime_stamp t in
      let filename := dataset_name +:+ "_" +:+ timestamp +:+ "." +:+ format in
      let file_path := path_join dataset_path filename in
      (if String.eqb format "parquet" then write_file file_path (to_parquet data)
       else if String.eqb format "csv" then write_file file_path (to_csv data)
       else if String.eqb format "json" then write_file file_path (to_json data)
       else raise (UnsupportedFormat format)) ;;
      mret file_path
  end.

(** [DataLakeStorage.load_data] *)
Definition load_data (self : DataLakeStorage) (file_path : string) : M DataFrame :=
  let suffix := path_suffix file_path in
  if String.eqb suffix ".parquet" then
    b ← read_file file_path; decoded (read_parquet b)
  else if String.eqb suffix ".csv" then
    b ← read_file file_path; decoded (read_csv b)
  else if String.eqb suffix ".json" then
    b ← read_file file_path; decoded (read_json b)
  else raise (UnsupportedFileFormat suffix).

(** [DataLakeStorage.list_datasets] *)
Definition list_datasets (self : DataLakeStorage) (zone : string) : M (list string) :=
  match zone_lookup zone (zones self) with
  | None => mret []
  | Some zone_path =>
      w ← get_world;
      if bool_decide (zone_path ∈ dirs (fs w)) then
        mret (path_name <$>
                filter (fun d => path_parent d = zone_path) (elements (dirs (fs w))))
      else raise (FileNotFoundError zone_path)
  end.

(** [DataLakeStorage._calculate_checksum] on the bytes of the file *)
Definition calculate_checksum (bytes : list Byte.byte) : string :=
  md5_hexdigest bytes.

(** [DataLakeStorage.get_file_info]; [None] is the empty dictionary. *)
Definition get_file_info (self : DataLakeStorage) (file_path : string)
  : M (option FileInfo) :=
  w ← get_world;
  match files (fs w) !! file_path with
  | Some f =>
      mret (Some {| info_size_bytes := Z.of_nat (length (content f));
                    info_created_at := st_ctime f;
                    info_modified_at := st_mtime f;
                    info_checksum := calculate_checksum (content f) |})
  | None =>
      if bool_decide (file_path ∈ dirs (fs w)) then raise (IsADirectoryError file_path)
      else mret None
  end.

(** ** Catalog: class [MetadataCatalog] *)

(** The parameters of the INSERT in [register_asset]. *)
Definition row_of_asset (asset : DataAsset) : Row :=
  {| row_asset_id := asset_id asset;
     row_name := name asset;
     row_path := path asset;
     row_format := format asset;
     row_size_bytes := size_bytes asset;
     row_created_at := DateTime.isoformat (created_at asset);
     row_updated_at := DateTime.isoformat (updated_at asset);
     row_schema := Json.dumps_dict (schema asset);
     row_tags := Json.dumps_list (tags asset);
     row_owner := owner asset;
     row_description := description asset;
     row_checksum := checksum asset |}.

(** INSERT OR REPLACE on the primary key [asset_id]: a row with the same
    key is deleted, the new row goes to the end of the table. *)
Definition insert_or_replace (r : Row) (rows : list Row) : list Row :=
  filter (fun r' => row_asset_id r' ≠ row_asset_id r) rows ++ [r].

(** [MetadataCatalog.register_asset]: any exception of the INSERT (the
    database refuses the write, the size does not fit an INTEGER) is caught
    and turned into [False]. *)
Definition register_asset (asset : DataAsset) : M bool :=
  w ← get_world;
  if writable (db w) && Sqlite.fits_int64 (size_bytes asset) then
    set_db {| data_assets := insert_or_replace (row_of_asset asset) (data_assets (db w));
              lineage := lineage (db w);
              writable := writable (db w) |} ;;
    mret true
  else mret false.

Definition iso_error (s : string) : exn :=
  ValueError ("Invalid isoformat string: " +:+ s).

(** The [DataAsset(...)] built from a fetched row. *)
Definition asset_of_row (r : Row) : result DataAsset :=
  match DateTime.fromisoformat (row_created_at r) with
  | None => Raise (iso_error (row_created_at r))
  | Some created =>
  match DateTime.fromisoformat (row_updated_at r) with
  | None => Raise (iso_error (row_updated_at r))
  | Some updated =>
  match Json.loads_dict (row_schema r) with
  | None => Raise JSONDecodeError
  | Some sch =>
  match Json.loads_list (row_tags r) with
  | None => Raise JSONDecodeError
  | Some tgs =>
      Ok {| asset_id := row_asset_id r;
            name := row_name r;
            path := row_path r;
            format := row_format r;
            size_bytes := row_size_bytes r;
            created_at := created;
            updated_at := updated;
            schema := sch;
            tags := tgs;
            owner := row_owner r;
            description := row_description r;
            checksum := row_checksum r |}
  end end end end.

Definition lift {A} (r : result A) : M A := fun w => (r, w).

(** SELECT * FROM data_assets WHERE asset_id = ?, first row *)
Definition fetch_by_id (id : string) (rows : list Row) : option Row :=
  List.find (fun r => String.eqb (row_asset_id r) id) rows.

(** [MetadataCatalog.get_asset] *)
Definition get_asset (id : string) : M (option DataAsset) :=
  w ← get_world;
  match fetch_by_id id (data_assets (db w)) with
  | Some row => a ← lift (asset_of_row row); mret (Some a)
  | None => mret None
  end.

(** The tags [search_assets] puts into the statement: [if tags] skips
    [None] and the empty list alike. *)
Definition requested (tgs : option (list string)) : list string :=
  match tgs with
  | Some ts => ts
  | None => []
  end.

(** [tags LIKE ? AND ... AND tags LIKE ?] on one text: the terms are
    evaluated in order, and the first one that is false or fails ends the
    evaluation. *)
Fixpoint like_all (patterns : list string) (text : string) : option bool :=
  match patterns with
  | [] => Some true
  | p :: rest =>
      match Sqlite.like p text with
      | Some true => like_all rest text
      | other => other
      end
  end.

(** The WHERE clause that [search_assets] assembles, on one row; [None]
    when a LIKE that is evaluated fails. *)
Definition matches (query : string) (tgs : option (list string)) (r : Row)
  : option bool :=
  match (match query with
         | EmptyString => Some true
         | String _ _ =>
             match Sqlite.like (Sqlite.anywhere query) (row_name r) with
             | Some false => Sqlite.like (Sqlite.anywhere query) (row_description r)
             | other => other
             end
         end) with
  | Some true => like_all (Sqlite.anywhere <$> requested tgs) (row_tags r)
  | other => other
  end.

(** The depth of the expression tree of that clause: 2 for [1=1], 4 with
    the test of the query, and one more for each tag. *)
Definition where_depth (query : string) (tgs : option (list string)) : N :=
  (match query with EmptyString => 2 | String _ _ => 4 end)
  + N.of_nat (length (requested tgs)).

(** The rows a SELECT returns, in table order; [None] when the WHERE clause
    fails on a row. *)
Fixpoint select (cond : Row -> option bool) (rows : list Row) : option (list Row) :=
  match rows with
  | [] => Some []
  | r :: rest =>
      match cond r, select cond rest with
      | Some b, Some l => Some (if b then r :: l else l)
      | _, _ => None
      end
  end.

Fixpoint assets_of_rows (rows : list Row) : result (list DataAsset) :=
  match rows with
  | [] => Ok []
  | r :: rest =>
      match asset_of_row r with
      | Raise e => Raise e
      | Ok a =>
          match assets_of_rows rest with
          | Raise e => Raise e
          | Ok l => Ok (a :: l)
          end
      end
  end.

(** [MetadataCatalog.search_assets] *)
Definition search_assets (query : string) (tgs : option (list string))
  : M (list DataAsset) :=
  w ← get_world;
  if Sqlite.max_expr_depth <? where_depth query tgs then raise OperationalError
  else
    match select (matches query tgs) (data_assets (db w)) with
    | Some rows => lift (assets_of_rows rows)
    | None => raise OperationalError
    end.

(** The key AUTOINCREMENT assigns: one more than the largest one used. *)
Definition next_edge_id (es : list Edge) : N :=
  1 + foldr (fun e m => N.max (edge_id e) m) 0 es.

(** [MetadataCatalog.add_lineage] *)
Definition add_lineage (source_id target_id transformation_name : string) : M unit :=
  t ← now;
  w ← get_world;
  if writable (db w) then
    set_db {| data_assets := data_assets (db w);
              lineage := lineage (db w) ++
                [ {| edge_id := next_edge_id (lineage (db w));
                     source_asset_id := source_id;
                     target_asset_id := target_id;
                     transformation := transformation_name;
                     edge_created_at := DateTime.isoformat t |} ];
              writable := writable (db w) |}
  else raise OperationalError.

(** ** Lake manager: class [DataLakeManager] *)

Record DataLakeManager := { storage : DataLakeStorage }.

(** [DataLakeManager.__init__]; the tables of the catalog are part of
    every [Database], so that CREATE TABLE IF NOT EXISTS has nothing to do. *)
Definition manager_init (base : string) : M DataLakeManager :=
  st ← storage_init base;
  mret {| storage := st |}.

(** [{col: str(dtype) for col, dtype in data.dtypes.items()}] *)
Definition schema_of (data : DataFrame) : gmap string string :=
  Json.dict_of_items (dtypes data).

(** [tags or []] *)
Definition tags_or_empty (tgs : option (list string)) : list string :=
  match tgs with
  | Some l => l
  | None => []
  end.

(** [file_info[key]] on the empty dictionary *)
Definition info_or_key_error (fi : option FileInfo) : M FileInfo :=
  match fi with
  | Some i => mret i
  | None => raise (KeyError "size_bytes")
  end.

(** [DataLakeManager.ingest_data], the statements between the call of
    [store_data] and the registration: the file information, the identifier
    and the [DataAsset]. *)
Definition synthesize_asset (self : DataLakeManager) (data : DataFrame)
    (name_ owner_ description_ : string) (tgs : option (list string))
    (file_path : string) : M DataAsset :=
  file_info ← get_file_info (storage self) file_path;
  t ← now;
  let id := md5_hexdigest (Str.encode (name_ +:+ "_" +:+ DateTime.to_str t)) in
  fi ← info_or_key_error file_info;
  mret {| asset_id := id;
          name := name_;
          path := file_path;
          format := Str.tail (path_suffix file_path);
          size_bytes := info_size_bytes fi;
          created_at := info_created_at fi;
          updated_at := info_modified_at fi;
          schema := schema_of data;
          tags := tags_or_empty tgs;
          owner := owner_;
          description := description_;
          checksum := info_checksum fi |}.

(** [DataLakeManager.ingest_data] once [store_data] has returned
    [file_path]; the result of [register_asset] is dropped. *)
Definition ingest_stored (self : DataLakeManager) (data : DataFrame)
    (name_ owner_ description_ : string) (tgs : option (list string))
    (file_path : string) : M string :=
  asset ← synthesize_asset self data name_ owner_ description_ tgs file_path;
  register_asset asset ;;
  mret (asset_id asset).

(** [DataLakeManager.ingest_data]; [store_data] is called without a format
    and so with its default. *)
Definition ingest_data (self : DataLakeManager) (data : DataFrame)
    (name_ owner_ description_ : string) (tgs : option (list string))
    (zone : string) : M string :=
  file_path ← store_data (storage self) data zone name_ "parquet";
  ingest_stored self data name_ owner_ description_ tgs file_path.

(** [DataLakeManager.transform_data] *)
Definition transform_data (self : DataLakeManager) (source_asset_id_ : string)
    (transformation_func : Transformation) (target_name target_zone : string)
  : M string :=
  source_asset ← get_asset source_asset_id_;
  match source_asset with
  | None => raise (AssetNotFound source_asset_id_)
  | Some src =>
      source_data ← load_data (storage self) (path src);
      let transformed_data := apply transformation_func source_data in
      target_asset_id_ ←
        ingest_data self transformed_data target_name (owner src)
          ("Transformed from " +:+ name src)
          (Some (tags src ++ ["transformed"])) target_zone;
      add_lineage source_asset_id_ target_asset_id_
        (match func_name transformation_func with
         | Some n => n
         | None => "custom_transform"
         end) ;;
      mret target_asset_id_
  end.

(** One turn of the loop of [get_zone_summary]. *)
Definition zone_summary_of (self : DataLakeManager) (zone_name : string)
  : M (string * ZoneSummary) :=
  datasets ← list_datasets (storage self) zone_name;
  assets ← search_assets EmptyString None;
  let zone_assets := filter (fun a => Str.contains zone_name (path a) = true) assets in
  let total := foldr (fun a s => (size_bytes a + s)%Z) 0%Z zone_assets in
  mret (zone_name,
        {| dataset_count := length datasets;
           asset_count := length zone_assets;
           total_size := total |}).

Fixpoint collect {A B} (f : A -> M B) (l : list A) : M (list B) :=
  match l with
  | [] => mret []
  | x :: r => y ← f x; ys ← collect f r; mret (y :: ys)
  end.

(** [DataLakeManager.get_zone_summary]: the dictionary as the list of its
    items, in the order of [self.storage.zones.keys()]. *)
Definition get_zone_summary (self : DataLakeManager)
  : M (list (string * ZoneSummary)) :=
  collect (zone_summary_of self) ((zones (storage self)).*1).

End Lake.

(** ** Initial states *)

Definition empty_fs : FileSystem :=
  {| dirs := {[ "."; "/" ]}; files := ∅ |}.

Definition empty_db : Database :=
  {| data_assets := []; lineage := []; writable := true |}.

(** Nothing stored, nothing catalogued, a database that accepts writes. *)
Definition empty_world (clk : nat -> datetime) : World :=
  {| fs := empty_fs; db := empty_db; clock := clk; ticks := 0 |}.

(** ** A small instance, for examples *)

(** Frames that are their own encoding, with one column. *)
Definition byte_frames : Pandas :=
  {| DataFrame := list Byte.byte;
     to_parquet := fun d => d;
     to_csv := fun d => d;
     to_json := fun d => d;
     read_parquet := Some;
     read_csv := Some;
     read_json := Some;
     dtypes := fun _ => [("value", "int64")] |}.

(** A digest that spells its input out in hexadecimal. *)
Definition hex_digest : Digest :=
  {| md5_hexdigest := fun bs =>
       foldr (fun b s =>
                let n := Byte.to_N b in
                String (Json.hex_char (n / 16)) (String (Json.hex_char (n mod 16)) s))
             EmptyString bs |}.

(** A clock that advances by one second at each reading. *)
Definition sample_clock (n : nat) : datetime :=
  DateTime.mk 2024 1 1 0 0 (N.of_nat n mod 60) 0.

Definition sample_data : list Byte.byte := [Byte.x01; Byte.x02; Byte.x03].

(** ** Notions used in the statements *)

(** The path [store_data] writes to: [<zone path>/<name>/<name>_<stamp>.<format>]. *)
Definition file_path_of (zone_path dataset_name : string) (t : datetime) (fmt : string)
  : string :=
  path_join (path_join zone_path dataset_name)
    (dataset_name +:+ "_" +:+ DateTime.strftime_stamp t +:+ "." +:+ fmt).

(** The world after one more reading of the clock. *)
Definition tick (w : World) : World :=
  {| fs := fs w; db := db w; clock := clock w; ticks := S (ticks w) |}.

(** A computation that leaves the catalog as it found it, whatever its
    outcome. *)
Definition preserves_db {A} (m : M A) : Prop :=
  forall w r w', m w = (r, w') -> db w' = db w.

(** A computation that leaves the whole world as it found it. *)
Definition read_only {A} (m : M A) : Prop :=
  forall w r w', m w = (r, w') -> w' = w.

(** The identifiers present in the table [data_assets]. *)
Definition asset_ids (w : World) : list string :=
  row_asset_id <$> data_assets (db w).

(** The formats [store_data] accepts. *)
Definition supported_formats : list string := ["parquet"; "csv"; "json"].


(** ** Sample states, for examples *)

Definition sample_manager : DataLakeManager :=
  {| storage := storage_at "data_lake" |}.

(** The lake right after [DataLakeManager("data_lake")] on an empty disk. *)
Definition fresh_lake : World :=
  (manager_init "data_lake" (empty_world sample_clock)).2.

(** The same lake with a database that refuses writes. *)
Definition locked_lake : World :=
  {| fs := fs fresh_lake;
     db := {| data_assets := []; lineage := []; writable := false |};
     clock := clock fresh_lake;
     ticks := ticks fresh_lake |}.

Definition sample_asset : DataAsset :=
  {| asset_id := "a1";
     name := "events";
     path := "data_lake/raw/events/events_20240101_000000.parquet";
     format := "parquet";
     size_bytes := 3;
     created_at := sample_clock 0;
     updated_at := sample_clock 1;
     schema := {[ "id" := "int64"; "name" := "object" ]};
     tags := ["abc"];
     owner := "data_team";
     description := "Event log";
     checksum := "010203" |}.

(** A catalog holding [sample_asset] only. *)
Definition sample_catalog : World :=
  (register_asset sample_asset (empty_world sample_clock)).2.

(** One ingestion of [sample_data] into the zone [raw]. *)
Definition ingest_sample (w : World) : result string * World :=
  ingest_data (pd := byte_frames) (dg := hex_digest) sample_manager sample_data
    "t1" "data_team" "Sample table" (Some ["a"; "b"]) "raw" w.

Definition ingested_lake : World := (ingest_sample fresh_lake).2.

Definition ingested_id : string :=
  Eval vm_compute in
    match (ingest_sample fresh_lake).1 with
    | Ok id => id
    | Raise _ => EmptyString
    end.

Definition ingested_asset : DataAsset :=
  match (get_asset ingested_id ingested_lake).1 with
  | Ok (Some a) => a
  | _ => sample_asset
  end.

Definition identity_transform : Transformation (pd := byte_frames) :=
  {| apply := fun d => d; func_name := Some "identity" |}.

(** The sample asset copied into the zone [silver]. *)
Definition transform_sample (w : World) : result string * World :=
  transform_data (pd := byte_frames) (dg := hex_digest) sample_manager ingested_id
    identity_transform "t1_copy" "silver" w.

Definition transformed_lake : World := (transform_sample ingested_lake).2.

Definition transformed_id : string :=
  Eval vm_compute in
    match (transform_sample ingested_lake).1 with
    | Ok id => id
    | Raise _ => EmptyString
    end.

(** The file written by an ingestion against the locked database, and the
    state it leaves. *)
Definition orphan_path : string :=
  Eval vm_compute in
    match (store_data (pd := byte_frames) (storage sample_manager) sample_data
             "raw" "t1" "parquet" locked_lake).1 with
    | Ok p => p
    | Raise _ => EmptyString
    end.

Definition stored_locked_lake : World :=
  (store_data (pd := byte_frames) (storage sample_manager) sample_data
     "raw" "t1" "parquet" locked_lake).2.

Definition orphan_asset : DataAsset :=
  match (synthesize_asset (pd := byte_frames) (dg := hex_digest) sample_manager
           sample_data "t1" "data_team" "Sample table" None orphan_path
           stored_locked_lake).1 with
  | Ok a => a
  | Raise _ => sample_asset
  end.

(** ** Further notions and sample states *)

(** The bytes [store_data] writes for one of its formats. *)
Definition encoding_of {pd : Pandas} (fmt : string) (data : DataFrame)
  : list Byte.byte :=
  if String.eqb fmt "parquet" then to_parquet data
  else if String.eqb fmt "csv" then to_csv data
  else to_json data.


(** A name that is one path component: it has no separator and is neither
    empty nor [.]. *)
Definition is_component (n : string) : bool :=
  is_part n && negb (Str.contains "/" n).


(** The roots a path can have. *)
Definition valid_root (r : string) : Prop :=
  r = EmptyString \/ r = "/" \/ r = "//".

(** [s] is [rest] after some characters, none of them NUL. *)
Definition reads (s rest : string) : Prop :=
  exists pre, s = pre +:+ rest /\ Str.contains (Str.of_char Str.nul) pre = false.

(** The same world with a database that refuses writes. *)
Definition lock_db (w : World) : World :=
  {| fs := fs w;
     db := {| data_assets := data_assets (db w);
              lineage := lineage (db w);
              writable := false |};
     clock := clock w;
     ticks := ticks w |}.

(** A computation that keeps a property of the catalog, whatever its
    outcome. *)
Definition keeps_db {A} (P : Database -> Prop) (m : M A) : Prop :=
  forall w r w', P (db w) -> m w = (r, w') -> P (db w').

(** Text made of the printable ASCII characters only. *)
Definition printable (s : string) : Prop :=
  Forall (fun c => 32 <= Str.ord c /\ Str.ord c <= 126) (String.list_ascii_of_string s).

(** The keys of the table [lineage]. *)
Definition edge_ids (w : World) : list N :=
  edge_id <$> lineage (db w).

(** [transformation_func.__name__], or the generic label. *)
Definition label_of {pd : Pandas} (f : Transformation) : string :=
  match func_name f with
  | Some n => n
  | None => "custom_transform"
  end.

(** [printable], as a test. *)
Definition printable_b (s : string) : bool :=
  forallb (fun c => (32 <=? Str.ord c) && (Str.ord c <=? 126))
    (String.list_ascii_of_string s).

(** A second asset, with another identifier. *)
Definition second_asset : DataAsset :=
  {| asset_id := "a2";
     name := "orders";
     path := "data_lake/raw/orders/orders_20240101_000000.parquet";
     format := "parquet";
     size_bytes := 5;
     created_at := sample_clock 2;
     updated_at := sample_clock 3;
     schema := {[ "order_id" := "int64" ]};
     tags := ["orders"; "raw"];
     owner := "data_team";
     description := "Order records";
     checksum := "0102030405" |}.

(** A clock that always reads the same instant. *)
Definition frozen_clock (n : nat) : datetime :=
  DateTime.mk 2024 1 1 0 0 0 0.

(** The fresh lake under the frozen clock. *)
Definition frozen_lake : World :=
  (manager_init "data_lake" (empty_world frozen_clock)).2.

Definition other_data : list Byte.byte := [Byte.x0a; Byte.x0b].



(** One ingestion under the frozen clock, described as the first one. *)
Definition first_ingest (w : World) : result string * World :=
  ingest_data (pd := byte_frames) (dg := hex_digest) sample_manager sample_data
    "t1" "data_team" "First" None "raw" w.

(** The lake after that ingestion, with the database then refusing writes. *)
Definition relocked_lake : World := lock_db (first_ingest frozen_lake).2.

(** The identifier of that ingestion: the digest of the name and of the
    reading of the frozen clock. *)
Definition frozen_id : string :=
  md5_hexdigest (Digest := hex_digest)
    (Str.encode ("t1_" +:+ DateTime.to_str (frozen_clock 0))).

(** The ingestion of a dataset with an absolute name into the zone [raw]. *)
Definition ingest_absolute (w : World) : result string * World :=
  ingest_data (pd := byte_frames) (dg := hex_digest) sample_manager sample_data
    "/x" "data_team" "Sample table" None "raw" w.

Definition absolute_lake : World := (ingest_absolute fresh_lake).2.

Definition absolute_id : string :=
  Eval vm_compute in
    match (ingest_absolute fresh_lake).1 with
    | Ok id => id
    | Raise _ => EmptyString
    end.

(** The numbers of assets in a summary, zone by zone. *)
Definition asset_counts (l : list (string * ZoneSummary)) : list (string * nat) :=
  (fun zs => (zs.1, asset_count zs.2)) <$> l.

(** * Properties *)

Lemma str_app_cons c s t : String c s +:+ t = String c (s +:+ t).
Proof. reflexivity. Qed.

Lemma str_app_nil_l t : EmptyString +:+ t = t.
Proof. reflexivity. Qed.

Lemma str_app_assoc s t u : (s +:+ t) +:+ u = s +:+ (t +:+ u).
Proof. induction s as [|c s IH]; [done|]. rewrite !str_app_cons. by rewrite IH. Qed.

Lemma str_app_nil_r s : s +:+ EmptyString = s.
Proof. induction s as [|c s IH]; [done|]. by rewrite str_app_cons, IH. Qed.

Lemma str_app_length s t : String.length (s +:+ t) = (String.length s + String.length t)%nat.
Proof. induction s as [|c s IH]; [done|]. rewrite str_app_cons. simpl. by rewrite IH. Qed.

Ltac each_char c :=
  destruct c as [[] [] [] [] [] [] [] []].

Lemma scanstring_escape_char c t :
  Json.scanstring (Json.escape_char c +:+ t) = Json.push c (Json.scanstring t).
Proof. each_char c; reflexivity. Qed.

Lemma scanstring_escape s rest :
  Json.scanstring (Json.escape s +:+ String Str.dquote rest) = Some (s, rest).
Proof.
  induction s as [|c s IH]; [done|].
  simpl Json.escape. rewrite str_app_assoc, scanstring_escape_char, IH. done.
Qed.

Ltac norm_app :=
  unfold Str.of_char;
  repeat first [rewrite str_app_assoc | rewrite str_app_cons | rewrite str_app_nil_l].

Lemma join_cons2 sep x y l :
  Str.join sep (x :: y :: l) = x +:+ sep +:+ Str.join sep (y :: l).
Proof. reflexivity. Qed.

Lemma join_head {A} (f : A → string) sep y (l : list A) t :
  (∀ a, ∃ u, f a = String Str.dquote u) →
  ∃ u, Str.join sep (f <$> y :: l) +:+ t = String Str.dquote u.
Proof.
  intros Hf. destruct (Hf y) as [u Hu]. rewrite fmap_cons, Hu.
  destruct l as [|z l]; simpl Str.join; norm_app; eauto.
Qed.

Lemma dumps_str_head s : ∃ u, Json.dumps_str s = String Str.dquote u.
Proof. unfold Json.dumps_str. eauto. Qed.

Lemma dumps_item_head kv : ∃ u, Json.dumps_item kv = String Str.dquote u.
Proof. unfold Json.dumps_item, Json.dumps_str. norm_app. eauto. Qed.

Lemma skip_ws_dquote u : Json.skip_ws (String Str.dquote u) = String Str.dquote u.
Proof. reflexivity. Qed.

Lemma scan_dumps_str s rest :
  Json.dumps_str s +:+ rest = String Str.dquote (Json.escape s +:+ String Str.dquote rest).
Proof. unfold Json.dumps_str. by norm_app. Qed.

Lemma parse_elems_step fuel x t :
  Json.parse_elems (S fuel) (Json.dumps_str x +:+ t) =
  match Json.skip_ws t with
  | EmptyString => None
  | String d r2 =>
      if Ascii.eqb d "," then
        '(xs, r3) ← Json.parse_elems fuel (Json.skip_ws r2); Some (x :: xs, r3)
      else if Ascii.eqb d "]" then Some ([x], r2)
      else None
  end.
Proof.
  rewrite scan_dumps_str. cbn [Json.parse_elems Str.expect].
  change (Ascii.eqb Str.dquote Str.dquote) with true. cbn [mbind option_bind].
  rewrite scanstring_escape. reflexivity.
Qed.

Lemma skip_ws_space s : Json.skip_ws (String " " s) = Json.skip_ws s.
Proof. reflexivity. Qed.

Lemma parse_elems_dumps l : ∀ x fuel rest, (length l < fuel)%nat →
  Json.parse_elems fuel (Str.join ", " (Json.dumps_str <$> x :: l) +:+ String "]" rest)
  = Some (x :: l, rest).
Proof.
  induction l as [|y l IH]; intros x fuel rest Hf; (destruct fuel as [|fuel]; [simpl in Hf; lia|]).
  - change (Str.join ", " (Json.dumps_str <$> [x])) with (Json.dumps_str x).
    rewrite parse_elems_step. reflexivity.
  - rewrite !fmap_cons, join_cons2, <- fmap_cons, str_app_assoc, parse_elems_step.
    rewrite str_app_assoc.
    destruct (join_head Json.dumps_str ", " y l (String "]" rest) dumps_str_head) as [u Hu].
    change (", " +:+ ?s) with (String "," (String " " s)).
    cbn [Json.skip_ws Json.is_ws]. 
    change (Json.is_ws ",") with false. cbv iota.
    change (Ascii.eqb "," ",") with true. cbv iota.
    rewrite skip_ws_space, Hu, skip_ws_dquote, <- Hu.
    rewrite IH by (simpl in Hf; lia). reflexivity.
Qed.

Lemma length_join_le {A} (f : A → string) sep (l : list A) :
  (∀ a, ∃ u, f a = String Str.dquote u) →
  (length l ≤ String.length (Str.join sep (f <$> l)))%nat.
Proof.
  intros Hf. induction l as [|x l IH]; [simpl; lia|].
  destruct (Hf x) as [u Hu].
  destruct l as [|y l].
  - simpl. rewrite Hu. simpl. lia.
  - rewrite !fmap_cons, join_cons2, <- fmap_cons, Hu. rewrite !str_app_length.
    cbn [String.length]. cbn [length]. cbn [length] in IH. lia.
Qed.

Lemma whole_no_rest {A} (a : A) : Json.whole (Some (a, EmptyString)) = Some a.
Proof. reflexivity. Qed.

Lemma loads_dumps_list l : Json.loads_list (Json.dumps_list l) = Some l.
Proof.
  destruct l as [|x l]; [reflexivity|].
  unfold Json.loads_list, Json.dumps_list.
  change ("[" +:+ ?s) with (String "[" s).
  change (Json.skip_ws (String "[" ?s)) with (String "[" s).
  unfold Json.parse_array. cbn [Str.expect]. change (Ascii.eqb "[" "[") with true.
  cbn [mbind option_bind].
  destruct (join_head Json.dumps_str ", " x l "]" dumps_str_head) as [u Hu].
  pose proof (length_join_le Json.dumps_str ", " (x :: l) dumps_str_head) as Hlen.
  assert (Hfuel : (length l < String.length (Str.join ", " (Json.dumps_str <$> x :: l) +:+ "]"))%nat).
  { rewrite str_app_length. cbn [length] in Hlen. cbn [String.length]. lia. }
  rewrite Hu in Hfuel |- *. rewrite skip_ws_dquote.
  change (Ascii.eqb Str.dquote "]") with false. cbv iota.
  rewrite <- Hu. rewrite parse_elems_dumps by (rewrite Hu; exact Hfuel).
  reflexivity.
Qed.

Lemma skip_ws_colon s : Json.skip_ws (String ":" s) = String ":" s.
Proof. reflexivity. Qed.

Lemma parse_members_step fuel k v t :
  Json.parse_members (S fuel) (Json.dumps_item (k, v) +:+ t) =
  match Json.skip_ws t with
  | EmptyString => None
  | String d r5 =>
      if Ascii.eqb d "," then
        '(kvs, r6) ← Json.parse_members fuel (Json.skip_ws r5); Some ((k, v) :: kvs, r6)
      else if Ascii.eqb d "}" then Some ([(k, v)], r5)
      else None
  end.
Proof.
  unfold Json.dumps_item. cbn [fst snd].
  rewrite !str_app_assoc, scan_dumps_str. cbn [Json.parse_members Str.expect].
  change (Ascii.eqb Str.dquote Str.dquote) with true. cbn [mbind option_bind].
  rewrite scanstring_escape.
  change (": " +:+ ?s) with (String ":" (String " " s)).
  cbn [mbind option_bind].
  rewrite skip_ws_colon. cbn [Str.expect]. change (Ascii.eqb ":" ":") with true.
  cbn [mbind option_bind]. rewrite skip_ws_space, scan_dumps_str, skip_ws_dquote.
  cbn [Str.expect]. change (Ascii.eqb Str.dquote Str.dquote) with true.
  cbn [mbind option_bind]. rewrite scanstring_escape. reflexivity.
Qed.

Lemma parse_members_dumps l : ∀ x fuel rest, (length l < fuel)%nat →
  Json.parse_members fuel (Str.join ", " (Json.dumps_item <$> x :: l) +:+ String "}" rest)
  = Some (x :: l, rest).
Proof.
  induction l as [|y l IH]; intros [k v] fuel rest Hf;
    (destruct fuel as [|fuel]; [simpl in Hf; lia|]).
  - change (Str.join ", " (Json.dumps_item <$> [(k, v)])) with (Json.dumps_item (k, v)).
    rewrite parse_members_step. reflexivity.
  - rewrite !fmap_cons, join_cons2, <- fmap_cons, str_app_assoc, parse_members_step.
    rewrite str_app_assoc.
    destruct (join_head Json.dumps_item ", " y l (String "}" rest) dumps_item_head) as [u Hu].
    change (", " +:+ ?s) with (String "," (String " " s)).
    cbn [Json.skip_ws Json.is_ws].
    change (Json.is_ws ",") with false. cbv iota.
    change (Ascii.eqb "," ",") with true. cbv iota.
    rewrite skip_ws_space, Hu, skip_ws_dquote, <- Hu.
    rewrite IH by (simpl in Hf; lia). reflexivity.
Qed.

Lemma parse_object_dumps l :
  Json.whole (Json.parse_object (Json.skip_ws ("{" +:+ Str.join ", " (Json.dumps_item <$> l) +:+ "}")))
  = Some l.
Proof.
  destruct l as [|x l]; [reflexivity|].
  change ("{" +:+ ?s) with (String "{" s).
  change (Json.skip_ws (String "{" ?s)) with (String "{" s).
  unfold Json.parse_object. cbn [Str.expect]. change (Ascii.eqb "{" "{") with true.
  cbn [mbind option_bind].
  destruct (join_head Json.dumps_item ", " x l "}" dumps_item_head) as [u Hu].
  pose proof (length_join_le Json.dumps_item ", " (x :: l) dumps_item_head) as Hlen.
  assert (Hfuel : (length l < String.length (Str.join ", " (Json.dumps_item <$> x :: l) +:+ "}"))%nat).
  { rewrite str_app_length. cbn [length] in Hlen. cbn [String.length]. lia. }
  rewrite Hu in Hfuel |- *. rewrite skip_ws_dquote.
  change (Ascii.eqb Str.dquote "}") with false. cbv iota.
  rewrite <- Hu. rewrite parse_members_dumps by (rewrite Hu; exact Hfuel).
  reflexivity.
Qed.

Lemma foldl_insert_lookup (l : list (string * string)) : ∀ (acc : gmap string string) k,
  foldl (fun d kv => <[kv.1 := kv.2]> d) acc l !! k =
  match list_to_map (M := gmap string string) (reverse l) !! k with
  | Some v => Some v
  | None => acc !! k
  end.
Proof.
  induction l as [|[k' v'] l IH]; intros acc k; [done|].
  cbn [foldl fst snd]. rewrite IH, reverse_cons.
  destruct (list_to_map (reverse l) !! k) as [v|] eqn:E.
  - assert (list_to_map (M := gmap string string) (reverse l ++ [(k', v')]) !! k = Some v) as ->; [|done].
    rewrite list_to_map_app. apply lookup_union_Some_l. done.
  - rewrite list_to_map_app, lookup_union_r by done. cbn.
    destruct (decide (k' = k)) as [->|Hne].
    + by rewrite !lookup_insert_eq.
    + by rewrite !lookup_insert_ne.
Qed.

Lemma dict_of_items_nodup (l : list (string * string)) :
  NoDup (l.*1) → Json.dict_of_items l = list_to_map l.
Proof.
  intros Hnd. apply map_eq. intros k. unfold Json.dict_of_items.
  rewrite foldl_insert_lookup, lookup_empty.
  rewrite (list_to_map_proper (reverse l) l).
  - by destruct (list_to_map l !! k).
  - rewrite fmap_reverse. by rewrite reverse_Permutation.
  - apply reverse_Permutation.
Qed.

Lemma dict_of_items_map_to_list (m : gmap string string) :
  Json.dict_of_items (map_to_list m) = m.
Proof.
  rewrite dict_of_items_nodup by apply NoDup_fst_map_to_list.
  apply list_to_map_to_list.
Qed.

Lemma loads_dumps_dict m : Json.loads_dict (Json.dumps_dict m) = Some m.
Proof.
  unfold Json.loads_dict, Json.dumps_dict. rewrite parse_object_dumps.
  cbn. by rewrite dict_of_items_map_to_list.
Qed.

Lemma digit_val_char d : d < 10 → Str.digit_val (Str.digit_char d) = Some d.
Proof.
  intros Hd.
  assert (d = 0 ∨ d = 1 ∨ d = 2 ∨ d = 3 ∨ d = 4 ∨ d = 5 ∨ d = 6 ∨ d = 7 ∨ d = 8 ∨ d = 9)
    as Hc by lia.
  repeat (destruct Hc as [->|Hc]; [reflexivity|]). by subst.
Qed.

Lemma take_num_pad k : ∀ n acc rest,
  Str.take_num k acc (Str.pad k n +:+ rest)
  = Some (acc * 10 ^ N.of_nat k + n mod 10 ^ N.of_nat k, rest).
Proof.
  induction k as [|k IH]; intros n acc rest.
  - cbn [Str.take_num Str.pad]. rewrite str_app_nil_l. f_equal. f_equal.
    change (10 ^ N.of_nat 0) with 1. rewrite N.mod_1_r. lia.
  - cbn [Str.take_num Str.pad]. rewrite str_app_cons.
    rewrite digit_val_char by (apply N.mod_lt; lia).
    rewrite IH. f_equal. f_equal.
    rewrite Nat2N.inj_succ, N.pow_succ_r'.
    rewrite (N.mul_comm 10 (10 ^ N.of_nat k)).
    rewrite (N.Div0.mod_mul_r n (10 ^ N.of_nat k) 10). lia.
Qed.

Lemma take_num_pad_lt k n rest :
  n < 10 ^ N.of_nat k →
  Str.take_num k 0 (Str.pad k n +:+ rest) = Some (n, rest).
Proof. intros Hn. rewrite take_num_pad, N.mod_small by done. f_equal. Qed.

Lemma valid_bounds d : DateTime.valid d = true →
  DateTime.year d < 10 ^ N.of_nat 4 ∧ DateTime.month d < 10 ^ N.of_nat 2 ∧
  DateTime.day d < 10 ^ N.of_nat 2 ∧ DateTime.hour d < 10 ^ N.of_nat 2 ∧
  DateTime.minute d < 10 ^ N.of_nat 2 ∧ DateTime.second d < 10 ^ N.of_nat 2 ∧
  DateTime.microsecond d < 10 ^ N.of_nat 6.
Proof.
  unfold DateTime.valid. rewrite !andb_true_iff.
  rewrite !N.leb_le, !N.ltb_lt. intros (((((((((H1 & H2) & H3) & H4) & H5) & H6) & H7) & H8) & H9) & H10).
  assert (DateTime.days_in_month (DateTime.year d) (DateTime.month d) ≤ 31).
  { unfold DateTime.days_in_month. repeat case_match; lia. }
  change (10 ^ N.of_nat 4) with 10000. change (10 ^ N.of_nat 2) with 100.
  change (10 ^ N.of_nat 6) with 1000000. lia.
Qed.

Lemma parse_fraction_of d :
  DateTime.microsecond d < 10 ^ N.of_nat 6 →
  DateTime.parse_fraction (DateTime.fraction d) = Some (DateTime.microsecond d).
Proof.
  intros Hus. unfold DateTime.fraction.
  destruct (DateTime.microsecond d =? 0) eqn:E.
  - apply N.eqb_eq in E. by rewrite E.
  - change ("." +:+ ?s) with (String "." s). cbn [DateTime.parse_fraction].
    change (Ascii.eqb "." ".") with true. cbv iota.
    rewrite <- (str_app_nil_r (Str.pad 6 _)), take_num_pad_lt by done. reflexivity.
Qed.

Lemma expect_lit c s : Str.expect c (String c EmptyString +:+ s) = Some s.
Proof. rewrite str_app_cons, str_app_nil_l. cbn. by rewrite Ascii.eqb_refl. Qed.

Lemma fromisoformat_isoformat_sep sep d :
  DateTime.valid d = true →
  DateTime.fromisoformat (DateTime.isoformat_sep sep d) = Some d.
Proof.
  intros Hv. destruct (valid_bounds d Hv) as (Hy & Hm & Hd & Hh & Hmi & Hs & Hus).
  unfold DateTime.fromisoformat, DateTime.isoformat_sep, DateTime.date_part, DateTime.time_part.
  rewrite !str_app_assoc.
  repeat (first [rewrite take_num_pad_lt by done | rewrite expect_lit];
          cbn [mbind option_bind]; cbv beta iota).
  rewrite parse_fraction_of by done. cbn [mbind option_bind].
  unfold DateTime.checked. destruct d. cbn in *. by rewrite Hv.
Qed.

Lemma fromisoformat_isoformat d :
  DateTime.valid d = true → DateTime.fromisoformat (DateTime.isoformat d) = Some d.
Proof. apply fromisoformat_isoformat_sep. Qed.

Ltac unfold_M := unfold mbind, M_bind, mret, M_ret, raise, get_world, set_fs, set_db, now, lift.

Lemma zone_lookup_fmap (f : string → string) z names :
  zone_lookup z ((fun n => (n, f n)) <$> names) = if bool_decide (z ∈ names) then Some (f z) else None.
Proof.
  induction names as [|n names IH]; [done|].
  rewrite fmap_cons. cbn [zone_lookup].
  destruct (String.eqb_spec z n) as [->|Hne].
  - rewrite bool_decide_eq_true_2; [done|]. apply elem_of_cons. by left.
  - rewrite IH. destruct (decide (z ∈ names)) as [Hin|Hin].
    + rewrite !bool_decide_eq_true_2; [done|apply elem_of_cons; by right|done].
    + rewrite !bool_decide_eq_false_2; [done| |done].
      intros [?|?]%elem_of_cons; done.
Qed.

Lemma zone_lookup_storage base z :
  zone_lookup z (zones (storage_at base)) =
  if bool_decide (z ∈ zone_names) then Some (path_join base z) else None.
Proof. apply zone_lookup_fmap. Qed.

Section ZoneStoreFacts.
Context {pd : Pandas} {dg : Digest}.

(** C6: [store_data] with a zone that is not one of raw, bronze, silver and
    gold raises the invalid-zone error, whatever the data, the dataset name
    and the format, and leaves the world as it was: no file is written and
    no directory is created. *)
Theorem store_invalid_zone base data zone dataset_name fmt w :
  zone ∉ zone_names →
  store_data (storage_at base) data zone dataset_name fmt w = (Raise (InvalidZone zone), w).
Proof.
  intros Hz. unfold store_data. rewrite zone_lookup_storage, bool_decide_eq_false_2 by done.
  reflexivity.
Qed.

Lemma fetch_by_id_None id rows :
  fetch_by_id id rows = None ↔ id ∉ row_asset_id <$> rows.
Proof.
  unfold fetch_by_id. induction rows as [|r rows IH]; cbn [List.find].
  - split; [set_solver|done].
  - rewrite fmap_cons, not_elem_of_cons. destruct (String.eqb_spec (row_asset_id r) id) as [E|E].
    + split; [done|]. intros [? _]. congruence.
    + rewrite IH. split; [intros; split; congruence|tauto].
Qed.

(** C3: [transform_data] on a source identifier that has no row in the
    catalog raises the asset-not-found error and leaves the world as it was:
    no lineage edge, no asset row, no file and no directory is added. *)
Theorem transform_missing_source self id f target_name target_zone w :
  id ∉ asset_ids w →
  transform_data self id f target_name target_zone w = (Raise (AssetNotFound id), w).
Proof.
  intros Hid. apply fetch_by_id_None in Hid.
  unfold transform_data, get_asset. unfold_M. rewrite Hid. reflexivity.
Qed.

(** C7: on a database that accepts writes, [add_lineage] returns nothing
    and appends exactly one edge, which carries the two identifiers, the
    label and the clock's current reading; neither identifier is looked up
    in the table of assets, which stays as it was. *)
Theorem add_lineage_appends source_id target_id label w :
  writable (db w) = true →
  ∃ w' e,
    add_lineage source_id target_id label w = (Ok tt, w') ∧
    lineage (db w') = lineage (db w) ++ [e] ∧
    source_asset_id e = source_id ∧ target_asset_id e = target_id ∧
    transformation e = label ∧
    edge_created_at e = DateTime.isoformat (clock w (ticks w)) ∧
    data_assets (db w') = data_assets (db w) ∧ fs w' = fs w.
Proof.
  intros Hw. unfold add_lineage. unfold_M. cbn. rewrite Hw. cbn.
  eexists _, _. split; [reflexivity|]. cbn. split; [reflexivity|]. done.
Qed.

End ZoneStoreFacts.

Lemma startswith_app n b : Str.startswith n (n +:+ b) = true.
Proof. induction n as [|c n IH]; [done|]. rewrite str_app_cons. cbn. by rewrite Ascii.eqb_refl, IH. Qed.

Lemma contains_here n b : Str.contains n (n +:+ b) = true.
Proof. destruct (n +:+ b) eqn:E; cbn; rewrite <- E, startswith_app; done. Qed.

Lemma contains_app_r n a s : Str.contains n s = true → Str.contains n (a +:+ s) = true.
Proof.
  intros Hs. induction a as [|c a IH]; [done|]. rewrite str_app_cons. cbn [Str.contains].
  rewrite IH. apply orb_true_r.
Qed.

Lemma contains_middle n a b : Str.contains n (a +:+ n +:+ b) = true.
Proof. apply contains_app_r, contains_here. Qed.

Lemma contains_char_cons c a s :
  Str.contains (Str.of_char c) (String a s) = Ascii.eqb c a || Str.contains (Str.of_char c) s.
Proof. cbn. destruct s; by rewrite andb_true_r. Qed.

Lemma contains_char_nil c : Str.contains (Str.of_char c) EmptyString = false.
Proof. reflexivity. Qed.

Lemma contains_char_app c a b :
  Str.contains (Str.of_char c) (a +:+ b)
  = Str.contains (Str.of_char c) a || Str.contains (Str.of_char c) b.
Proof.
  induction a as [|x a IH]; [done|].
  rewrite str_app_cons, !contains_char_cons, IH. by rewrite orb_assoc.
Qed.

Lemma rpartition_absent c s :
  Str.contains (Str.of_char c) s = false → Str.rpartition c s = None.
Proof.
  induction s as [|a s IH]; [done|]. rewrite contains_char_cons, orb_false_iff.
  intros [Ha Hs]. cbn. rewrite (IH Hs). by rewrite Ascii.eqb_sym, Ha.
Qed.

Lemma rpartition_last c a b :
  Str.contains (Str.of_char c) b = false →
  Str.rpartition c (a +:+ String c b) = Some (a, b).
Proof.
  intros Hb. induction a as [|x a IH].
  - rewrite str_app_nil_l. cbn. by rewrite (rpartition_absent c b Hb), Ascii.eqb_refl.
  - rewrite str_app_cons. cbn [Str.rpartition]. by rewrite IH.
Qed.

Lemma digit_char_not c d :
  d < 10 → (Str.ord c <? 48) || (57 <? Str.ord c) = true → Ascii.eqb c (Str.digit_char d) = false.
Proof.
  intros Hd Hc. apply Ascii.eqb_neq. intros ->.
  assert (d = 0 ∨ d = 1 ∨ d = 2 ∨ d = 3 ∨ d = 4 ∨ d = 5 ∨ d = 6 ∨ d = 7 ∨ d = 8 ∨ d = 9)
    as Hx by lia.
  repeat (destruct Hx as [->|Hx]; [discriminate Hc|]). subst. discriminate Hc.
Qed.

Lemma contains_pad c k n :
  (Str.ord c <? 48) || (57 <? Str.ord c) = true →
  Str.contains (Str.of_char c) (Str.pad k n) = false.
Proof.
  intros Hc. induction k as [|k IH]; [done|].
  cbn [Str.pad]. rewrite contains_char_cons, IH, orb_false_r.
  apply digit_char_not; [|done]. apply N.mod_lt. lia.
Qed.

Lemma contains_stamp c t :
  (Str.ord c <? 48) || (57 <? Str.ord c) = true → Ascii.eqb c "_" = false →
  Str.contains (Str.of_char c) (DateTime.strftime_stamp t) = false.
Proof.
  intros Hc Hu. unfold DateTime.strftime_stamp.
  rewrite !contains_char_app, !contains_pad by done.
  change (Str.contains (Str.of_char c) "_") with (Ascii.eqb c "_" && true || false).
  by rewrite Hu.
Qed.

Lemma split_nonnil sep s : Str.split sep s ≠ [].
Proof.
  destruct s as [|c s]; [done|]. cbn [Str.split].
  destruct (Ascii.eqb c sep); [done|]. by destruct (Str.split sep s).
Qed.

Lemma split_cons_other sep c s :
  Ascii.eqb c sep = false →
  ∃ h t, Str.split sep s = h :: t ∧ Str.split sep (String c s) = String c h :: t.
Proof.
  intros Hc. cbn [Str.split]. rewrite Hc.
  destruct (Str.split sep s) as [|h t] eqn:E; [by destruct (split_nonnil sep s)|eauto].
Qed.

Lemma split_no_sep sep s :
  Str.contains (Str.of_char sep) s = false → Str.split sep s = [s].
Proof.
  induction s as [|c s IH]; [done|].
  rewrite contains_char_cons, orb_false_iff. intros [Hc Hs].
  rewrite Ascii.eqb_sym in Hc.
  destruct (split_cons_other sep c s Hc) as (h & t & E & ->).
  rewrite (IH Hs) in E. by injection E as <- <-.
Qed.

Lemma split_app_sep sep a b :
  Str.split sep (a +:+ String sep b) = Str.split sep a ++ Str.split sep b.
Proof.
  induction a as [|c a IH].
  - rewrite str_app_nil_l. cbn [Str.split]. by rewrite Ascii.eqb_refl.
  - rewrite str_app_cons. destruct (Ascii.eqb c sep) eqn:Hc.
    + cbn [Str.split]. by rewrite Hc, IH.
    + destruct (split_cons_other sep c (a +:+ String sep b) Hc) as (h & t & E & ->).
      destruct (split_cons_other sep c a Hc) as (h' & t' & E' & ->).
      rewrite IH, E' in E. by injection E as <- <-.
Qed.

Lemma split_app_last sep a b :
  Str.contains (Str.of_char sep) b = false →
  ∃ l x, Str.split sep a = l ++ [x] ∧ Str.split sep (a +:+ b) = l ++ [x +:+ b].
Proof.
  intros Hb. induction a as [|c a (l & x & Ea & Eab)].
  - exists [], EmptyString. split; [done|]. rewrite str_app_nil_l. by apply split_no_sep.
  - rewrite str_app_cons. destruct (Ascii.eqb c sep) eqn:Hc.
    + exists (EmptyString :: l), x. cbn [Str.split]. by rewrite Hc, Ea, Eab.
    + destruct (split_cons_other sep c (a +:+ b) Hc) as (h & t & E & ->).
      destruct (split_cons_other sep c a Hc) as (h' & t' & E' & ->).
      rewrite Ea in E'. rewrite Eab in E. destruct l as [|y l].
      * injection E' as <- <-. injection E as <- <-. by exists [], (String c x).
      * injection E' as <- <-. injection E as <- <-. by exists (String c y :: l), x.
Qed.

Lemma split_elems sep s :
  Forall (fun x => Str.contains (Str.of_char sep) x = false) (Str.split sep s).
Proof.
  induction s as [|c s IH]; [by repeat constructor|].
  destruct (Ascii.eqb c sep) eqn:Hc.
  - cbn [Str.split]. rewrite Hc. by constructor.
  - destruct (split_cons_other sep c s Hc) as (h & t & E & ->).
    rewrite E in IH. apply Forall_cons in IH as [Hh Ht]. constructor; [|done].
    by rewrite contains_char_cons, Ascii.eqb_sym, Hc, Hh.
Qed.

Lemma join_cons_cons sep x y l :
  Str.join sep (x :: y :: l) = x +:+ sep +:+ Str.join sep (y :: l).
Proof. reflexivity. Qed.

Lemma split_join l :
  l ≠ [] → Forall (fun x => Str.contains "/" x = false) l →
  Str.split Str.slash (Str.join "/" l) = l.
Proof.
  induction l as [|x l IH]; [done|]. intros _ Hl.
  apply Forall_cons in Hl as [Hx Hl]. destruct l as [|y l].
  - by apply (split_no_sep Str.slash).
  - rewrite join_cons_cons.
    change ("/" +:+ ?u) with (String Str.slash u).
    rewrite split_app_sep, IH by done. by rewrite (split_no_sep Str.slash x Hx).
Qed.

(** A component: a text without separator that [pathlib] keeps. *)
Lemma is_component_spec n :
  is_component n = true ↔ is_part n = true ∧ Str.contains "/" n = false.
Proof. unfold is_component. by rewrite andb_true_iff, negb_true_iff. Qed.

Lemma filter_parts l : Forall (fun x => is_part x = true) l → List.filter is_part l = l.
Proof.
  induction 1 as [|x l Hx _ IH]; [done|]. cbn [List.filter]. by rewrite Hx, IH.
Qed.

Lemma Forall_filter_parts l :
  Forall (fun x => Str.contains "/" x = false) l →
  Forall (fun x => is_component x = true) (List.filter is_part l).
Proof.
  induction 1 as [|x l Hx _ IH]; [done|]. cbn [List.filter].
  destruct (is_part x) eqn:E; [|done]. constructor; [|done].
  by apply is_component_spec.
Qed.

Lemma path_parts_components s : Forall (fun x => is_component x = true) (path_parts s).
Proof. apply Forall_filter_parts, (split_elems Str.slash). Qed.

Lemma path_root_valid s : valid_root (path_root s).
Proof.
  unfold path_root, valid_root. repeat case_match; auto.
Qed.

Lemma component_head n :
  is_component n = true → ∃ c u, n = String c u ∧ Ascii.eqb c Str.slash = false.
Proof.
  intros [Hp Hs]%is_component_spec. destruct n as [|c u]; [discriminate Hp|].
  exists c, u. split; [done|].
  change "/" with (Str.of_char Str.slash) in Hs.
  rewrite contains_char_cons, orb_false_iff in Hs. destruct Hs as [Hc _].
  by rewrite Ascii.eqb_sym.
Qed.

Lemma join_head_component x l :
  is_component x = true →
  ∃ c u, Str.join "/" (x :: l) = String c u ∧ Ascii.eqb c Str.slash = false.
Proof.
  intros (c & u & -> & Hc)%component_head. destruct l as [|y l]; [eauto|].
  rewrite join_cons_cons, str_app_cons. eauto.
Qed.

Lemma path_root_relative c u : Ascii.eqb c Str.slash = false → path_root (String c u) = EmptyString.
Proof.
  intros Hc. unfold path_root. cbn [Str.startswith].
  change (Ascii.eqb "/" c) with (Ascii.eqb Str.slash c).
  by rewrite (Ascii.eqb_sym Str.slash c), Hc.
Qed.

Lemma components_parts l :
  Forall (fun x => is_component x = true) l →
  Forall (fun x => is_part x = true) l ∧ Forall (fun x => Str.contains "/" x = false) l.
Proof.
  intros Hl. split; eapply Forall_impl; try exact Hl; by intros x [? ?]%is_component_spec.
Qed.

Lemma path_parts_join l :
  Forall (fun x => is_component x = true) l → path_parts (Str.join "/" l) = l.
Proof.
  intros Hl. destruct l as [|x l]; [done|].
  unfold path_parts. destruct (components_parts _ Hl) as [Hp Hs].
  rewrite split_join by done. by apply filter_parts.
Qed.

(** Reading back the text of a path gives its root and its components. *)
Lemma path_str_inv r ps :
  valid_root r → Forall (fun x => is_component x = true) ps →
  path_root (path_str r ps) = r ∧ path_parts (path_str r ps) = ps.
Proof.
  intros Hr Hps.
  assert (∀ u, path_parts (String Str.slash u) = path_parts u) as Hdrop.
  { intros u. unfold path_parts. cbn [Str.split]. by rewrite Ascii.eqb_refl. }
  destruct Hr as [->|[->| ->]].
  - destruct ps as [|x l]; [done|]. cbn [path_str]. rewrite str_app_nil_l.
    split; [|by apply path_parts_join].
    apply Forall_cons in Hps as [Hx _].
    destruct (join_head_component x l Hx) as (c & u & -> & Hc).
    by apply path_root_relative.
  - assert (path_str "/" ps = String Str.slash (Str.join "/" ps)) as -> by by destruct ps.
    rewrite Hdrop, path_parts_join by done. split; [|done].
    destruct ps as [|x l]; [done|]. apply Forall_cons in Hps as [Hx _].
    destruct (join_head_component x l Hx) as (c & u & -> & Hc).
    unfold path_root. cbn [Str.startswith].
    change (Ascii.eqb "/" c) with (Ascii.eqb Str.slash c).
    by rewrite (Ascii.eqb_sym Str.slash c), Hc.
  - assert (path_str "//" ps = String Str.slash (String Str.slash (Str.join "/" ps))) as ->
      by by destruct ps.
    rewrite !Hdrop, path_parts_join by done. split; [|done].
    destruct ps as [|x l]; [done|]. apply Forall_cons in Hps as [Hx _].
    destruct (join_head_component x l Hx) as (c & u & -> & Hc).
    unfold path_root. cbn [Str.startswith].
    change (Ascii.eqb "/" c) with (Ascii.eqb Str.slash c).
    by rewrite (Ascii.eqb_sym Str.slash c), Hc.
Qed.

(** Every path that [/] yields is the text of a root and components. *)
Lemma path_join_str d n :
  ∃ r ps, valid_root r ∧ Forall (fun x => is_component x = true) ps ∧
          path_join d n = path_str r ps ∧
          (path_root n = EmptyString → r = path_root d ∧ ps = path_parts d ++ path_parts n) ∧
          (path_root n ≠ EmptyString → r = path_root n ∧ ps = path_parts n).
Proof.
  unfold path_join. destruct (path_root n) as [|c r] eqn:E.
  - exists (path_root d), (path_parts d ++ path_parts n).
    split; [apply path_root_valid|]. split; [|by repeat split].
    apply Forall_app. split; apply path_parts_components.
  - exists (String c r), (path_parts n).
    split; [rewrite <- E; apply path_root_valid|].
    split; [apply path_parts_components|]. by repeat split.
Qed.

Lemma path_join_normal d n :
  path_str (path_root (path_join d n)) (path_parts (path_join d n)) = path_join d n.
Proof.
  destruct (path_join_str d n) as (r & ps & Hr & Hps & -> & _).
  by destruct (path_str_inv r ps Hr Hps) as [-> ->].
Qed.

Lemma path_join_relative d n :
  path_root n = EmptyString →
  path_root (path_join d n) = path_root d ∧
  path_parts (path_join d n) = path_parts d ++ path_parts n.
Proof.
  intros Hn. destruct (path_join_str d n) as (r & ps & Hr & Hps & -> & Hrel & _).
  destruct (Hrel Hn) as [<- <-]. by apply path_str_inv.
Qed.

Lemma no_slash_relative n : Str.contains "/" n = false → path_root n = EmptyString.
Proof.
  destruct n as [|c u]; [done|]. change "/" with (Str.of_char Str.slash).
  rewrite contains_char_cons, orb_false_iff. intros [Hc _].
  apply path_root_relative. by rewrite Ascii.eqb_sym.
Qed.

Lemma not_absolute_relative n : Str.startswith "/" n = false → path_root n = EmptyString.
Proof.
  destruct n as [|c u]; [done|]. cbn [Str.startswith]. rewrite andb_true_r.
  intros Hc. apply path_root_relative. by rewrite Ascii.eqb_sym.
Qed.

Lemma path_parts_no_slash n :
  Str.contains "/" n = false → path_parts n = if is_part n then [n] else [].
Proof.
  intros Hn. unfold path_parts. by rewrite (split_no_sep Str.slash n Hn).
Qed.

Lemma path_parts_component n : is_component n = true → path_parts n = [n].
Proof. intros [Hp Hs]%is_component_spec. by rewrite path_parts_no_slash, Hp. Qed.

(** [d / n] for a component [n]: one more component. *)
Lemma path_join_component d n :
  is_component n = true →
  path_root (path_join d n) = path_root d ∧
  path_parts (path_join d n) = path_parts d ++ [n].
Proof.
  intros Hn. pose proof Hn as [_ Hs]%is_component_spec.
  rewrite <- (path_parts_component n Hn).
  by apply path_join_relative, no_slash_relative.
Qed.

Lemma removelast_snoc {A} (l : list A) x : List.removelast (l ++ [x]) = l.
Proof. apply List.removelast_last. Qed.

Lemma last_snoc' {A} (l : list A) x d : List.last (l ++ [x]) d = x.
Proof. apply List.last_last. Qed.

Lemma path_parent_join d0 n0 n :
  is_component n = true → path_parent (path_join (path_join d0 n0) n) = path_join d0 n0.
Proof.
  intros Hn. unfold path_parent.
  destruct (path_join_component (path_join d0 n0) n Hn) as [-> ->].
  rewrite removelast_snoc. apply path_join_normal.
Qed.

Lemma path_name_join d n : is_component n = true → path_name (path_join d n) = n.
Proof.
  intros Hn. unfold path_name.
  destruct (path_join_component d n Hn) as [_ ->]. apply last_snoc'.
Qed.




Lemma join_snoc l y : ∃ pre, Str.join "/" (l ++ [y]) = pre +:+ y.
Proof.
  induction l as [|x l (pre & IH)]; [by exists EmptyString|].
  destruct l as [|x' l].
  - exists (x +:+ "/"). cbn [app]. rewrite join_cons_cons. cbn [Str.join].
    by rewrite str_app_assoc.
  - exists (x +:+ "/" +:+ pre). cbn [app] in *. rewrite join_cons_cons, IH.
    by rewrite !str_app_assoc.
Qed.

Lemma path_str_snoc r l y : ∃ pre, path_str r (l ++ [y]) = pre +:+ y.
Proof.
  destruct (join_snoc l y) as (pre & E). exists (r +:+ pre).
  assert (path_str r (l ++ [y]) = r +:+ Str.join "/" (l ++ [y])) as ->.
  { unfold path_str. destruct r; [|done]. by destruct l. }
  by rewrite E, str_app_assoc.
Qed.

Lemma is_part_stamped x u : is_part (x +:+ String "_" u) = true.
Proof.
  unfold is_part. destruct x as [|c x]; [done|]. rewrite str_app_cons.
  assert (String.eqb (String c (x +:+ String "_" u)) "." = false) as ->; [|done].
  cbn [String.eqb]. destruct x; cbn; apply andb_false_r.
Qed.

(** The last component of [d / (n + tl)] when [tl] has no separator and
    makes a component of whatever it ends. *)
Lemma path_join_stamped d n tl :
  Str.contains "/" tl = false → (∀ x, is_part (x +:+ tl) = true) →
  ∃ x pre, path_name (path_join d (n +:+ tl)) = x +:+ tl ∧
           path_join d (n +:+ tl) = pre +:+ x +:+ tl.
Proof.
  intros Hs Hp.
  destruct (split_app_last Str.slash n tl Hs) as (l & x & _ & E).
  assert (path_parts (n +:+ tl) = List.filter is_part l ++ [x +:+ tl]) as Hparts.
  { unfold path_parts. rewrite E, List.filter_app. cbn [List.filter]. by rewrite Hp. }
  destruct (path_join_str d (n +:+ tl)) as (r & ps & Hr & Hps & Hj & Hrel & Habs).
  assert (∃ ps0, ps = ps0 ++ [x +:+ tl]) as [ps0 ->].
  { destruct (path_root (n +:+ tl)) as [|c u] eqn:Hroot.
    - destruct (Hrel eq_refl) as [_ ->]. rewrite Hparts, app_assoc. eauto.
    - destruct Habs as [_ ->]; [done|]. rewrite Hparts. eauto. }
  exists x. destruct (path_str_snoc r ps0 (x +:+ tl)) as (pre & Hpre). exists pre.
  rewrite Hj. split; [|done].
  unfold path_name. destruct (path_str_inv r _ Hr Hps) as [_ ->]. apply last_snoc'.
Qed.

Lemma startswith_app_l z s t : Str.startswith z s = true → Str.startswith z (s +:+ t) = true.
Proof.
  revert s. induction z as [|c z IH]; intros s; [done|].
  destruct s as [|d s]; [done|]. rewrite str_app_cons. cbn [Str.startswith].
  rewrite !andb_true_iff. intros [? ?]. split; [done|]. by apply IH.
Qed.

Lemma contains_app_l z s t : Str.contains z s = true → Str.contains z (s +:+ t) = true.
Proof.
  induction s as [|c s IH].
  - cbn [Str.contains]. rewrite orb_false_r. destruct z; [|done]. intros _.
    rewrite str_app_nil_l. by destruct t.
  - rewrite str_app_cons. cbn [Str.contains]. rewrite !orb_true_iff.
    intros [Hs|Hs]; [left|right; by apply IH].
    by apply (startswith_app_l z (String c s) t).
Qed.

Lemma startswith_inv p : ∀ s, Str.startswith p s = true → ∃ b, s = p +:+ b.
Proof.
  induction p as [|c p IH]; intros s; [by exists s|].
  destruct s as [|d s]; [done|]. cbn [Str.startswith].
  intros [Hc Hs]%andb_true_iff. apply Ascii.eqb_eq in Hc as <-.
  destruct (IH s Hs) as [b ->]. by exists b.
Qed.

Lemma contains_inv n s : Str.contains n s = true → ∃ a b, s = a +:+ n +:+ b.
Proof.
  induction s as [|c s IH]; cbn [Str.contains].
  - rewrite orb_false_r. intros [b ->]%startswith_inv. by exists EmptyString, b.
  - intros [[b ->]%startswith_inv|Hs]%orb_true_iff; [by exists EmptyString, b|].
    destruct (IH Hs) as (a & b & ->). by exists (String c a), b.
Qed.

Lemma contains_trans z n s :
  Str.contains z n = true → Str.contains n s = true → Str.contains z s = true.
Proof.
  intros Hz (a & b & ->)%contains_inv. by apply contains_app_r, contains_app_l.
Qed.

Lemma contains_join_elem x l : x ∈ l → Str.contains x (Str.join "/" l) = true.
Proof.
  induction l as [|y l IH]; [by intros ?%elem_of_nil|].
  destruct l as [|y' l].
  - intros ->%list_elem_of_singleton. cbn [Str.join].
    pose proof (contains_here y EmptyString) as Hy. by rewrite str_app_nil_r in Hy.
  - rewrite join_cons_cons. intros [->|Hx]%elem_of_cons.
    + apply contains_here.
    + by apply contains_app_r, contains_app_r, IH.
Qed.

Lemma contains_path_str x r l : x ∈ l → Str.contains x (path_str r l) = true.
Proof.
  intros Hx. assert (path_str r l = r +:+ Str.join "/" l) as ->.
  { unfold path_str. destruct r; [|done]. destruct l; [|done]. by apply elem_of_nil in Hx. }
  by apply contains_app_r, contains_join_elem.
Qed.

(** A path contains each of its components. *)
Lemma contains_part x d n :
  x ∈ path_parts (path_join d n) → Str.contains x (path_join d n) = true.
Proof. intros Hx. rewrite <- path_join_normal. by apply contains_path_str. Qed.

Lemma stamped_relative n u :
  Str.startswith "/" n = false → path_root (n +:+ String "_" u) = EmptyString.
Proof.
  intros Hn. apply not_absolute_relative. destruct n as [|c n]; [done|].
  by rewrite str_app_cons.
Qed.

Lemma file_name_tail n t ext :
  n +:+ "_" +:+ DateTime.strftime_stamp t +:+ "." +:+ ext
  = n +:+ String "_" (DateTime.strftime_stamp t +:+ "." +:+ ext).
Proof. reflexivity. Qed.

Lemma contains_slash_tail t ext :
  ext ∈ supported_formats →
  Str.contains "/" (String "_" (DateTime.strftime_stamp t +:+ "." +:+ ext)) = false.
Proof.
  intros Hext. change "/" with (Str.of_char Str.slash).
  rewrite contains_char_cons, !contains_char_app, contains_stamp by done.
  unfold supported_formats in Hext. set_unfold. by destruct Hext as [->|[->|[->|[]]]].
Qed.



(** The last component of a path made as [store_data] makes its file
    paths, and how the path ends. *)
Lemma file_path_of_last zp n t ext :
  ext ∈ supported_formats →
  ∃ x pre,
    path_name (file_path_of zp n t ext)
    = x +:+ "_" +:+ DateTime.strftime_stamp t +:+ "." +:+ ext ∧
    file_path_of zp n t ext
    = pre +:+ x +:+ "_" +:+ DateTime.strftime_stamp t +:+ "." +:+ ext.
Proof.
  intros Hext. unfold file_path_of. rewrite file_name_tail.
  apply path_join_stamped; [by apply contains_slash_tail|intros x; apply is_part_stamped].
Qed.

Lemma suffix_stamped x t ext :
  ext ∈ supported_formats →
  Str.rpartition Str.dot (x +:+ "_" +:+ DateTime.strftime_stamp t +:+ "." +:+ ext)
  = Some (x +:+ "_" +:+ DateTime.strftime_stamp t, ext).
Proof.
  intros Hext. change ("." +:+ ext) with (String Str.dot ext).
  rewrite <- !str_app_assoc. apply rpartition_last.
  unfold supported_formats in Hext. set_unfold. by destruct Hext as [->|[->|[->|[]]]].
Qed.

Lemma path_suffix_file_path_of zp n t ext :
  ext ∈ supported_formats → path_suffix (file_path_of zp n t ext) = "." +:+ ext.
Proof.
  intros Hext. destruct (file_path_of_last zp n t ext Hext) as (x & pre & Hname & _).
  unfold path_suffix. rewrite Hname, suffix_stamped by done.
  assert (∃ c u, x +:+ "_" +:+ DateTime.strftime_stamp t = String c u) as (c & u & ->).
  { destruct x as [|c x]; [rewrite str_app_nil_l|rewrite str_app_cons]; eauto. }
  unfold supported_formats in Hext. set_unfold. by destruct Hext as [->|[->|[->|[]]]].
Qed.


(** The path of a file stored under a relative dataset name goes through
    the directory of the zone. *)
Lemma contains_zone_in_path base z n t ext :
  is_component z = true → Str.startswith "/" n = false →
  Str.contains z (file_path_of (path_join base z) n t ext) = true.
Proof.
  intros Hz Hn. unfold file_path_of. apply contains_part. rewrite file_name_tail.
  destruct (path_join_relative (path_join (path_join base z) n)
              (n +:+ String "_" (DateTime.strftime_stamp t +:+ "." +:+ ext)))
    as [_ ->]; [by apply stamped_relative|].
  destruct (path_join_relative (path_join base z) n) as [_ ->];
    [by apply not_absolute_relative|].
  destruct (path_join_component base z Hz) as [_ ->].
  rewrite !elem_of_app, list_elem_of_singleton. auto.
Qed.

(** The path of a file stored under a name that is one component contains
    the name. *)
Lemma contains_name_in_path z zp n t ext :
  is_component n = true →
  Str.contains z n = true → Str.contains z (file_path_of zp n t ext) = true.
Proof.
  intros Hn Hz. apply (contains_trans z n); [done|].
  pose proof Hn as [_ Hs]%is_component_spec.
  unfold file_path_of. apply contains_part. rewrite file_name_tail.
  destruct (path_join_relative (path_join zp n)
              (n +:+ String "_" (DateTime.strftime_stamp t +:+ "." +:+ ext)))
    as [_ ->].
  { apply stamped_relative. destruct n as [|c n]; [done|].
    change "/" with (Str.of_char Str.slash) in Hs.
    rewrite contains_char_cons, orb_false_iff in Hs. destruct Hs as [Hc _].
    cbn [Str.startswith]. by rewrite andb_true_r. }
  destruct (path_join_component zp n Hn) as [_ ->].
  rewrite !elem_of_app, list_elem_of_singleton. auto.
Qed.

Section LakeFacts.
Context {pd : Pandas} {dg : Digest}.

Lemma mkdir_inv p w r w' :
  mkdir p w = (r, w') →
  db w' = db w ∧ clock w' = clock w ∧ ticks w' = ticks w ∧ files (fs w') = files (fs w) ∧
  ((r = Ok tt ∧ dirs (fs w') = dirs (fs w) ∪ {[ p ]} ∧
     (p ∈ dirs (fs w) ∨ path_parent p ∈ dirs (fs w)))
   ∨ (r = Raise (FileNotFoundError p) ∧ w' = w ∧
      (p ∉ dirs (fs w)) ∧ (path_parent p ∉ dirs (fs w)))).
Proof.
  unfold mkdir. unfold_M. 
  destruct (decide (p ∈ dirs (fs w))) as [Hin|Hin].
  - rewrite bool_decide_eq_true_2 by done. intros [= <- <-].
    repeat split; try done. left. split; [done|]. split; [|by left].
    symmetry. rewrite (comm_L (∪)). apply subseteq_union_1_L. by apply singleton_subseteq_l.
  - rewrite bool_decide_eq_false_2 by done.
    destruct (decide (path_parent p ∈ dirs (fs w))) as [Hp|Hp].
    + rewrite bool_decide_eq_true_2 by done. intros [= <- <-]. cbn.
      repeat split; try done. left. split; [done|]. split; [done|by right].
    + rewrite bool_decide_eq_false_2 by done. intros [= <- <-].
      repeat split; try done. by right.
Qed.

Lemma write_file_inv p bytes w r w' :
  write_file p bytes w = (r, w') →
  db w' = db w ∧ clock w' = clock w ∧ dirs (fs w') = dirs (fs w) ∧
  ((r = Ok tt ∧ path_parent p ∈ dirs (fs w) ∧ ticks w' = S (ticks w) ∧
     files (fs w') = <[ p := {| content := bytes; st_ctime := clock w (ticks w);
                                st_mtime := clock w (ticks w) |} ]> (files (fs w)))
   ∨ (r = Raise (FileNotFoundError p) ∧ w' = w ∧ path_parent p ∉ dirs (fs w))).
Proof.
  unfold write_file. unfold_M.
  destruct (decide (path_parent p ∈ dirs (fs w))) as [Hp|Hp].
  - rewrite bool_decide_eq_true_2 by done. intros [= <- <-]. cbn.
    repeat split; try done. left. done.
  - rewrite bool_decide_eq_false_2 by done. intros [= <- <-].
    repeat split; try done. by right.
Qed.

(** What a call of [store_data] that returns has done. *)
Lemma store_data_ok self data zone dataset_name fmt w p w' :
  store_data self data zone dataset_name fmt w = (Ok p, w') →
  ∃ zone_path bytes,
    zone_lookup zone (zones self) = Some zone_path ∧
    p = file_path_of zone_path dataset_name (clock w (ticks w)) fmt ∧
    ((fmt = "parquet" ∧ bytes = to_parquet data) ∨
     (fmt = "csv" ∧ bytes = to_csv data) ∨
     (fmt = "json" ∧ bytes = to_json data)) ∧
    files (fs w') =
      <[ p := {| content := bytes; st_ctime := clock w (S (ticks w));
                 st_mtime := clock w (S (ticks w)) |} ]> (files (fs w)) ∧
    dirs (fs w') = dirs (fs w) ∪ {[ path_join zone_path dataset_name ]} ∧
    db w' = db w ∧ clock w' = clock w ∧ ticks w' = S (S (ticks w)).
Proof.
  unfold store_data. destruct (zone_lookup zone (zones self)) as [zp|]; [|done].
  unfold mbind at 1 2 3. unfold M_bind.
  destruct (mkdir _ w) as [r1 w1] eqn:E1.
  apply mkdir_inv in E1 as (Hdb1 & Hc1 & Ht1 & Hf1 & [(-> & Hd1 & _)|(-> & _)]); [|done].
  unfold now at 1. cbn [mret M_ret]. rewrite Hc1, Ht1.
  set (q0 := file_path_of zp dataset_name (clock w (ticks w)) fmt).
  set (w2 := {| fs := fs w1; db := db w1; clock := clock w; ticks := S (ticks w) |}).
  change (((if String.eqb fmt "parquet" then write_file q0 (to_parquet data)
            else if String.eqb fmt "csv" then write_file q0 (to_csv data)
            else if String.eqb fmt "json" then write_file q0 (to_json data)
            else raise (UnsupportedFormat fmt)) ≫= λ _, mret q0) w2 = (Ok p, w') → 
          ∃ zone_path bytes, Some zp = Some zone_path ∧ p = file_path_of zone_path dataset_name (clock w (ticks w)) fmt ∧
    ((fmt = "parquet" ∧ bytes = to_parquet data) ∨
     (fmt = "csv" ∧ bytes = to_csv data) ∨
     (fmt = "json" ∧ bytes = to_json data)) ∧
    files (fs w') =
      <[ p := {| content := bytes; st_ctime := clock w (S (ticks w));
                 st_mtime := clock w (S (ticks w)) |} ]> (files (fs w)) ∧
    dirs (fs w') = dirs (fs w) ∪ {[ path_join zone_path dataset_name ]} ∧
    db w' = db w ∧ clock w' = clock w ∧ ticks w' = S (S (ticks w))).
  assert (∀ bytes, (write_file q0 bytes ≫= λ _, mret q0) w2 = (Ok p, w') →
          p = q0 ∧ files (fs w') = <[ p := {| content := bytes; st_ctime := clock w (S (ticks w));
                 st_mtime := clock w (S (ticks w)) |} ]> (files (fs w)) ∧
          dirs (fs w') = dirs (fs w) ∪ {[ path_join zp dataset_name ]} ∧
          db w' = db w ∧ clock w' = clock w ∧ ticks w' = S (S (ticks w))) as Hwr.
  { intros bytes. unfold mbind, M_bind. destruct (write_file q0 bytes w2) as [r3 w3] eqn:E3.
    apply write_file_inv in E3 as (Hdb3 & Hc3 & Hd3 & [(-> & _ & Ht3 & Hf3)|(-> & _)]); [|done].
    intros [= <- <-]. subst w2. cbn in *. rewrite Hf3, Hd3, Hdb3, Hc3, Ht3, Hf1, Hd1, Hdb1.
    done. }
  destruct (String.eqb_spec fmt "parquet") as [->|Hn1].
  { intros Hr. apply Hwr in Hr as (-> & Hr). exists zp, (to_parquet data).
    split; [done|]. split; [done|]. split; [by left|]. exact Hr. }
  destruct (String.eqb_spec fmt "csv") as [->|Hn2].
  { intros Hr. apply Hwr in Hr as (-> & Hr). exists zp, (to_csv data).
    split; [done|]. split; [done|]. split; [by right; left|]. exact Hr. }
  destruct (String.eqb_spec fmt "json") as [->|Hn3].
  { intros Hr. apply Hwr in Hr as (-> & Hr). exists zp, (to_json data).
    split; [done|]. split; [done|]. split; [by right; right|]. exact Hr. }
  done.
Qed.



Lemma bind_ok {A B} (m : M A) (f : A → M B) w b w' :
  (m ≫= f) w = (Ok b, w') ↔ ∃ a w1, m w = (Ok a, w1) ∧ f a w1 = (Ok b, w').
Proof.
  unfold mbind, M_bind. destruct (m w) as [[a|e] w1].
  - split; [eauto|]. by intros (a' & w1' & [= <- <-] & ?).
  - split; [done|]. by intros (a' & w1' & [=] & ?).
Qed.

Lemma bind_raise {A B} (m : M A) (f : A → M B) w e w' :
  (m ≫= f) w = (Raise e, w') ↔
  m w = (Raise e, w') ∨ ∃ a w1, m w = (Ok a, w1) ∧ f a w1 = (Raise e, w').
Proof.
  unfold mbind, M_bind. destruct (m w) as [[a|e1] w1].
  - split; [intros ?; right; eauto|]. intros [[=]|(a' & w1' & Ha & ?)]. by simplify_eq.
  - split; [intros [= <- <-]; by left|]. intros [?|(a' & w1' & ? & ?)]; by simplify_eq/=.
Qed.

Lemma bind_eq_ok {A B} (m : M A) (f : A → M B) w a w1 :
  m w = (Ok a, w1) → (m ≫= f) w = f a w1.
Proof. intros E. unfold mbind, M_bind. by rewrite E. Qed.

Lemma bind_eq_raise {A B} (m : M A) (f : A → M B) w e w1 :
  m w = (Raise e, w1) → (m ≫= f) w = (Raise e, w1).
Proof. intros E. unfold mbind, M_bind. by rewrite E. Qed.

Lemma preserves_db_bind {A B} (m : M A) (f : A → M B) :
  preserves_db m → (∀ a, preserves_db (f a)) → preserves_db (m ≫= f).
Proof.
  intros Hm Hf w r w'. unfold mbind, M_bind.
  destruct (m w) as [[a|e] w1] eqn:E.
  - intros E2. rewrite (Hf _ _ _ _ E2). eauto.
  - intros [= <- <-]. eauto.
Qed.

Lemma preserves_db_ret {A} (a : A) : preserves_db (mret a).
Proof. by intros w r w' [= <- <-]. Qed.

Lemma preserves_db_raise {A} e : preserves_db (@raise A e).
Proof. by intros w r w' [= <- <-]. Qed.

Lemma preserves_db_now : preserves_db now.
Proof. by intros w r w' [= <- <-]. Qed.

Lemma preserves_db_mkdir p : preserves_db (mkdir p).
Proof. intros w r w' E. by apply mkdir_inv in E as (? & _). Qed.

Lemma preserves_db_write_file p b : preserves_db (write_file p b).
Proof. intros w r w' E. by apply write_file_inv in E as (? & _). Qed.

(** [store_data] never touches the catalog. *)
Lemma store_data_db self data zone dataset_name fmt :
  preserves_db (store_data self data zone dataset_name fmt).
Proof.
  unfold store_data. destruct (zone_lookup zone (zones self)) as [zp|];
    [|apply preserves_db_raise].
  apply preserves_db_bind; [apply preserves_db_mkdir|intros _].
  apply preserves_db_bind; [apply preserves_db_now|intros t].
  apply preserves_db_bind; [|intros _; apply preserves_db_ret].
  repeat (case_match; [apply preserves_db_write_file|]). apply preserves_db_raise.
Qed.

Lemma get_file_info_file self p w f :
  files (fs w) !! p = Some f →
  get_file_info self p w =
  (Ok (Some {| info_size_bytes := Z.of_nat (length (content f));
               info_created_at := st_ctime f;
               info_modified_at := st_mtime f;
               info_checksum := calculate_checksum (content f) |}), w).
Proof. intros Hf. unfold get_file_info. unfold_M. by rewrite Hf. Qed.

Lemma get_file_info_world self p w r w' :
  get_file_info self p w = (r, w') → w' = w.
Proof.
  unfold get_file_info. unfold_M. repeat case_match; by intros [= <- <-].
Qed.

Lemma synthesize_asset_file self data name_ owner_ description_ tgs p w f :
  files (fs w) !! p = Some f →
  synthesize_asset self data name_ owner_ description_ tgs p w =
  (Ok {| asset_id := md5_hexdigest (Str.encode (name_ +:+ "_" +:+ DateTime.to_str (clock w (ticks w))));
         name := name_;
         path := p;
         format := Str.tail (path_suffix p);
         size_bytes := Z.of_nat (length (content f));
         created_at := st_ctime f;
         updated_at := st_mtime f;
         schema := schema_of data;
         tags := tags_or_empty tgs;
         owner := owner_;
         description := description_;
         checksum := calculate_checksum (content f) |}, tick w).
Proof.
  intros Hf. unfold synthesize_asset.
  rewrite (bind_eq_ok _ _ _ _ _ (get_file_info_file (storage self) p w f Hf)). reflexivity.
Qed.

Lemma synthesize_asset_db self data name_ owner_ description_ tgs p w r w' :
  synthesize_asset self data name_ owner_ description_ tgs p w = (r, w') →
  db w' = db w ∧ fs w' = fs w.
Proof.
  unfold synthesize_asset. unfold mbind at 1. unfold M_bind.
  destruct (get_file_info _ _ w) as [r1 w1] eqn:E1.
  apply get_file_info_world in E1 as ->.
  destruct r1 as [[fi|]|e]; cbn; by intros [= <- <-].
Qed.

Lemma register_asset_eq a w :
  register_asset a w =
  if writable (db w) && Sqlite.fits_int64 (size_bytes a)
  then (Ok true,
        {| fs := fs w;
           db := {| data_assets := insert_or_replace (row_of_asset a) (data_assets (db w));
                    lineage := lineage (db w);
                    writable := writable (db w) |};
           clock := clock w; ticks := ticks w |})
  else (Ok false, w).
Proof. unfold register_asset. unfold_M. by case_match. Qed.


Lemma asset_of_row_of_asset a :
  DateTime.valid (created_at a) = true → DateTime.valid (updated_at a) = true →
  asset_of_row (row_of_asset a) = Ok a.
Proof.
  intros Hc Hu. unfold asset_of_row, row_of_asset.
  cbn [row_asset_id row_name row_path row_format row_size_bytes row_created_at
       row_updated_at row_schema row_tags row_owner row_description row_checksum].
  rewrite (fromisoformat_isoformat _ Hc), (fromisoformat_isoformat _ Hu).
  rewrite loads_dumps_dict, loads_dumps_list. by destruct a.
Qed.

Lemma fetch_by_id_insert r rows :
  fetch_by_id (row_asset_id r) (insert_or_replace r rows) = Some r.
Proof.
  unfold fetch_by_id, insert_or_replace. induction rows as [|x rows IH].
  - cbn. by rewrite String.eqb_refl.
  - rewrite filter_cons. destruct (decide (row_asset_id x ≠ row_asset_id r)) as [Hne|He].
    + cbn [app List.find]. apply String.eqb_neq in Hne. by rewrite Hne.
    + done.
Qed.

Lemma get_asset_row id w row :
  fetch_by_id id (data_assets (db w)) = Some row →
  get_asset id w =
  (match asset_of_row row with Ok a => Ok (Some a) | Raise e => Raise e end, w).
Proof.
  intros Hr. unfold get_asset. unfold_M. rewrite Hr. by destruct (asset_of_row row).
Qed.

Lemma get_asset_missing id w :
  id ∉ asset_ids w → get_asset id w = (Ok None, w).
Proof.
  intros Hr. apply fetch_by_id_None in Hr. unfold get_asset. unfold_M. by rewrite Hr.
Qed.

(** C1: for an asset with a schema from strings to strings, a list of
    strings as tags and two valid time stamps, writing the row and reading
    it back is lossless, and once [register_asset] has returned [True],
    [get_asset] on the asset's identifier returns that very asset. *)
Theorem get_asset_after_register a w w' :
  DateTime.valid (created_at a) = true →
  DateTime.valid (updated_at a) = true →
  register_asset a w = (Ok true, w') →
  asset_of_row (row_of_asset a) = Ok a ∧
  get_asset (asset_id a) w' = (Ok (Some a), w').
Proof.
  intros Hc Hu. rewrite register_asset_eq.
  destruct (writable (db w) && Sqlite.fits_int64 (size_bytes a)); [|done].
  intros [= <-]. split; [by apply asset_of_row_of_asset|].
  erewrite get_asset_row.
  2:{ cbn. apply (fetch_by_id_insert (row_of_asset a)). }
  by rewrite asset_of_row_of_asset.
Qed.

Lemma store_then_synthesize self data name_ owner_ description_ tgs zone w p w1 :
  store_data (storage self) data zone name_ "parquet" w = (Ok p, w1) →
  ∃ a f,
    files (fs w1) !! p = Some f ∧ content f = to_parquet data ∧
    synthesize_asset self data name_ owner_ description_ tgs p w1 = (Ok a, tick w1) ∧
    path a = p ∧ format a = Str.tail (path_suffix p) ∧ name a = name_ ∧
    size_bytes a = Z.of_nat (length (to_parquet data)).
Proof.
  intros Hs. apply store_data_ok in Hs as (zp & bytes & Hz & -> & Hb & Hf & _).
  destruct Hb as [[_ ->]|[[? _]|[? _]]]; [|discriminate..].
  eexists _, _. split; [rewrite Hf; apply lookup_insert_eq|]. split; [done|].
  split; [apply synthesize_asset_file; rewrite Hf; apply lookup_insert_eq|]. by repeat split.
Qed.

Lemma ingest_data_unfold self data name_ owner_ description_ tgs zone w p w1 a w2 :
  store_data (storage self) data zone name_ "parquet" w = (Ok p, w1) →
  synthesize_asset self data name_ owner_ description_ tgs p w1 = (Ok a, w2) →
  ingest_data self data name_ owner_ description_ tgs zone w =
  (Ok (asset_id a), (register_asset a w2).2).
Proof.
  intros Hs Ha. unfold ingest_data. rewrite (bind_eq_ok _ _ _ _ _ Hs).
  unfold ingest_stored. rewrite (bind_eq_ok _ _ _ _ _ Ha).
  unfold mbind, M_bind. rewrite register_asset_eq.
  by destruct (writable (db w2) && Sqlite.fits_int64 (size_bytes a)).
Qed.

Lemma register_asset_false a w :
  (register_asset a w).1 = Ok false → register_asset a w = (Ok false, w).
Proof.
  rewrite register_asset_eq.
  by destruct (writable (db w) && Sqlite.fits_int64 (size_bytes a)).
Qed.

(** C9 (amended): when the registration of the synthesized asset reports
    failure, [ingest_data] still returns normally, with the identifier of
    that asset, and leaves the catalog as it was: [get_asset] on the
    identifier answers as it did before the ingestion, so that it finds no
    row if the identifier was not in the catalog before, and the row that
    was there otherwise. *)
Theorem ingest_ignores_failed_registration
    self data name_ owner_ description_ tgs zone w p w1 a w2 :
  store_data (storage self) data zone name_ "parquet" w = (Ok p, w1) →
  synthesize_asset self data name_ owner_ description_ tgs p w1 = (Ok a, w2) →
  (register_asset a w2).1 = Ok false →
  ingest_data self data name_ owner_ description_ tgs zone w = (Ok (asset_id a), w2) ∧
  asset_ids w2 = asset_ids w ∧
  (asset_id a ∉ asset_ids w → get_asset (asset_id a) w2 = (Ok None, w2)) ∧
  db w2 = db w ∧
  (get_asset (asset_id a) w2).1 = (get_asset (asset_id a) w).1.
Proof.
  intros Hs Ha Hreg.
  rewrite (ingest_data_unfold _ _ _ _ _ _ _ _ _ _ _ _ Hs Ha).
  rewrite (register_asset_false _ _ Hreg).
  assert (db w2 = db w) as Hdb.
  { destruct (synthesize_asset_db _ _ _ _ _ _ _ _ _ _ Ha) as [-> _].
    by rewrite (store_data_db _ _ _ _ _ _ _ _ Hs). }
  assert (asset_ids w2 = asset_ids w) as Hids by (unfold asset_ids; by rewrite Hdb).
  split; [done|]. split; [done|].
  split; [intros Hfresh; apply get_asset_missing; by rewrite Hids|].
  split; [done|]. unfold get_asset. unfold_M. rewrite Hdb.
  destruct (fetch_by_id (asset_id a) (data_assets (db w))) as [row|]; [|done].
  by destruct (asset_of_row row).
Qed.

Lemma ingest_stored_no_file self data name_ owner_ description_ tgs p w :
  (∀ fi, (get_file_info (storage self) p w).1 ≠ Ok (Some fi)) →
  ∃ e w', ingest_stored self data name_ owner_ description_ tgs p w = (Raise e, w') ∧
          db w' = db w ∧ fs w' = fs w.
Proof.
  intros Hfi. unfold ingest_stored, synthesize_asset.
  destruct (get_file_info (storage self) p w) as [r w1] eqn:E.
  pose proof (get_file_info_world _ _ _ _ _ E) as ->.
  destruct r as [[fi|]|e].
  - by destruct (Hfi fi).
  - exists (KeyError "size_bytes"), (tick w). unfold mbind, M_bind. by rewrite E.
  - exists e, w. unfold mbind, M_bind. by rewrite E.
Qed.

(** C4: ingestion is a sequence without rollback.  (1) When [store_data]
    raises, [ingest_data] raises the same exception and the table of assets
    is untouched.  (2) [ingest_data] goes on with [ingest_stored] on the
    path that [store_data] returned; whenever the file information for that
    path is missing, this raises and the table of assets is untouched.
    (3) When the registration reports failure, [ingest_data] still returns,
    no row is added, and the file written by [store_data] stays on disk. *)
Theorem ingest_is_not_atomic self data name_ owner_ description_ tgs zone w :
  (∀ e w1,
     store_data (storage self) data zone name_ "parquet" w = (Raise e, w1) →
     ingest_data self data name_ owner_ description_ tgs zone w = (Raise e, w1) ∧
     data_assets (db w1) = data_assets (db w)) ∧
  (∀ p w1,
     store_data (storage self) data zone name_ "parquet" w = (Ok p, w1) →
     ingest_data self data name_ owner_ description_ tgs zone w =
     ingest_stored self data name_ owner_ description_ tgs p w1) ∧
  (∀ p w1,
     (∀ fi, (get_file_info (storage self) p w1).1 ≠ Ok (Some fi)) →
     ∃ e w2,
       ingest_stored self data name_ owner_ description_ tgs p w1 = (Raise e, w2) ∧
       data_assets (db w2) = data_assets (db w1)) ∧
  (∀ p w1 a w2,
     store_data (storage self) data zone name_ "parquet" w = (Ok p, w1) →
     synthesize_asset self data name_ owner_ description_ tgs p w1 = (Ok a, w2) →
     (register_asset a w2).1 = Ok false →
     ingest_data self data name_ owner_ description_ tgs zone w = (Ok (asset_id a), w2) ∧
     data_assets (db w2) = data_assets (db w) ∧
     ∃ f, files (fs w2) !! p = Some f ∧ content f = to_parquet data).
Proof.
  split; [|split; [|split]].
  - intros e w1 Hs. split.
    + unfold ingest_data. by apply bind_eq_raise.
    + by rewrite (store_data_db _ _ _ _ _ _ _ _ Hs).
  - intros p w1 Hs. unfold ingest_data. by apply bind_eq_ok.
  - intros p w1 Hfi.
    destruct (ingest_stored_no_file self data name_ owner_ description_ tgs p w1 Hfi)
      as (e & w2 & E & Hdb & _).
    exists e, w2. by rewrite Hdb.
  - intros p w1 a w2 Hs Ha Hreg.
    rewrite (ingest_data_unfold _ _ _ _ _ _ _ _ _ _ _ _ Hs Ha).
    rewrite (register_asset_false _ _ Hreg). split; [done|].
    destruct (synthesize_asset_db _ _ _ _ _ _ _ _ _ _ Ha) as [Hdb Hfs].
    rewrite Hdb, (store_data_db _ _ _ _ _ _ _ _ Hs). split; [done|].
    destruct (store_then_synthesize self data name_ owner_ description_ tgs zone w p w1 Hs)
      as (a' & f & Hf & Hc & _).
    exists f. by rewrite Hfs.
Qed.

Lemma elem_of_insert_or_replace r' r rows :
  r' ∈ insert_or_replace r rows → r' ∈ rows ∨ r' = r.
Proof.
  unfold insert_or_replace. rewrite elem_of_app, list_elem_of_filter, list_elem_of_singleton.
  tauto.
Qed.

Lemma ingest_data_ok self data name_ owner_ description_ tgs zone w id w' :
  ingest_data self data name_ owner_ description_ tgs zone w = (Ok id, w') →
  ∃ zp p w1 a,
    zone_lookup zone (zones (storage self)) = Some zp ∧
    p = file_path_of zp name_ (clock w (ticks w)) "parquet" ∧
    store_data (storage self) data zone name_ "parquet" w = (Ok p, w1) ∧
    synthesize_asset self data name_ owner_ description_ tgs p w1 = (Ok a, tick w1) ∧
    id = asset_id a ∧ path a = p ∧ format a = "parquet" ∧
    size_bytes a = Z.of_nat (length (to_parquet data)) ∧
    w' = (register_asset a (tick w1)).2.
Proof.
  intros Hi. unfold ingest_data in Hi. apply bind_ok in Hi as (p & w1 & Hs & Hi).
  destruct (store_then_synthesize self data name_ owner_ description_ tgs zone w p w1 Hs)
    as (a & f & Hf & Hc & Ha & Hp & Hfm & _ & Hsz).
  pose proof (ingest_data_unfold _ _ _ _ _ _ _ _ _ _ _ _ Hs Ha) as Hu.
  unfold ingest_data in Hu. rewrite (bind_eq_ok _ _ _ _ _ Hs), Hi in Hu.
  injection Hu as -> ->.
  pose proof Hs as Hs'.
  apply store_data_ok in Hs' as (zp & bytes & Hz & -> & _).
  exists zp, (file_path_of zp name_ (clock w (ticks w)) "parquet"), w1, a.
  repeat split; try done.
  rewrite Hfm, path_suffix_file_path_of; [done|]. unfold supported_formats. set_solver.
Qed.


Lemma read_only_get_asset id : read_only (get_asset id).
Proof.
  intros w r w'. unfold get_asset. unfold_M.
  destruct (fetch_by_id id (data_assets (db w))) as [row|]; [|by intros [= <- <-]].
  destruct (asset_of_row row); by intros [= <- <-].
Qed.

Lemma read_only_read_file p : read_only (read_file p).
Proof.
  intros w r w'. unfold read_file. unfold_M.
  repeat case_match; by intros [= <- <-].
Qed.

Lemma read_only_bind {A B} (m : M A) (f : A → M B) :
  read_only m → (∀ a, read_only (f a)) → read_only (m ≫= f).
Proof.
  intros Hm Hf w r w'. unfold mbind, M_bind.
  destruct (m w) as [[a|e] w1] eqn:E.
  - intros E2. rewrite (Hf _ _ _ _ E2). eauto.
  - intros [= <- <-]. eauto.
Qed.

Lemma read_only_decoded r : read_only (decoded r).
Proof. intros w r' w'. destruct r; by intros [= <- <-]. Qed.

Lemma read_only_load_data self p : read_only (load_data self p).
Proof.
  unfold load_data.
  repeat (case_match;
          [apply read_only_bind; [apply read_only_read_file|intros; apply read_only_decoded]|]).
  by intros w r w' [= <- <-].
Qed.

Lemma add_lineage_data_assets s t l w r w' :
  add_lineage s t l w = (r, w') → data_assets (db w') = data_assets (db w) ∧ fs w' = fs w.
Proof.
  unfold add_lineage. unfold_M. cbn. destruct (writable (db w)); by intros [= <- <-].
Qed.




Lemma encoding_of_cases fmt data bytes :
  (fmt = "parquet" ∧ bytes = to_parquet data) ∨
  (fmt = "csv" ∧ bytes = to_csv data) ∨
  (fmt = "json" ∧ bytes = to_json data) →
  bytes = encoding_of fmt data.
Proof. by intros [[-> ->]|[[-> ->]|[-> ->]]]. Qed.



End LakeFacts.

Lemma ancestors_from_last s : ∀ pre, pre +:+ s ∈ ancestors_from pre s.
Proof.
  induction s as [|c s IH]; intros pre; cbn [ancestors_from].
  - rewrite str_app_nil_r. set_solver.
  - assert (pre +:+ String c s = (pre +:+ Str.of_char c) +:+ s) as Hshift.
    { unfold Str.of_char. by rewrite str_app_assoc. }
    destruct (Ascii.eqb c Str.slash).
    + destruct pre as [|x pre].
      * apply (IH (String c EmptyString)).
      * rewrite Hshift. apply elem_of_cons. right. apply IH.
    + rewrite Hshift. apply IH.
Qed.

Lemma makedirs_eq p w :
  makedirs p w =
  (Ok tt, {| fs := {| dirs := dirs (fs w) ∪ list_to_set (ancestors_from EmptyString p);
                      files := files (fs w) |};
             db := db w; clock := clock w; ticks := ticks w |}).
Proof. reflexivity. Qed.

Lemma manager_init_spec base w :
  ∃ w0, manager_init base w = (Ok {| storage := storage_at base |}, w0) ∧
        db w0 = db w ∧ files (fs w0) = files (fs w) ∧
        (∀ z, z ∈ zone_names → path_join base z ∈ dirs (fs w0)).
Proof.
  eexists. split; [reflexivity|]. cbn. split; [done|]. split; [done|].
  intros z Hz. unfold zone_names in Hz. set_unfold.
  pose proof (ancestors_from_last (path_join base z) EmptyString) as Hin.
  rewrite str_app_nil_l in Hin.
  repeat (destruct Hz as [->|Hz]; [set_solver|]). done.
Qed.

Lemma collect_cons_ok {A B} (f : A → M B) x r w y w1 ys w2 :
  f x w = (Ok y, w1) → collect f r w1 = (Ok ys, w2) →
  collect f (x :: r) w = (Ok (y :: ys), w2).
Proof.
  intros Hx Hr. cbn [collect]. rewrite (bind_eq_ok _ _ _ _ _ Hx).
  by rewrite (bind_eq_ok _ _ _ _ _ Hr).
Qed.

Lemma select_all (cond : Row → option bool) rows :
  (∀ r, cond r = Some true) → select cond rows = Some rows.
Proof.
  intros Hc. induction rows as [|r rows IH]; [done|].
  cbn [select]. by rewrite Hc, IH.
Qed.

Section SummaryFacts.
Context {pd : Pandas} {dg : Digest}.

Lemma search_assets_all w :
  search_assets EmptyString None w = (assets_of_rows (data_assets (db w)), w).
Proof.
  unfold search_assets. unfold_M.
  change (Sqlite.max_expr_depth <? where_depth EmptyString None) with false.
  cbv iota. by rewrite select_all.
Qed.

Lemma list_datasets_ok base z w :
  z ∈ zone_names → path_join base z ∈ dirs (fs w) →
  ∃ ds, list_datasets (storage_at base) z w = (Ok ds, w).
Proof.
  intros Hz Hd. unfold list_datasets.
  rewrite zone_lookup_storage, bool_decide_eq_true_2 by done.
  unfold_M. rewrite bool_decide_eq_true_2 by done. eauto.
Qed.

Lemma zone_summary_of_single base z w a :
  z ∈ zone_names → path_join base z ∈ dirs (fs w) →
  assets_of_rows (data_assets (db w)) = Ok [a] →
  ∃ s, zone_summary_of {| storage := storage_at base |} z w = (Ok (z, s), w) ∧
       asset_count s = if Str.contains z (path a) then 1%nat else 0%nat.
Proof.
  intros Hz Hd Ha. destruct (list_datasets_ok base z w Hz Hd) as [ds Hds].
  unfold zone_summary_of. cbn [storage].
  rewrite (bind_eq_ok _ _ _ _ _ Hds).
  pose proof (search_assets_all w) as Hsa. rewrite Ha in Hsa.
  rewrite (bind_eq_ok _ _ _ _ _ Hsa).
  eexists. split; [reflexivity|]. cbn [asset_count].
  destruct (Str.contains z (path a)) eqn:E.
  - by rewrite filter_cons_True.
  - rewrite filter_cons_False; [done|]. by rewrite E.
Qed.

(** C8 (amended): in a lake created on an empty disk with an empty
    catalog, after one ingestion into the zone raw under a dataset name that
    does not begin with a path separator and whose asset the catalog holds,
    [get_zone_summary] reports at least one asset for raw and none for
    bronze, silver and gold, provided none of these three names occurs in
    the path of the ingested asset. *)
Theorem zone_summary_after_one_ingest
    base clk data name_ owner_ description_ tgs self w0 id w1 a :
  manager_init base (empty_world clk) = (Ok self, w0) →
  Str.startswith "/" name_ = false →
  ingest_data self data name_ owner_ description_ tgs "raw" w0 = (Ok id, w1) →
  get_asset id w1 = (Ok (Some a), w1) →
  Str.contains "bronze" (path a) = false →
  Str.contains "silver" (path a) = false →
  Str.contains "gold" (path a) = false →
  ∃ raw_s bronze_s silver_s gold_s,
    get_zone_summary self w1 =
      (Ok [("raw", raw_s); ("bronze", bronze_s); ("silver", silver_s); ("gold", gold_s)], w1) ∧
    (1 ≤ asset_count raw_s)%nat ∧
    asset_count bronze_s = 0%nat ∧ asset_count silver_s = 0%nat ∧
    asset_count gold_s = 0%nat.
Proof.
  intros Hinit Hrel Hing Hget Hb Hs Hg.
  destruct (manager_init_spec base (empty_world clk)) as (w0' & Hinit' & Hdb0 & _ & Hdirs0).
  rewrite Hinit in Hinit'. injection Hinit' as -> <-.
  apply ingest_data_ok in Hing
    as (zp & p & w1' & a0 & Hz & Hp & Hst & Hsy & -> & Hpa & _ & _ & ->).
  cbn [storage] in Hz. rewrite zone_lookup_storage in Hz. cbn in Hz. injection Hz as <-.
  pose proof (store_data_db _ _ _ _ _ _ _ _ Hst) as Hdb1.
  apply store_data_ok in Hst as (zp' & bytes & Hz' & _ & _ & _ & Hdirs1 & _).
  cbn [storage] in Hz'. rewrite zone_lookup_storage in Hz'. cbn in Hz'. injection Hz' as <-.
  (* the catalog holds exactly the row of the ingested asset *)
  assert (data_assets (db (register_asset a0 (tick w1')).2) = [row_of_asset a0]
          ∧ fs (register_asset a0 (tick w1')).2 = fs w1') as [Hrows Hfs].
  { revert Hget. rewrite register_asset_eq. cbn [tick db fs]. rewrite Hdb1, Hdb0.
    destruct (writable _ && _); cbn [snd db data_assets fs]; [done|].
    rewrite get_asset_missing; [done|]. unfold asset_ids. cbn. rewrite Hdb1, Hdb0. set_solver. }
  set (w1 := (register_asset a0 (tick w1')).2) in *.
  assert (asset_of_row (row_of_asset a0) = Ok a) as Hrow.
  { revert Hget. erewrite get_asset_row.
    2:{ rewrite Hrows. cbn. by rewrite String.eqb_refl. }
    destruct (asset_of_row (row_of_asset a0)); by intros [= ->]. }
  assert (path a = p) as Hpath.
  { unfold asset_of_row in Hrow. repeat case_match; try done.
    injection Hrow as <-. by cbn. }
  assert (assets_of_rows (data_assets (db w1)) = Ok [a]) as Hall.
  { rewrite Hrows. cbn. by rewrite Hrow. }
  assert (∀ z, z ∈ zone_names → path_join base z ∈ dirs (fs w1)) as Hdirs.
  { intros z Hzn. rewrite Hfs, Hdirs1. apply elem_of_union_l. by apply Hdirs0. }
  assert (∀ z, z ∈ zone_names →
            ∃ s, zone_summary_of {| storage := storage_at base |} z w1 = (Ok (z, s), w1) ∧
                 asset_count s = if Str.contains z (path a) then 1%nat else 0%nat) as Hsum.
  { intros z Hzn. apply zone_summary_of_single; auto. }
  destruct (Hsum "raw") as (s1 & E1 & C1); [unfold zone_names; set_solver|].
  destruct (Hsum "bronze") as (s2 & E2 & C2); [unfold zone_names; set_solver|].
  destruct (Hsum "silver") as (s3 & E3 & C3); [unfold zone_names; set_solver|].
  destruct (Hsum "gold") as (s4 & E4 & C4); [unfold zone_names; set_solver|].
  exists s1, s2, s3, s4. split.
  - unfold get_zone_summary. cbn [storage storage_at zones zone_names fmap list_fmap fst].
    repeat (eapply collect_cons_ok; [eassumption|]). reflexivity.
  - rewrite C1, C2, C3, C4, Hb, Hs, Hg, Hpath, Hp, contains_zone_in_path by done. auto.
Qed.

End SummaryFacts.

Lemma compare_percent p s :
  Sqlite.pattern_compare (String "%" p) s =
  Sqlite.pattern_compare p s || match s with
                                | EmptyString => false
                                | String _ s' => Sqlite.pattern_compare (String "%" p) s'
                                end.
Proof. by destruct s. Qed.

Lemma compare_percent_only s : Sqlite.pattern_compare "%" s = true.
Proof.
  induction s as [|c s IH]; [done|]. rewrite compare_percent, IH. apply orb_true_r.
Qed.

Lemma compare_cons_same c p s :
  Sqlite.pattern_compare p s = true →
  Sqlite.pattern_compare (String c p) (String c s) = true.
Proof.
  intros Hp. cbn [Sqlite.pattern_compare].
  destruct (Ascii.eqb c "%") eqn:E1.
  - apply Ascii.eqb_eq in E1 as ->. fold (Sqlite.pattern_compare (String "%" p)).
    change (Sqlite.pattern_compare (String "%" p) (String "%" s) = true).
    rewrite compare_percent, (compare_percent p s), Hp. by rewrite orb_true_r.
  - destruct (Ascii.eqb c "_"); [done|]. by rewrite Ascii.eqb_refl, Hp.
Qed.

(** A pattern that ends in [%] matches every text it is a prefix of. *)
Lemma compare_prefix t : ∀ s,
  Str.startswith t s = true → Sqlite.pattern_compare (t +:+ "%") s = true.
Proof.
  induction t as [|c t IH]; intros s Hs.
  - rewrite str_app_nil_l. apply compare_percent_only.
  - destruct s as [|d s]; [done|]. cbn [Str.startswith] in Hs.
    apply andb_true_iff in Hs as [Hc Hs]. apply Ascii.eqb_eq in Hc as <-.
    rewrite str_app_cons. apply compare_cons_same. by apply IH.
Qed.

(** Every substring matches as a pattern between two [%]. *)
Lemma compare_of_contains t s :
  Str.contains t s = true → Sqlite.pattern_compare (Sqlite.anywhere t) s = true.
Proof.
  unfold Sqlite.anywhere. change ("%" +:+ ?x) with (String "%" x).
  induction s as [|c s IH]; cbn [Str.contains]; rewrite compare_percent.
  - rewrite orb_false_r. intros Hs. by rewrite compare_prefix.
  - intros [Hs|Hs]%orb_true_iff.
    + by rewrite compare_prefix.
    + rewrite IH by done. apply orb_true_r.
Qed.

Lemma c_str_nul_free s : Str.contains (Str.of_char Str.nul) (Sqlite.c_str s) = false.
Proof.
  induction s as [|c s IH]; [done|]. cbn [Sqlite.c_str].
  destruct (Ascii.eqb c Str.nul) eqn:E; [done|].
  by rewrite contains_char_cons, Ascii.eqb_sym, E, IH.
Qed.

Lemma c_str_id s : Str.contains (Str.of_char Str.nul) s = false → Sqlite.c_str s = s.
Proof.
  induction s as [|c s IH]; [done|].
  rewrite contains_char_cons, orb_false_iff. intros [Hc Hs].
  cbn [Sqlite.c_str]. by rewrite Ascii.eqb_sym, Hc, IH.
Qed.

Lemma contains_char_sub c t s :
  Str.contains t s = true → Str.contains (Str.of_char c) s = false →
  Str.contains (Str.of_char c) t = false.
Proof.
  intros (a & b & ->)%contains_inv. rewrite !contains_char_app, !orb_false_iff. tauto.
Qed.

(** Between two [%], a text that occurs in what LIKE reads of a field matches
    the field. *)
Lemma like_of_contains t s :
  Sqlite.pattern_fits (Sqlite.anywhere t) = true →
  Str.contains t (Sqlite.c_str s) = true →
  Sqlite.like (Sqlite.anywhere t) s = Some true.
Proof.
  intros Hfit Hsub. unfold Sqlite.like. rewrite Hfit. f_equal.
  rewrite c_str_id; [by apply compare_of_contains|].
  unfold Sqlite.anywhere. change ("%" +:+ ?x) with (String "%" x).
  rewrite contains_char_cons, contains_char_app,
    (contains_char_sub _ _ _ Hsub (c_str_nul_free s)). done.
Qed.

Lemma reads_refl s : reads s s.
Proof. by exists EmptyString. Qed.

Lemma reads_cons c s rest :
  Ascii.eqb Str.nul c = false → reads s rest → reads (String c s) rest.
Proof.
  intros Hc (pre & -> & Hpre). exists (String c pre). split; [done|].
  by rewrite contains_char_cons, Hc, Hpre.
Qed.

Lemma reads_trans s t u : reads s t → reads t u → reads s u.
Proof.
  intros (p & -> & Hp) (q & -> & Hq). exists (p +:+ q).
  split; [by rewrite str_app_assoc|]. by rewrite contains_char_app, Hp, Hq.
Qed.

Lemma reads_all s : reads s EmptyString → Str.contains (Str.of_char Str.nul) s = false.
Proof. intros (pre & -> & Hpre). by rewrite str_app_nil_r. Qed.

Lemma skip_ws_reads s : reads s (Json.skip_ws s).
Proof.
  induction s as [|c s IH]; [apply reads_refl|]. cbn [Json.skip_ws].
  destruct (Json.is_ws c) eqn:E; [|apply reads_refl].
  apply reads_cons; [|done]. destruct (Ascii.eqb Str.nul c) eqn:Hc; [|done].
  apply Ascii.eqb_eq in Hc as <-. discriminate E.
Qed.

Lemma expect_reads c s r :
  Ascii.eqb Str.nul c = false → Str.expect c s = Some r → reads s r.
Proof.
  intros Hc. destruct s as [|d s]; [done|]. cbn [Str.expect].
  destruct (Ascii.eqb c d) eqn:E; [|done]. intros [= ->].
  apply Ascii.eqb_eq in E as <-. apply reads_cons; [done|apply reads_refl].
Qed.

Lemma push_reads c r x rest s :
  Json.push c r = Some (x, rest) → (∀ y, r = Some (y, rest) → reads s rest) → reads s rest.
Proof. destruct r as [[y rest']|]; [|done]. intros [= _ ->]. eauto. Qed.

Lemma not_nul (f : ascii → bool) c : f Str.nul = false → f c = true → Ascii.eqb Str.nul c = false.
Proof.
  intros H0 Hc. destruct (Ascii.eqb Str.nul c) eqn:E; [|done].
  apply Ascii.eqb_eq in E as <-. congruence.
Qed.

Lemma hex_val_not_nul c v : Json.hex_val c = Some v → Ascii.eqb Str.nul c = false.
Proof.
  intros Hv. apply (not_nul (fun c => bool_decide (is_Some (Json.hex_val c)))); [done|].
  apply bool_decide_eq_true_2. eauto.
Qed.

Lemma scanstring_reads n : ∀ s x rest,
  (String.length s ≤ n)%nat → Json.scanstring s = Some (x, rest) → reads s rest.
Proof.
  induction n as [|n IH]; intros s x rest Hlen.
  { destruct s; [done|]. cbn in Hlen. lia. }
  destruct s as [|c r]; [done|]. cbn [String.length] in Hlen. cbn [Json.scanstring].
  destruct (Str.ord c =? 34) eqn:E34.
  { intros [= _ ->]. apply reads_cons; [|apply reads_refl].
    apply (not_nul (fun c => Str.ord c =? 34)); done. }
  destruct (Str.ord c =? 92) eqn:E92.
  { assert (Ascii.eqb Str.nul c = false) as Hc
      by (apply (not_nul (fun c => Str.ord c =? 92)); done).
    destruct r as [|e r1]; [done|]. cbn [String.length] in Hlen.
    destruct (Str.ord e =? 117) eqn:E117.
    - assert (Ascii.eqb Str.nul e = false) as He
        by (apply (not_nul (fun c => Str.ord c =? 117)); done).
      destruct r1 as [|h1 [|h2 [|h3 [|h4 r2]]]]; try done.
      cbn [String.length] in Hlen. unfold Json.hex4.
      destruct (Json.hex_val h1) as [v1|] eqn:H1; [|done].
      destruct (Json.hex_val h2) as [v2|] eqn:H2; [|done].
      destruct (Json.hex_val h3) as [v3|] eqn:H3; [|done].
      destruct (Json.hex_val h4) as [v4|] eqn:H4; [|done].
      destruct (_ <? 256); [|done]. intros Hp.
      do 2 (apply reads_cons; [done|]).
      apply reads_cons; [by eapply hex_val_not_nul|].
      apply reads_cons; [by eapply hex_val_not_nul|].
      apply reads_cons; [by eapply hex_val_not_nul|].
      apply reads_cons; [by eapply hex_val_not_nul|].
      eapply push_reads; [exact Hp|]. intros y Hy. apply (IH r2 y rest); [lia|done].
    - destruct (Json.unescape e) as [c'|] eqn:Hu; [|done]. intros Hp.
      apply reads_cons; [done|]. apply reads_cons.
      { apply (not_nul (fun c => bool_decide (is_Some (Json.unescape c)))); [done|].
        apply bool_decide_eq_true_2. eauto. }
      eapply push_reads; [exact Hp|]. intros y Hy. apply (IH r1 y rest); [lia|done]. }
  destruct (Str.ord c <? 32) eqn:E32; [done|]. intros Hp.
  apply reads_cons.
  { apply (not_nul (fun c => negb (Str.ord c <? 32))); [done|by rewrite E32]. }
  eapply push_reads; [exact Hp|]. intros y Hy. apply (IH r y rest); [lia|done].
Qed.

Lemma parse_elems_reads fuel : ∀ s l rest,
  Json.parse_elems fuel s = Some (l, rest) → reads s rest.
Proof.
  induction fuel as [|fuel IH]; intros s l rest; [done|]. cbn [Json.parse_elems].
  destruct (Str.expect Str.dquote s) as [r|] eqn:E1; [|done]. cbn [mbind option_bind].
  destruct (Json.scanstring r) as [[x r1]|] eqn:E2; [|done]. cbn [mbind option_bind].
  intros Hrest.
  apply (reads_trans _ r); [by apply (expect_reads Str.dquote)|].
  apply (reads_trans _ r1); [by apply (scanstring_reads (String.length r) r x)|].
  apply (reads_trans _ (Json.skip_ws r1)); [apply skip_ws_reads|].
  destruct (Json.skip_ws r1) as [|d r2]; [done|].
  destruct (Ascii.eqb d ",") eqn:Ec.
  - apply Ascii.eqb_eq in Ec as ->.
    destruct (Json.parse_elems fuel (Json.skip_ws r2)) as [[xs r3]|] eqn:E3; [|done].
    cbn [mbind option_bind] in Hrest. injection Hrest as _ ->.
    apply reads_cons; [done|].
    apply (reads_trans _ (Json.skip_ws r2)); [apply skip_ws_reads|]. by apply (IH _ xs).
  - destruct (Ascii.eqb d "]") eqn:Eb; [|done]. apply Ascii.eqb_eq in Eb as ->.
    injection Hrest as _ ->. apply reads_cons; [done|apply reads_refl].
Qed.

Lemma parse_array_reads s l rest : Json.parse_array s = Some (l, rest) → reads s rest.
Proof.
  unfold Json.parse_array.
  destruct (Str.expect "[" s) as [r|] eqn:E1; [|done]. cbn [mbind option_bind].
  intros Hrest. apply (reads_trans _ r); [by apply (expect_reads "[")|].
  apply (reads_trans _ (Json.skip_ws r)); [apply skip_ws_reads|].
  destruct (Json.skip_ws r) as [|c r'] eqn:E2; [done|].
  destruct (Ascii.eqb c "]") eqn:Eb.
  - apply Ascii.eqb_eq in Eb as ->. injection Hrest as _ ->.
    apply reads_cons; [done|apply reads_refl].
  - by apply (parse_elems_reads (String.length r) _ l).
Qed.

(** A text that [json.loads] reads as a list of strings holds no NUL. *)
Lemma loads_list_nul_free s l :
  Json.loads_list s = Some l → Str.contains (Str.of_char Str.nul) s = false.
Proof.
  unfold Json.loads_list, Json.whole.
  destruct (Json.parse_array (Json.skip_ws s)) as [[a rest]|] eqn:E; [|done].
  cbn [mbind option_bind]. destruct (Json.skip_ws rest) eqn:Er; [|done]. intros _.
  apply reads_all. apply (reads_trans _ (Json.skip_ws s)); [apply skip_ws_reads|].
  apply (reads_trans _ rest); [by apply (parse_array_reads _ a)|].
  rewrite <- Er. apply skip_ws_reads.
Qed.

Lemma like_total p s :
  Sqlite.pattern_fits p = true → ∃ b, Sqlite.like p s = Some b.
Proof. intros Hp. unfold Sqlite.like. rewrite Hp. eauto. Qed.

Lemma like_all_true ps s :
  like_all ps s = Some true ↔ ∀ p, p ∈ ps → Sqlite.like p s = Some true.
Proof.
  induction ps as [|p ps IH]; cbn [like_all].
  - split; [by intros _ p ?%elem_of_nil|done].
  - destruct (Sqlite.like p s) as [[]|] eqn:E.
    + rewrite IH. split.
      * intros H q [->|Hq]%elem_of_cons; auto.
      * intros H q Hq. apply H, elem_of_cons. by right.
    + split; [done|]. intros H. specialize (H p (list_elem_of_here _ _)). congruence.
    + split; [done|]. intros H. specialize (H p (list_elem_of_here _ _)). congruence.
Qed.

Lemma like_all_total ps s :
  (∀ p, p ∈ ps → Sqlite.pattern_fits p = true) → ∃ b, like_all ps s = Some b.
Proof.
  induction ps as [|p ps IH]; intros Hfit; [by exists true|]. cbn [like_all].
  destruct (like_total p s) as [[] ->]; [apply Hfit, list_elem_of_here| |by exists false].
  apply IH. intros q Hq. apply Hfit, elem_of_cons. by right.
Qed.

Lemma select_filter (cond : Row → option bool) rows :
  (∀ r, r ∈ rows → ∃ b, cond r = Some b) →
  select cond rows = Some (filter (λ r, cond r = Some true) rows).
Proof.
  induction rows as [|r rows IH]; intros Hc; [done|]. cbn [select].
  destruct (Hc r (list_elem_of_here _ _)) as [b Hb]. rewrite Hb, IH.
  2:{ intros r' Hr'. apply Hc, elem_of_cons. by right. }
  rewrite filter_cons. destruct b.
  - by rewrite decide_True by done.
  - by rewrite decide_False by (rewrite Hb; done).
Qed.

Lemma where_depth_tags ts :
  where_depth EmptyString (Some ts) = 2 + N.of_nat (length ts).
Proof. reflexivity. Qed.

Lemma matches_tags_eq ts r :
  matches EmptyString (Some ts) r = like_all (Sqlite.anywhere <$> ts) (row_tags r).
Proof. reflexivity. Qed.

Lemma matches_tags ts r :
  matches EmptyString (Some ts) r = Some true ↔
  ∀ t, t ∈ ts → Sqlite.like (Sqlite.anywhere t) (row_tags r) = Some true.
Proof.
  rewrite matches_tags_eq, like_all_true. split.
  - intros H t Ht. apply H, list_elem_of_fmap. eauto.
  - intros H p (t & -> & Ht)%list_elem_of_fmap. by apply H.
Qed.

Lemma matches_tags_total ts r :
  (∀ t, t ∈ ts → Sqlite.pattern_fits (Sqlite.anywhere t) = true) →
  ∃ b, matches EmptyString (Some ts) r = Some b.
Proof.
  intros Hfit. rewrite matches_tags_eq. apply like_all_total.
  intros p (t & -> & Ht)%list_elem_of_fmap. by apply Hfit.
Qed.

Lemma matches_query q r :
  q ≠ EmptyString →
  matches q None r = Some true ↔
  Sqlite.like (Sqlite.anywhere q) (row_name r) = Some true ∨
  Sqlite.like (Sqlite.anywhere q) (row_description r) = Some true.
Proof.
  intros Hq. unfold matches. destruct q as [|c q]; [done|]. cbn [requested fmap list_fmap like_all].
  unfold Sqlite.like. destruct (Sqlite.pattern_fits _).
  - destruct (Sqlite.pattern_compare _ (Sqlite.c_str (row_name r)));
      destruct (Sqlite.pattern_compare _ (Sqlite.c_str (row_description r)));
      (split; [intros H; try discriminate H; auto|intros [H|H]; try discriminate H; auto]).
  - split; [done|by intros [H|H]].
Qed.

Lemma matches_query_total q r :
  Sqlite.pattern_fits (Sqlite.anywhere q) = true → ∃ b, matches q None r = Some b.
Proof.
  intros Hfit. unfold matches. destruct q as [|c q]; [by exists true|].
  cbn [requested fmap list_fmap like_all]. unfold Sqlite.like. rewrite Hfit.
  repeat case_match; eauto.
Qed.

Lemma matches_query_fails q r :
  q ≠ EmptyString → Sqlite.pattern_fits (Sqlite.anywhere q) = false →
  matches q None r = None.
Proof.
  intros Hq Hfit. unfold matches. destruct q as [|c q]; [done|].
  unfold Sqlite.like. by rewrite Hfit.
Qed.

Section SearchFacts.
Context {pd : Pandas} {dg : Digest}.

Lemma assets_of_rows_cons r rows :
  assets_of_rows (r :: rows) =
  match asset_of_row r with
  | Raise e => Raise e
  | Ok a => match assets_of_rows rows with
            | Raise e => Raise e
            | Ok l => Ok (a :: l)
            end
  end.
Proof. reflexivity. Qed.

Lemma assets_of_rows_elem rows : ∀ l,
  assets_of_rows rows = Ok l →
  ∀ a, a ∈ l ↔ ∃ r, r ∈ rows ∧ asset_of_row r = Ok a.
Proof.
  induction rows as [|r rows IH]; intros l Hl a.
  - injection Hl as <-. set_solver.
  - rewrite assets_of_rows_cons in Hl.
    destruct (asset_of_row r) as [a0|] eqn:E0; [|done].
    destruct (assets_of_rows rows) as [l0|]; [|done]. injection Hl as <-.
    rewrite elem_of_cons, (IH l0 eq_refl a). split.
    + intros [->|(r' & Hr' & Ha)]; [exists r|exists r']; set_solver.
    + intros (r' & [->|Hr']%elem_of_cons & Ha); [left; congruence|right; eauto].
Qed.

Lemma assets_of_rows_filter (P : Row → Prop) `{∀ r, Decision (P r)} rows : ∀ l,
  assets_of_rows rows = Ok l → ∃ l', assets_of_rows (filter P rows) = Ok l'.
Proof.
  induction rows as [|r rows IH]; intros l Hl; [by exists []|].
  rewrite assets_of_rows_cons in Hl.
  destruct (asset_of_row r) as [a0|] eqn:E0; [|done].
  destruct (assets_of_rows rows) as [l0|]; [|done].
  destruct (IH l0 eq_refl) as [l' Hl'].
  rewrite filter_cons. destruct (decide (P r)); [|eauto].
  rewrite assets_of_rows_cons, E0, Hl'. eauto.
Qed.

Lemma asset_of_row_tags r a :
  asset_of_row r = Ok a → Str.contains (Str.of_char Str.nul) (row_tags r) = false.
Proof.
  unfold asset_of_row. repeat case_match; try done. intros _.
  by eapply loads_list_nul_free.
Qed.

(** C5 (amended): on a catalog whose rows all read back, [search_assets]
    with an empty query and 999 tags or more raises [OperationalError],
    the statement being too deep for SQLite.  With fewer tags, each making
    a pattern of at most 50000 bytes with its two [%], it returns an asset
    exactly when each requested tag, put between two [%], matches the
    serialized tag field of its row under SQLite's LIKE: letters A-Z match
    without regard to case, [%] and [_] inside a tag are wildcards, and a
    tag ends at its first NUL.  Every tag that occurs as a substring of the field matches,
    so an asset is always returned when all requested tags are substrings;
    the tag a matches an asset tagged abc. *)
Theorem search_by_tags ts w all :
  assets_of_rows (data_assets (db w)) = Ok all →
  ((999 ≤ length ts)%nat →
   search_assets EmptyString (Some ts) w = (Raise OperationalError, w)) ∧
  ((length ts < 999)%nat →
   (∀ t, t ∈ ts → Sqlite.pattern_fits (Sqlite.anywhere t) = true) →
   ∃ found,
     search_assets EmptyString (Some ts) w = (Ok found, w) ∧
     (∀ a, a ∈ found ↔
        ∃ r, r ∈ data_assets (db w) ∧ asset_of_row r = Ok a ∧
             ∀ t, t ∈ ts → Sqlite.like (Sqlite.anywhere t) (row_tags r) = Some true) ∧
     (∀ r, r ∈ data_assets (db w) →
        (∀ t, t ∈ ts → Str.contains t (row_tags r) = true) →
        ∀ a, asset_of_row r = Ok a → a ∈ found)) ∧
  Sqlite.like (Sqlite.anywhere "a") (Json.dumps_list ["abc"]) = Some true.
Proof.
  intros Hall. split; [|split; [|done]].
  - intros Hlen. unfold search_assets. unfold_M.
    rewrite where_depth_tags.
    assert ((Sqlite.max_expr_depth <? 2 + N.of_nat (length ts)) = true) as ->; [|done].
    apply N.ltb_lt. unfold Sqlite.max_expr_depth. lia.
  - intros Hlen Hfit.
    destruct (assets_of_rows_filter
                (λ r, matches EmptyString (Some ts) r = Some true) _ _ Hall)
      as [found Hfound].
    assert (∀ a, a ∈ found ↔
         ∃ r, r ∈ data_assets (db w) ∧ asset_of_row r = Ok a ∧
              ∀ t, t ∈ ts → Sqlite.like (Sqlite.anywhere t) (row_tags r) = Some true)
      as Hiff.
    { intros a. rewrite (assets_of_rows_elem _ _ Hfound a).
      setoid_rewrite list_elem_of_filter. setoid_rewrite matches_tags. naive_solver. }
    exists found. split; [|split; [done|]].
    + unfold search_assets. unfold_M. rewrite where_depth_tags.
      assert ((Sqlite.max_expr_depth <? 2 + N.of_nat (length ts)) = false) as ->.
      { apply N.ltb_ge. unfold Sqlite.max_expr_depth. lia. }
      rewrite select_filter by (intros r _; by apply matches_tags_total).
      by rewrite Hfound.
    + intros r Hr Hsub a Ha. apply Hiff. exists r. split; [done|]. split; [done|].
      intros t Ht. apply like_of_contains; [by apply Hfit|].
      rewrite c_str_id by by eapply asset_of_row_tags. by apply Hsub.
Qed.

End SearchFacts.
(** * The properties on the sample states *)

Ltac by_computation := vm_compute; reflexivity.
Ltac decide_by_computation := refine (bool_decide_unpack _ _); vm_compute; exact I.

Lemma get_asset_after_register_witness :
  DateTime.valid (created_at sample_asset) = true ∧
  DateTime.valid (updated_at sample_asset) = true ∧
  register_asset sample_asset (empty_world sample_clock) = (Ok true, sample_catalog) ∧
  asset_of_row (row_of_asset sample_asset) = Ok sample_asset ∧
  get_asset (asset_id sample_asset) sample_catalog = (Ok (Some sample_asset), sample_catalog).
Proof.
  assert (DateTime.valid (created_at sample_asset) = true) as Hc by by_computation.
  assert (DateTime.valid (updated_at sample_asset) = true) as Hu by by_computation.
  assert (register_asset sample_asset (empty_world sample_clock) = (Ok true, sample_catalog))
    as Hr by by_computation.
  split; [exact Hc|]. split; [exact Hu|]. split; [exact Hr|].
  exact (get_asset_after_register sample_asset (empty_world sample_clock) sample_catalog
           Hc Hu Hr).
Defined.



Lemma transform_missing_source_witness :
  transform_data (pd := byte_frames) (dg := hex_digest) sample_manager "no-such-id"
    identity_transform "copy" "silver" ingested_lake
  = (Raise (AssetNotFound "no-such-id"), ingested_lake).
Proof.
  apply (transform_missing_source (pd := byte_frames) (dg := hex_digest)).
  decide_by_computation.
Defined.

Lemma ingest_is_not_atomic_witness :
  (ingest_data (pd := byte_frames) (dg := hex_digest) sample_manager sample_data
     "t1" "data_team" "Sample table" None "platinum" fresh_lake
   = (Raise (InvalidZone "platinum"), fresh_lake)) ∧
  (∃ e w2,
     ingest_stored (pd := byte_frames) (dg := hex_digest) sample_manager sample_data
       "t1" "data_team" "Sample table" None "data_lake/raw/t1/gone.parquet" fresh_lake
     = (Raise e, w2) ∧
     data_assets (db w2) = data_assets (db fresh_lake)) ∧
  (ingest_data (pd := byte_frames) (dg := hex_digest) sample_manager sample_data
     "t1" "data_team" "Sample table" None "raw" locked_lake
   = (Ok (asset_id orphan_asset), tick stored_locked_lake) ∧
   ∃ f, files (fs (tick stored_locked_lake)) !! orphan_path = Some f ∧
        content f = sample_data).
Proof.
  split; [|split].
  - apply (proj1 (ingest_is_not_atomic (pd := byte_frames) (dg := hex_digest)
                    sample_manager sample_data "t1" "data_team" "Sample table" None
                    "platinum" fresh_lake)).
    by_computation.
  - apply (proj1 (proj2 (proj2 (ingest_is_not_atomic (pd := byte_frames) (dg := hex_digest)
                    sample_manager sample_data "t1" "data_team" "Sample table" None
                    "raw" fresh_lake)))).
    intros fi. vm_compute. discriminate.
  - destruct (proj2 (proj2 (proj2 (ingest_is_not_atomic (pd := byte_frames)
                    (dg := hex_digest) sample_manager sample_data "t1" "data_team"
                    "Sample table" None "raw" locked_lake)))
                orphan_path stored_locked_lake orphan_asset (tick stored_locked_lake))
      as (Hi & _ & Hf).
    + by_computation.
    + by_computation.
    + by_computation.
    + split; [exact Hi|exact Hf].
Defined.

(** C5, as stated, fails: the asset tagged abc is returned for the tag ABC,
    which is not a substring of its serialized tag field. *)
Lemma search_tag_not_a_substring :
  ∃ found,
    search_assets EmptyString (Some ["ABC"]) sample_catalog = (Ok found, sample_catalog) ∧
    sample_asset ∈ found ∧
    Str.contains "ABC" (row_tags (row_of_asset sample_asset)) = false.
Proof.
  exists [sample_asset]. split; [by_computation|]. split; [|by_computation].
  apply list_elem_of_singleton. reflexivity.
Qed.

Lemma search_by_tags_witness :
  ∃ found,
    search_assets EmptyString (Some ["ab"; "b_"]) sample_catalog = (Ok found, sample_catalog) ∧
    sample_asset ∈ found.
Proof.
  destruct (search_by_tags ["ab"; "b_"] sample_catalog [sample_asset])
    as (_ & Hfew & _); [by_computation|].
  destruct Hfew as (found & Hs & Hiff & _).
  - cbn [length]. lia.
  - intros t Ht. apply elem_of_cons in Ht as [->|Ht]; [by_computation|].
    apply list_elem_of_singleton in Ht as ->. by_computation.
  - exists found. split; [exact Hs|]. apply Hiff.
    exists (row_of_asset sample_asset). split; [|split].
    + assert (data_assets (db sample_catalog) = [row_of_asset sample_asset]) as ->
        by by_computation.
      apply list_elem_of_singleton. reflexivity.
    + by_computation.
    + intros t Ht. apply elem_of_cons in Ht as [->|Ht]; [by_computation|].
      apply list_elem_of_singleton in Ht as ->. by_computation.
Defined.

Lemma store_invalid_zone_witness :
  store_data (pd := byte_frames) (storage_at "data_lake") sample_data "platinum" "t1"
    "parquet" fresh_lake
  = (Raise (InvalidZone "platinum"), fresh_lake).
Proof.
  apply (store_invalid_zone (pd := byte_frames)). decide_by_computation.
Defined.

Lemma add_lineage_appends_witness :
  ∃ w' e,
    add_lineage "ghost-source" "ghost-target" "clean" fresh_lake = (Ok tt, w') ∧
    lineage (db w') = lineage (db fresh_lake) ++ [e] ∧
    source_asset_id e = "ghost-source" ∧ target_asset_id e = "ghost-target" ∧
    transformation e = "clean" ∧
    edge_created_at e = DateTime.isoformat (clock fresh_lake (ticks fresh_lake)) ∧
    data_assets (db w') = data_assets (db fresh_lake) ∧ fs w' = fs fresh_lake.
Proof.
  apply (add_lineage_appends "ghost-source" "ghost-target" "clean" fresh_lake).
  by_computation.
Defined.

(** C8, as stated, fails.  A dataset name that begins with a separator
    takes the place of the zone directory: the ingestion into raw succeeds
    and is catalogued, under a path that contains no zone name, and the
    summary counts no asset for raw.  And against a database that refuses
    writes an ingestion into raw returns, yet no zone counts an asset. *)
Lemma ingest_outside_zone_not_counted :
  manager_init "data_lake" (empty_world sample_clock) = (Ok sample_manager, fresh_lake) ∧
  (ingest_data (pd := byte_frames) (dg := hex_digest) sample_manager sample_data
     "/x" "data_team" "Sample table" None "raw" fresh_lake
   = (Ok absolute_id, absolute_lake) ∧
   (∃ a, get_asset absolute_id absolute_lake = (Ok (Some a), absolute_lake) ∧
         path a = "/x_20240101_000000.parquet" ∧
         Str.contains "bronze" (path a) = false ∧
         Str.contains "silver" (path a) = false ∧
         Str.contains "gold" (path a) = false) ∧
   ∃ l, get_zone_summary sample_manager absolute_lake = (Ok l, absolute_lake) ∧
        asset_counts l = [("raw", 0); ("bronze", 0); ("silver", 0); ("gold", 0)]%nat) ∧
  (ingest_data (pd := byte_frames) (dg := hex_digest) sample_manager sample_data
     "t1" "data_team" "Sample table" None "raw" locked_lake
   = (Ok (asset_id orphan_asset), tick stored_locked_lake) ∧
   ∃ l, get_zone_summary sample_manager (tick stored_locked_lake)
        = (Ok l, tick stored_locked_lake) ∧
        asset_counts l = [("raw", 0); ("bronze", 0); ("silver", 0); ("gold", 0)]%nat).
Proof.
  split; [by_computation|]. split; [split; [by_computation|split]|split; [by_computation|]].
  - eexists. repeat (split; [by_computation|]). by_computation.
  - eexists. split; by_computation.
  - eexists. split; by_computation.
Qed.

Lemma zone_summary_after_one_ingest_witness :
  ∃ raw_s bronze_s silver_s gold_s,
    get_zone_summary sample_manager ingested_lake =
      (Ok [("raw", raw_s); ("bronze", bronze_s); ("silver", silver_s); ("gold", gold_s)],
       ingested_lake) ∧
    (1 ≤ asset_count raw_s)%nat ∧
    asset_count bronze_s = 0%nat ∧ asset_count silver_s = 0%nat ∧
    asset_count gold_s = 0%nat.
Proof.
  apply (zone_summary_after_one_ingest (pd := byte_frames) (dg := hex_digest)
           "data_lake" sample_clock sample_data "t1" "data_team" "Sample table"
           (Some ["a"; "b"]) sample_manager fresh_lake ingested_id ingested_lake
           ingested_asset); by_computation.
Defined.

(** C9, as stated, fails.  The identifier is made of the dataset name and
    the reading of the clock, so it need not be new: after an ingestion
    that was catalogued, a second one of the same name at the same reading,
    whose registration the database refuses, returns the identifier of the
    row of the first. *)
Lemma failed_registration_returns_known_id :
  ingest_data (pd := byte_frames) (dg := hex_digest) sample_manager sample_data
    "t1" "data_team" "First" None "raw" frozen_lake
  = (Ok frozen_id, (first_ingest frozen_lake).2) ∧
  ∃ w1 a w2 older,
    store_data (pd := byte_frames) (storage sample_manager) other_data "raw" "t1" "parquet"
      relocked_lake = (Ok "data_lake/raw/t1/t1_20240101_000000.parquet", w1) ∧
    synthesize_asset (pd := byte_frames) (dg := hex_digest) sample_manager other_data
      "t1" "data_team" "Second" None "data_lake/raw/t1/t1_20240101_000000.parquet" w1
    = (Ok a, w2) ∧
    (register_asset a w2).1 = Ok false ∧
    ingest_data (pd := byte_frames) (dg := hex_digest) sample_manager other_data
      "t1" "data_team" "Second" None "raw" relocked_lake
    = (Ok frozen_id, w2) ∧
    get_asset frozen_id w2 = (Ok (Some older), w2) ∧
    description older = "First".
Proof.
  split; [by_computation|].
  eexists _, _, _, _. repeat (split; [by_computation|]). by_computation.
Qed.

Lemma ingest_ignores_failed_registration_witness :
  ingest_data (pd := byte_frames) (dg := hex_digest) sample_manager sample_data
    "t1" "data_team" "Sample table" None "raw" locked_lake
  = (Ok (asset_id orphan_asset), tick stored_locked_lake) ∧
  asset_ids (tick stored_locked_lake) = asset_ids locked_lake ∧
  get_asset (asset_id orphan_asset) (tick stored_locked_lake)
  = (Ok None, tick stored_locked_lake).
Proof.
  destruct (ingest_ignores_failed_registration (pd := byte_frames) (dg := hex_digest)
              sample_manager sample_data "t1" "data_team" "Sample table" None "raw"
              locked_lake orphan_path stored_locked_lake orphan_asset
              (tick stored_locked_lake))
    as (Hi & Hids & Hget & _).
  - by_computation.
  - by_computation.
  - by_computation.
  - split; [exact Hi|]. split; [exact Hids|]. apply Hget. decide_by_computation.
Defined.


(** * Further properties of the code *)

Lemma filter_other_ids_idem (r : Row) rows :
  filter (fun r' => row_asset_id r' ≠ row_asset_id r)
    (filter (fun r' => row_asset_id r' ≠ row_asset_id r) rows ++ [r])
  = filter (fun r' => row_asset_id r' ≠ row_asset_id r) rows.
Proof.
  rewrite filter_app, filter_cons_False, filter_nil, app_nil_r by (intros Hne; by apply Hne).
  induction rows as [|x rows IH]; [done|].
  rewrite filter_cons. destruct (decide (row_asset_id x ≠ row_asset_id r)).
  - rewrite filter_cons_True by done. by rewrite IH.
  - done.
Qed.

Lemma insert_or_replace_idem r rows :
  insert_or_replace r (insert_or_replace r rows) = insert_or_replace r rows.
Proof. unfold insert_or_replace. by rewrite filter_other_ids_idem. Qed.

Section CatalogInvariants.
Context {pd : Pandas} {dg : Digest}.

(** X1: registering the same asset twice in a row gives the same result and
    the same world as registering it once. *)
Theorem register_asset_idempotent a w :
  (register_asset a ≫= λ _, register_asset a) w = register_asset a w.
Proof.
  unfold mbind, M_bind. rewrite !register_asset_eq.
  destruct (writable (db w) && Sqlite.fits_int64 (size_bytes a)) eqn:E.
  - rewrite register_asset_eq. cbn [db writable data_assets lineage fs clock ticks].
    rewrite E. by rewrite insert_or_replace_idem.
  - rewrite register_asset_eq. by rewrite E.
Qed.

Lemma insert_or_replace_ids r rows :
  row_asset_id <$> insert_or_replace r rows
  = filter (fun i => i ≠ row_asset_id r) (row_asset_id <$> rows) ++ [row_asset_id r].
Proof.
  unfold insert_or_replace. rewrite fmap_app. f_equal.
  induction rows as [|x rows IH]; [done|].
  rewrite fmap_cons, !filter_cons.
  destruct (decide (row_asset_id x ≠ row_asset_id r)); [rewrite fmap_cons|]; by rewrite IH.
Qed.

Lemma insert_or_replace_nodup r rows :
  NoDup (row_asset_id <$> rows) → NoDup (row_asset_id <$> insert_or_replace r rows).
Proof.
  intros Hnd. rewrite insert_or_replace_ids. apply NoDup_app. split; [|split].
  - by apply NoDup_filter.
  - intros i [Hi _]%list_elem_of_filter ->%list_elem_of_singleton. done.
  - apply NoDup_singleton.
Qed.

Lemma keeps_db_preserves {A} (P : Database → Prop) (m : M A) :
  preserves_db m → keeps_db P m.
Proof. intros Hm w r w' HP E. by rewrite (Hm _ _ _ E). Qed.

Lemma keeps_db_bind {A B} (P : Database → Prop) (m : M A) (f : A → M B) :
  keeps_db P m → (∀ a, keeps_db P (f a)) → keeps_db P (m ≫= f).
Proof.
  intros Hm Hf w r w' HP. unfold mbind, M_bind.
  destruct (m w) as [[a|e] w1] eqn:E.
  - intros E2. exact (Hf a _ _ _ (Hm _ _ _ HP E) E2).
  - intros [= <- <-]. exact (Hm _ _ _ HP E).
Qed.

Lemma preserves_db_read_only {A} (m : M A) : read_only m → preserves_db m.
Proof. intros Hm w r w' E. by rewrite (Hm _ _ _ E). Qed.

Lemma preserves_db_synthesize self data name_ owner_ description_ tgs p :
  preserves_db (synthesize_asset self data name_ owner_ description_ tgs p).
Proof. intros w r w' E. by apply synthesize_asset_db in E as [? _]. Qed.

Lemma keeps_distinct_register a :
  keeps_db (λ d, NoDup (row_asset_id <$> data_assets d)) (register_asset a).
Proof.
  intros w r w' Hnd. rewrite register_asset_eq.
  destruct (writable (db w) && Sqlite.fits_int64 (size_bytes a)); intros [= <- <-]; [|done].
  cbn. by apply insert_or_replace_nodup.
Qed.

Lemma keeps_db_ingest_data (P : Database → Prop) self data name_ owner_ description_ tgs zone :
  (∀ a, keeps_db P (register_asset a)) →
  keeps_db P (ingest_data self data name_ owner_ description_ tgs zone).
Proof.
  intros Hreg. unfold ingest_data.
  apply keeps_db_bind; [apply keeps_db_preserves, store_data_db|intros p].
  unfold ingest_stored.
  apply keeps_db_bind; [apply keeps_db_preserves, preserves_db_synthesize|intros a].
  apply keeps_db_bind; [apply Hreg|intros _]. apply keeps_db_preserves, preserves_db_ret.
Qed.

Lemma keeps_db_transform_data (P : Database → Prop) self sid f tn tz :
  (∀ a, keeps_db P (register_asset a)) →
  (∀ s t l, keeps_db P (add_lineage s t l)) →
  keeps_db P (transform_data self sid f tn tz).
Proof.
  intros Hreg Hlin. unfold transform_data.
  apply keeps_db_bind;
    [apply keeps_db_preserves, preserves_db_read_only, read_only_get_asset|intros [src|]].
  2:{ apply keeps_db_preserves, preserves_db_raise. }
  apply keeps_db_bind;
    [apply keeps_db_preserves, preserves_db_read_only, read_only_load_data|intros sd].
  apply keeps_db_bind; [by apply keeps_db_ingest_data|intros tid].
  apply keeps_db_bind; [apply Hlin|intros _]. apply keeps_db_preserves, preserves_db_ret.
Qed.

Lemma keeps_distinct_add_lineage s t l :
  keeps_db (λ d, NoDup (row_asset_id <$> data_assets d)) (add_lineage s t l).
Proof.
  intros w r w' Hnd E. apply add_lineage_data_assets in E as [-> _]. done.
Qed.

(** X2: [asset_id] is a primary key.  When the identifiers in the table of
    assets are pairwise distinct, they still are after [register_asset],
    after [ingest_data] and after [transform_data], whatever these return. *)
Theorem asset_ids_stay_distinct
    self data name_ owner_ description_ tgs zone a source f target_name target_zone w :
  NoDup (asset_ids w) →
  (∀ r w', register_asset a w = (r, w') → NoDup (asset_ids w')) ∧
  (∀ r w', ingest_data self data name_ owner_ description_ tgs zone w = (r, w') →
           NoDup (asset_ids w')) ∧
  (∀ r w', transform_data self source f target_name target_zone w = (r, w') →
           NoDup (asset_ids w')).
Proof.
  intros Hnd. split; [|split]; intros r w' E.
  - exact (keeps_distinct_register a _ _ _ Hnd E).
  - exact (keeps_db_ingest_data _ _ _ _ _ _ _ _ keeps_distinct_register _ _ _ Hnd E).
  - exact (keeps_db_transform_data _ _ _ _ _ _ keeps_distinct_register
             keeps_distinct_add_lineage _ _ _ Hnd E).
Qed.

Lemma fetch_by_id_insert_other r rows id :
  id ≠ row_asset_id r →
  fetch_by_id id (insert_or_replace r rows) = fetch_by_id id rows.
Proof.
  intros Hne. unfold fetch_by_id, insert_or_replace.
  induction rows as [|x rows IH].
  - cbn. apply String.eqb_neq in Hne. by rewrite String.eqb_sym, Hne.
  - rewrite filter_cons. cbn [List.find].
    destruct (String.eqb_spec (row_asset_id x) id) as [Hx|Hx].
    + rewrite decide_True by congruence. cbn [app List.find].
      apply String.eqb_eq in Hx. by rewrite Hx.
    + destruct (decide (row_asset_id x ≠ row_asset_id r)); [|done].
      cbn [app List.find]. apply String.eqb_neq in Hx. by rewrite Hx.
Qed.

(** X3: [register_asset] touches the row of its own identifier only: for
    every other identifier [get_asset] answers after it as it did before. *)
Theorem register_asset_keeps_other_assets a w r w' id :
  register_asset a w = (r, w') →
  id ≠ asset_id a →
  (get_asset id w').1 = (get_asset id w).1.
Proof.
  rewrite register_asset_eq. intros E Hne.
  destruct (writable (db w) && Sqlite.fits_int64 (size_bytes a)); injection E as <- <-;
    [|done].
  unfold get_asset, mbind, M_bind, get_world. cbn [db data_assets].
  rewrite fetch_by_id_insert_other by exact Hne.
  destruct (fetch_by_id id (data_assets (db w))) as [row|]; [|done].
  unfold lift. by destruct (asset_of_row row).
Qed.

Lemma asset_of_row_id r a : asset_of_row r = Ok a → asset_id a = row_asset_id r.
Proof.
  unfold asset_of_row. repeat case_match; try done. by intros [= <-].
Qed.

Lemma assets_of_rows_ids rows : ∀ all,
  assets_of_rows rows = Ok all → asset_id <$> all = row_asset_id <$> rows.
Proof.
  induction rows as [|r rows IH]; intros all; [by intros [= <-]|].
  rewrite assets_of_rows_cons.
  destruct (asset_of_row r) as [a|] eqn:Ea; [|done].
  destruct (assets_of_rows rows) as [l|]; [|done]. intros [= <-].
  rewrite !fmap_cons, (IH l eq_refl). by rewrite (asset_of_row_id _ _ Ea).
Qed.

Lemma search_assets_no_tags w :
  search_assets EmptyString (Some []) w = (assets_of_rows (data_assets (db w)), w).
Proof.
  unfold search_assets. unfold_M.
  change (Sqlite.max_expr_depth <? where_depth EmptyString (Some [])) with false.
  cbv iota. by rewrite select_all.
Qed.

(** X4: on a catalog whose rows all read back, [search_assets] without
    query and without tags (no list, or the empty list) returns all assets,
    one for each row and in row order; if the identifiers are distinct, no
    asset comes twice. *)
Theorem search_assets_returns_everything w all :
  assets_of_rows (data_assets (db w)) = Ok all →
  search_assets EmptyString None w = (Ok all, w) ∧
  search_assets EmptyString (Some []) w = (Ok all, w) ∧
  asset_id <$> all = asset_ids w ∧
  (NoDup (asset_ids w) → NoDup all).
Proof.
  intros Hall. rewrite search_assets_all, search_assets_no_tags, Hall.
  split; [done|]. split; [done|].
  pose proof (assets_of_rows_ids _ _ Hall) as Hids. split; [done|].
  intros Hnd. apply (NoDup_fmap_1 asset_id). by rewrite Hids.
Qed.

(** X5: on a catalog whose rows all read back, [search_assets] with a
    non-empty query of at most 50000 bytes with its two [%] returns an
    asset exactly when the query, between two [%], matches its name or its
    description under LIKE, which reads the query and the field up to their
    first NUL; an asset whose name or description, as LIKE reads it,
    contains the query is always returned.  With a longer query it raises
    [OperationalError] as soon as the catalog has a row. *)
Theorem search_by_query q w all :
  q ≠ EmptyString →
  assets_of_rows (data_assets (db w)) = Ok all →
  (Sqlite.pattern_fits (Sqlite.anywhere q) = false → data_assets (db w) ≠ [] →
   search_assets q None w = (Raise OperationalError, w)) ∧
  (Sqlite.pattern_fits (Sqlite.anywhere q) = true →
   ∃ found,
     search_assets q None w = (Ok found, w) ∧
     (∀ a, a ∈ found ↔
        ∃ r, r ∈ data_assets (db w) ∧ asset_of_row r = Ok a ∧
             (Sqlite.like (Sqlite.anywhere q) (row_name r) = Some true ∨
              Sqlite.like (Sqlite.anywhere q) (row_description r) = Some true)) ∧
     (∀ r a, r ∈ data_assets (db w) → asset_of_row r = Ok a →
        Str.contains q (Sqlite.c_str (name a)) = true ∨
        Str.contains q (Sqlite.c_str (description a)) = true →
        a ∈ found)).
Proof.
  intros Hq Hall.
  assert ((Sqlite.max_expr_depth <? where_depth q None) = false) as Hdepth.
  { by destruct q. }
  split.
  - intros Hfit Hrows. unfold search_assets. unfold_M. rewrite Hdepth.
    destruct (data_assets (db w)) as [|r rows]; [done|].
    cbn [select]. by rewrite matches_query_fails.
  - intros Hfit.
    destruct (assets_of_rows_filter (λ r, matches q None r = Some true) _ _ Hall)
      as [found Hfound].
    assert (∀ a, a ∈ found ↔
         ∃ r, r ∈ data_assets (db w) ∧ asset_of_row r = Ok a ∧
              (Sqlite.like (Sqlite.anywhere q) (row_name r) = Some true ∨
               Sqlite.like (Sqlite.anywhere q) (row_description r) = Some true)) as Hiff.
    { intros a. rewrite (assets_of_rows_elem _ _ Hfound a).
      setoid_rewrite list_elem_of_filter. setoid_rewrite (matches_query q _ Hq).
      naive_solver. }
    exists found. split; [|split; [done|]].
    + unfold search_assets. unfold_M. rewrite Hdepth.
      rewrite select_filter by (intros r _; by apply matches_query_total).
      by rewrite Hfound.
    + intros r a Hr Ha Hsub. apply Hiff. exists r. split; [done|]. split; [done|].
      assert (name a = row_name r ∧ description a = row_description r) as [Hn Hd].
      { revert Ha. unfold asset_of_row. repeat case_match; try done. by intros [= <-]. }
      rewrite Hn, Hd in Hsub.
      destruct Hsub as [Hs|Hs]; [left|right]; by apply like_of_contains.
Qed.

End CatalogInvariants.

Lemma union_singleton_elem (X : gset string) p : p ∈ X → X ∪ {[ p ]} = X.
Proof.
  intros Hp. rewrite (comm_L (∪)). apply subseteq_union_1_L. by apply singleton_subseteq_l.
Qed.

Section ZoneStoreExtras.
Context {pd : Pandas} {dg : Digest}.


(** X10: the file name carries the time to the second.  When two calls of
    [store_data] for the same dataset, zone and format read the same stamp
    from the clock, they return the same path, the second call adds no file
    and the file holds the data of the second call. *)
Theorem store_same_second_overwrites self d1 d2 zone n fmt w p1 w1 p2 w2 :
  store_data self d1 zone n fmt w = (Ok p1, w1) →
  store_data self d2 zone n fmt w1 = (Ok p2, w2) →
  DateTime.strftime_stamp (clock w (S (S (ticks w)))) =
  DateTime.strftime_stamp (clock w (ticks w)) →
  p2 = p1 ∧
  dom (files (fs w2)) = dom (files (fs w1)) ∧
  ∃ f, files (fs w2) !! p1 = Some f ∧ content f = encoding_of fmt d2.
Proof.
  intros H1 H2 Hstamp.
  apply store_data_ok in H1 as (zp1 & b1 & Hz1 & Hp1 & _ & Hf1 & _ & _ & Hc1 & Ht1).
  apply store_data_ok in H2 as (zp2 & b2 & Hz2 & Hp2 & Hb2 & Hf2 & _).
  rewrite Hz1 in Hz2. injection Hz2 as <-.
  rewrite Hc1, Ht1 in Hp2.
  assert (p2 = p1) as ->.
  { rewrite Hp1, Hp2. unfold file_path_of. by rewrite Hstamp. }
  split; [done|]. split.
  - rewrite Hf2, Hf1, !dom_insert_L. set_solver.
  - eexists. rewrite Hf2. split; [apply lookup_insert_eq|]. cbn.
    by apply encoding_of_cases.
Qed.

(** X11: [get_file_info] on the path that [store_data] returned gives the
    length of the encoding as size, the time of the write as both time
    stamps and the MD5 digest of the encoding as checksum. *)
Theorem file_info_after_store self data zone n fmt w p w' :
  store_data self data zone n fmt w = (Ok p, w') →
  get_file_info self p w' =
  (Ok (Some {| info_size_bytes := Z.of_nat (length (encoding_of fmt data));
               info_created_at := clock w (S (ticks w));
               info_modified_at := clock w (S (ticks w));
               info_checksum := md5_hexdigest (encoding_of fmt data) |}), w').
Proof.
  intros Hs. apply store_data_ok in Hs as (zp & b & _ & _ & Hb & Hf & _).
  apply encoding_of_cases in Hb as ->.
  erewrite get_file_info_file; [|rewrite Hf; apply lookup_insert_eq]. done.
Qed.

(** X12: after [store_data] has stored a dataset whose name is one path
    component (no separator, not empty, neither [.] nor [..]) in a zone
    whose directory exists, [list_datasets] for that zone returns normally
    and lists the name. *)
Theorem list_datasets_after_store base data zone n fmt w p w' :
  store_data (storage_at base) data zone n fmt w = (Ok p, w') →
  is_component n = true →
  n ≠ ".." →
  path_join base zone ∈ dirs (fs w) →
  ∃ ds, list_datasets (storage_at base) zone w' = (Ok ds, w') ∧ n ∈ ds.
Proof.
  intros Hs Hn _ Hdir.
  apply store_data_ok in Hs as (zp & b & Hz & _ & _ & _ & Hd & _).
  pose proof Hz as Hz'. rewrite zone_lookup_storage in Hz'.
  destruct (bool_decide (zone ∈ zone_names)); [|done]. injection Hz' as <-.
  unfold list_datasets. rewrite Hz. unfold_M.
  rewrite bool_decide_eq_true_2 by (rewrite Hd; by apply elem_of_union_l).
  eexists. split; [reflexivity|].
  apply list_elem_of_fmap. exists (path_join (path_join base zone) n).
  split; [by rewrite path_name_join|].
  apply list_elem_of_filter. split.
  - by apply path_parent_join.
  - apply elem_of_elements. rewrite Hd. apply elem_of_union_r. by apply elem_of_singleton.
Qed.

(** X13: [list_datasets] is permissive where [store_data] is not: for a
    zone that is not one of the four it returns the empty list, while
    [store_data] raises for every data, name and format. *)
Theorem list_datasets_unknown_zone base zone w :
  zone ∉ zone_names →
  list_datasets (storage_at base) zone w = (Ok [], w) ∧
  ∀ data n fmt, ∃ e, (store_data (storage_at base) data zone n fmt w).1 = Raise e.
Proof.
  intros Hz. split.
  - unfold list_datasets. by rewrite zone_lookup_storage, bool_decide_eq_false_2.
  - intros data n fmt. unfold store_data.
    rewrite zone_lookup_storage, bool_decide_eq_false_2 by done. by eexists.
Qed.

Lemma rpartition_leading_dot ext :
  Str.contains "." ext = false →
  Str.rpartition Str.dot (String Str.dot ext) = Some (EmptyString, ext).
Proof.
  intros Hd. change (String Str.dot ext) with (EmptyString +:+ String Str.dot ext).
  by apply rpartition_last.
Qed.

(** X14: [load_data] on a path whose suffix is none of [.parquet], [.csv]
    and [.json] raises the unsupported-file-format error naming the suffix,
    without looking at the file system. *)
Theorem load_data_unsupported_suffix self p w :
  path_suffix p ∉ [".parquet"; ".csv"; ".json"] →
  load_data self p w = (Raise (UnsupportedFileFormat (path_suffix p)), w).
Proof.
  intros Hs. unfold load_data.
  assert (String.eqb (path_suffix p) ".parquet" = false ∧
          String.eqb (path_suffix p) ".csv" = false ∧
          String.eqb (path_suffix p) ".json" = false) as (E1 & E2 & E3).
  { rewrite !String.eqb_neq. set_solver. }
  by rewrite E1, E2, E3.
Qed.

Lemma path_suffix_hidden d ext :
  ext ≠ EmptyString →
  Str.contains "/" ext = false → Str.contains "." ext = false →
  path_suffix (path_join d (String Str.dot ext)) = EmptyString.
Proof.
  intros Hne Hs Hd. unfold path_suffix. rewrite path_name_join.
  - by rewrite rpartition_leading_dot.
  - apply is_component_spec. split.
    + unfold is_part. cbn [String.eqb]. rewrite Ascii.eqb_refl.
      by apply String.eqb_neq in Hne as ->.
    + change "/" with (Str.of_char Str.slash) in *. rewrite contains_char_cons, Hs. done.
Qed.

(** X15: a file whose whole name is a dot and an extension, such as
    [.parquet], has no suffix for [pathlib]: for every extension that is
    not empty and has neither dot nor separator, [load_data] raises the
    unsupported-file-format error with the empty suffix. *)
Theorem load_data_hidden_file self d ext w :
  ext ≠ EmptyString →
  Str.contains "/" ext = false → Str.contains "." ext = false →
  load_data self (path_join d ("." +:+ ext)) w
  = (Raise (UnsupportedFileFormat EmptyString), w).
Proof.
  intros Hne Hs Hd. change ("." +:+ ext) with (String Str.dot ext).
  rewrite load_data_unsupported_suffix; rewrite path_suffix_hidden by done; [done|].
  set_solver.
Qed.

End ZoneStoreExtras.



Lemma next_edge_id_above es e : e ∈ es → edge_id e < next_edge_id es.
Proof.
  unfold next_edge_id. induction es as [|x es IH]; [by intros ?%elem_of_nil|].
  intros [->|He]%elem_of_cons; cbn [foldr].
  - lia.
  - specialize (IH He). lia.
Qed.

Lemma read_only_ret {A} (a : A) : read_only (mret a).
Proof. by intros w r w' [= <- <-]. Qed.

Lemma read_only_raise {A} e : read_only (@raise A e).
Proof. by intros w r w' [= <- <-]. Qed.

Lemma read_only_get_world : read_only get_world.
Proof. by intros w r w' [= <- <-]. Qed.

Lemma read_only_lift {A} (r : result A) : read_only (lift r).
Proof. by intros w r' w' [= <- <-]. Qed.

Lemma read_only_collect {A B} (f : A → M B) l :
  (∀ x, read_only (f x)) → read_only (collect f l).
Proof.
  intros Hf. induction l as [|x l IH]; cbn [collect]; [apply read_only_ret|].
  apply read_only_bind; [apply Hf|intros y].
  apply read_only_bind; [apply IH|intros ys]. apply read_only_ret.
Qed.

Section ManagerExtras.
Context {pd : Pandas} {dg : Digest}.

(** X7: the key that [add_lineage] gives to the new edge is larger than
    every key in the table, so that distinct keys stay distinct. *)
Theorem add_lineage_fresh_key source_id target_id label w w' :
  add_lineage source_id target_id label w = (Ok tt, w') →
  ∃ e,
    lineage (db w') = lineage (db w) ++ [e] ∧
    (∀ e', e' ∈ lineage (db w) → edge_id e' < edge_id e) ∧
    (NoDup (edge_ids w) → NoDup (edge_ids w')).
Proof.
  unfold add_lineage. unfold_M. cbn. destruct (writable (db w)); [|done].
  intros [= <-]. eexists. split; [reflexivity|]. cbn [edge_id].
  split; [intros e' He'; by apply next_edge_id_above|].
  unfold edge_ids. cbn. rewrite fmap_app. intros Hnd. apply NoDup_app.
  split; [done|]. split; [|apply NoDup_singleton].
  intros i (e' & Hi & He')%list_elem_of_fmap Hnew%list_elem_of_singleton.
  apply next_edge_id_above in He'. rewrite <- Hi, Hnew in He'. cbn in He'. lia.
Qed.

Lemma read_only_search_assets q tgs : read_only (search_assets q tgs).
Proof.
  unfold search_assets. apply read_only_bind; [apply read_only_get_world|intros w].
  destruct (Sqlite.max_expr_depth <? where_depth q tgs); [apply read_only_raise|].
  destruct (select _ _); [apply read_only_lift|apply read_only_raise].
Qed.

Lemma read_only_list_datasets self z : read_only (list_datasets self z).
Proof.
  unfold list_datasets. destruct (zone_lookup z (zones self)); [|apply read_only_ret].
  apply read_only_bind; [apply read_only_get_world|intros w].
  case_match; [apply read_only_ret|apply read_only_raise].
Qed.

Lemma read_only_get_file_info self p : read_only (get_file_info self p).
Proof. intros w r w' E. by apply get_file_info_world in E. Qed.

Lemma read_only_zone_summary_of self z : read_only (zone_summary_of self z).
Proof.
  unfold zone_summary_of.
  apply read_only_bind; [apply read_only_list_datasets|intros ds].
  apply read_only_bind; [apply read_only_search_assets|intros l]. apply read_only_ret.
Qed.

(** X8: [get_asset], [search_assets], [list_datasets], [get_file_info],
    [load_data] and [get_zone_summary] leave the world exactly as it was,
    whether they return or raise. *)
Theorem queries_change_nothing self id q tgs z p :
  read_only (get_asset id) ∧
  read_only (search_assets q tgs) ∧
  read_only (list_datasets (storage self) z) ∧
  read_only (get_file_info (storage self) p) ∧
  read_only (load_data (storage self) p) ∧
  read_only (get_zone_summary self).
Proof.
  split; [apply read_only_get_asset|]. split; [apply read_only_search_assets|].
  split; [apply read_only_list_datasets|]. split; [apply read_only_get_file_info|].
  split; [apply read_only_load_data|].
  unfold get_zone_summary. apply read_only_collect. intros x. apply read_only_zone_summary_of.
Qed.

Lemma keeps_lineage_register L a :
  keeps_db (λ d, lineage d = L) (register_asset a).
Proof.
  intros w r w' HL. rewrite register_asset_eq.
  by destruct (writable (db w) && Sqlite.fits_int64 (size_bytes a)); intros [= <- <-].
Qed.

(** X21: when [transform_data] raises, at whatever step, the lineage table
    is as it was. *)
Theorem transform_failure_adds_no_edge self source f target_name target_zone w e w' :
  transform_data self source f target_name target_zone w = (Raise e, w') →
  lineage (db w') = lineage (db w).
Proof.
  unfold transform_data. intros Ht.
  apply bind_raise in Ht as [Hg|(src & w1 & Hg & Ht)].
  { by apply read_only_get_asset in Hg as ->. }
  apply read_only_get_asset in Hg as ->.
  destruct src as [src|]; [|by injection Ht as _ <-].
  apply bind_raise in Ht as [Hl|(sd & w2 & Hl & Ht)].
  { by apply read_only_load_data in Hl as ->. }
  apply read_only_load_data in Hl as ->.
  assert (∀ r w3, ingest_data self (apply f sd) target_name (owner src)
                    ("Transformed from " +:+ name src) (Some (tags src ++ ["transformed"]))
                    target_zone w = (r, w3) → lineage (db w3) = lineage (db w)) as Hing.
  { intros r w3. apply (keeps_db_ingest_data (λ d, lineage d = lineage (db w))); [|done].
    intros a. apply keeps_lineage_register. }
  apply bind_raise in Ht as [Hi|(tid & w3 & Hi & Ht)]; [by apply Hing in Hi|].
  apply Hing in Hi. rewrite <- Hi.
  apply bind_raise in Ht as [Ha|(u & w4 & Ha & Ht)]; [|done].
  revert Ha. unfold add_lineage. unfold_M. cbn.
  destruct (writable (db w3)); [done|]. by intros [= _ <-].
Qed.

Lemma store_data_frame self data zone n fmt w r w' :
  store_data self data zone n fmt w = (r, w') →
  dirs (fs w) ⊆ dirs (fs w') ∧
  ∀ q, (∃ zp, zone_lookup zone (zones self) = Some zp ∧
              q = file_path_of zp n (clock w (ticks w)) fmt) ∨
       files (fs w') !! q = files (fs w) !! q.
Proof.
  unfold store_data. destruct (zone_lookup zone (zones self)) as [zp|];
    [|by intros [= <- <-]; split; [|right]].
  unfold mbind at 1. unfold M_bind at 1.
  destruct (mkdir (path_join zp n) w) as [r1 w1] eqn:E1.
  apply mkdir_inv in E1 as (_ & Hc1 & Ht1 & Hf1 & [(-> & Hd1 & _)|(-> & -> & _)]);
    [|by intros [= <- <-]; split; [|right]].
  unfold mbind at 1. unfold M_bind at 1. unfold now at 1. rewrite Hc1, Ht1.
  fold (file_path_of zp n (clock w (ticks w)) fmt).
  set (p := file_path_of zp n (clock w (ticks w)) fmt).
  match goal with
  | |- context [{| fs := ?a; db := ?b; clock := ?c; ticks := ?d |}] =>
      set (w2 := {| fs := a; db := b; clock := c; ticks := d |})
  end.
  assert (∀ b, (write_file p b ≫= λ _, mret p) w2 = (r, w') →
     dirs (fs w) ⊆ dirs (fs w') ∧
     ∀ q, (∃ zp0, Some zp = Some zp0 ∧ q = file_path_of zp0 n (clock w (ticks w)) fmt) ∨
          files (fs w') !! q = files (fs w) !! q) as Hwr.
  { intros b. unfold mbind, M_bind. destruct (write_file p b w2) as [r3 w3] eqn:E3.
    apply write_file_inv in E3 as (_ & _ & Hd3 & [(-> & _ & _ & Hf3)|(-> & -> & _)]).
    - intros [= <- <-]. subst w2. cbn in *. rewrite Hd3, Hd1, Hf3, Hf1. split; [set_solver|].
      intros q. destruct (decide (q = p)) as [->|Hq]; [left; eauto|right].
      by rewrite lookup_insert_ne.
    - intros [= <- <-]. subst w2. cbn. rewrite Hd1, Hf1. split; [set_solver|by right]. }
  repeat (case_match; [apply Hwr|]).
  unfold mbind, M_bind, raise. intros [= <- <-]. subst w2. cbn. rewrite Hd1, Hf1.
  split; [set_solver|by right].
Qed.

Lemma ingest_tail_fs self data name_ owner_ description_ tgs p w r w' :
  ingest_stored self data name_ owner_ description_ tgs p w = (r, w') →
  fs w' = fs w ∧ lineage (db w') = lineage (db w) ∧
  (data_assets (db w') = data_assets (db w) ∨
   ∃ a, r = Ok (asset_id a) ∧
        data_assets (db w') = insert_or_replace (row_of_asset a) (data_assets (db w))).
Proof.
  unfold ingest_stored. unfold mbind at 1. unfold M_bind at 1.
  destruct (synthesize_asset _ _ _ _ _ _ _ w) as [ra w1] eqn:Ea.
  apply synthesize_asset_db in Ea as [Hdb Hfs].
  destruct ra as [a|e]; [|intros [= <- <-]; rewrite Hdb, Hfs; by repeat split; try left].
  unfold mbind, M_bind. rewrite register_asset_eq.
  destruct (writable (db w1) && Sqlite.fits_int64 (size_bytes a)); intros [= <- <-]; cbn;
    rewrite ?Hdb, ?Hfs.
  - split; [done|]. split; [done|]. right. by exists a.
  - split; [done|]. split; [done|]. by left.
Qed.

(** X17: whatever [ingest_data] returns, every directory is still there,
    every file other than the one it writes is unchanged, the lineage table
    is unchanged, and every row of the catalog is kept except a row that
    has the identifier it returns. *)
Theorem ingest_only_adds self data name_ owner_ description_ tgs zone w r w' :
  ingest_data self data name_ owner_ description_ tgs zone w = (r, w') →
  dirs (fs w) ⊆ dirs (fs w') ∧
  (∀ q, (∃ zp, zone_lookup zone (zones (storage self)) = Some zp ∧
               q = file_path_of zp name_ (clock w (ticks w)) "parquet") ∨
        files (fs w') !! q = files (fs w) !! q) ∧
  lineage (db w') = lineage (db w) ∧
  (∀ row, row ∈ data_assets (db w) → r ≠ Ok (row_asset_id row) →
          row ∈ data_assets (db w')).
Proof.
  unfold ingest_data. unfold mbind, M_bind.
  destruct (store_data _ _ _ _ _ w) as [rs w1] eqn:Es.
  pose proof (store_data_db _ _ _ _ _ _ _ _ Es) as Hdb.
  apply store_data_frame in Es as [Hd Hf].
  destruct rs as [p|e]; [|intros [= <- <-]; rewrite Hdb; by repeat split].
  intros Ei. apply ingest_tail_fs in Ei as (Hfs & Hl & Hrows).
  rewrite Hfs, Hl, Hdb. split; [done|]. split; [done|]. split; [done|].
  intros row Hrow Hne. destruct Hrows as [->|(a & -> & ->)]; [by rewrite Hdb|].
  unfold insert_or_replace. apply elem_of_app. left. apply list_elem_of_filter.
  rewrite Hdb. split; [|done]. cbn. intros Heq. apply Hne. by rewrite Heq.
Qed.

End ManagerExtras.

Section IngestExtras.
Context {pd : Pandas} {dg : Digest}.

(** The asset [ingest_data] synthesizes, spelled out. *)
Lemma ingest_data_asset self data name_ owner_ description_ tgs zone w id w' :
  ingest_data self data name_ owner_ description_ tgs zone w = (Ok id, w') →
  ∃ zp w1,
    zone_lookup zone (zones (storage self)) = Some zp ∧
    db w1 = db w ∧
    id = md5_hexdigest
           (Str.encode (name_ +:+ "_" +:+ DateTime.to_str (clock w (S (S (ticks w)))))) ∧
    w' = (register_asset
            {| asset_id := id;
               name := name_;
               path := file_path_of zp name_ (clock w (ticks w)) "parquet";
               format := "parquet";
               size_bytes := Z.of_nat (length (to_parquet data));
               created_at := clock w (S (ticks w));
               updated_at := clock w (S (ticks w));
               schema := schema_of data;
               tags := tags_or_empty tgs;
               owner := owner_;
               description := description_;
               checksum := md5_hexdigest (to_parquet data) |} (tick w1)).2.
Proof.
  intros Hi.
  apply ingest_data_ok in Hi as (zp & p & w1 & a & Hz & Hp & Hs & Ha & -> & Hpa & Hfa & Hsz & ->).
  pose proof (store_data_db _ _ _ _ _ _ _ _ Hs) as Hdb.
  apply store_data_ok in Hs as (zp' & b & Hz' & _ & Hb & Hf & _ & _ & Hc & Ht).
  destruct Hb as [[_ ->]|[[? _]|[? _]]]; [|discriminate..].
  rewrite Hz in Hz'. injection Hz' as <-. subst p.
  erewrite synthesize_asset_file in Ha; [|rewrite Hf; apply lookup_insert_eq].
  injection Ha as <-. cbn [asset_id content st_ctime st_mtime].
  exists zp, w1. split; [done|]. split; [done|]. rewrite Hc, Ht. split; [done|].
  cbn [format] in Hfa. rewrite Hfa.
  unfold calculate_checksum. reflexivity.
Qed.

(** X18: when the database accepts the write, the size fits an INTEGER and
    the time of the write is a valid time stamp, [get_asset] on the
    identifier that [ingest_data] returned gives the asset with the name,
    owner, description and tags passed in ([tags or []]), the schema of the
    data, the format parquet, the written path, the size and MD5 digest of
    the encoding; the identifier is the MD5 digest of the name, an underscore
    and the clock's reading. *)
Theorem get_asset_after_ingest self data name_ owner_ description_ tgs zone w id w' :
  ingest_data self data name_ owner_ description_ tgs zone w = (Ok id, w') →
  writable (db w) = true →
  Sqlite.fits_int64 (Z.of_nat (length (to_parquet data))) = true →
  DateTime.valid (clock w (S (ticks w))) = true →
  ∃ zp,
    zone_lookup zone (zones (storage self)) = Some zp ∧
    id = md5_hexdigest
           (Str.encode (name_ +:+ "_" +:+ DateTime.to_str (clock w (S (S (ticks w)))))) ∧
    get_asset id w' =
    (Ok (Some {| asset_id := id;
                 name := name_;
                 path := file_path_of zp name_ (clock w (ticks w)) "parquet";
                 format := "parquet";
                 size_bytes := Z.of_nat (length (to_parquet data));
                 created_at := clock w (S (ticks w));
                 updated_at := clock w (S (ticks w));
                 schema := schema_of data;
                 tags := tags_or_empty tgs;
                 owner := owner_;
                 description := description_;
                 checksum := md5_hexdigest (to_parquet data) |}), w').
Proof.
  intros Hi Hw Hfit Hv.
  apply ingest_data_asset in Hi as (zp & w1 & Hz & Hdb & Hid & ->).
  exists zp. split; [done|]. split; [done|].
  match goal with |- context [register_asset ?a _] => set (a0 := a) end.
  rewrite register_asset_eq. cbn [tick db]. rewrite Hdb, Hw. cbn [size_bytes a0 andb].
  rewrite Hfit. cbn [snd].
  erewrite get_asset_row; [|apply (fetch_by_id_insert (row_of_asset a0))].
  by rewrite asset_of_row_of_asset.
Qed.

(** X20: when [transform_data] returns, the source was in the catalog,
    exactly one edge has been appended, from the source to the returned
    identifier and labelled with the name of the function (or
    [custom_transform]), and every row added to the catalog has that
    identifier, the target name, the owner of the source, the description
    [Transformed from <source name>] and the tags of the source followed by
    [transformed]. *)
Theorem transform_records_lineage self source f target_name target_zone w id w' :
  transform_data self source f target_name target_zone w = (Ok id, w') →
  ∃ src e,
    get_asset source w = (Ok (Some src), w) ∧
    lineage (db w') = lineage (db w) ++ [e] ∧
    source_asset_id e = source ∧ target_asset_id e = id ∧
    transformation e = label_of f ∧
    (∀ row, row ∈ data_assets (db w') →
       row ∈ data_assets (db w) ∨
       (row_asset_id row = id ∧ row_name row = target_name ∧
        row_owner row = owner src ∧
        row_description row = "Transformed from " +:+ name src ∧
        row_tags row = Json.dumps_list (tags src ++ ["transformed"]))).
Proof.
  unfold transform_data. intros Ht.
  apply bind_ok in Ht as (src & w1 & Hg & Ht).
  pose proof (read_only_get_asset _ _ _ _ Hg) as ->.
  destruct src as [src|]; [|done].
  apply bind_ok in Ht as (sd & w2 & Hl & Ht).
  apply read_only_load_data in Hl as ->.
  apply bind_ok in Ht as (tid & w3 & Hi & Ht).
  apply bind_ok in Ht as ([] & w4 & Ha & Ht). injection Ht as -> ->.
  assert (lineage (db w3) = lineage (db w)) as Hlin.
  { apply (keeps_db_ingest_data (λ d, lineage d = lineage (db w)) _ _ _ _ _ _ _
             (λ a, keeps_lineage_register _ a) _ _ _ eq_refl Hi). }
  apply ingest_data_asset in Hi as (zp & w2 & Hz & Hdb & Hid & Hw3).
  assert (∀ row, row ∈ data_assets (db w3) →
       row ∈ data_assets (db w) ∨
       (row_asset_id row = id ∧ row_name row = target_name ∧
        row_owner row = owner src ∧
        row_description row = "Transformed from " +:+ name src ∧
        row_tags row = Json.dumps_list (tags src ++ ["transformed"]))) as Hrows.
  { rewrite Hw3, register_asset_eq. cbn [tick db]. rewrite Hdb.
    destruct (writable (db w) && _); cbn [snd db data_assets tick].
    - intros row [Hrow| ->]%elem_of_insert_or_replace; [by left|right]. done.
    - intros row Hrow. left. by rewrite Hdb in Hrow. }
  revert Ha. unfold add_lineage. unfold_M. cbn.
  destruct (writable (db w3)); [|done]. intros [= <-]. cbn.
  exists src. eexists. split; [done|]. rewrite Hlin. split; [reflexivity|]. cbn.
  repeat split; try done.
Qed.

End IngestExtras.

Section SummaryExtras.
Context {pd : Pandas} {dg : Digest}.

(** X22: [get_zone_summary] counts by substring of the path.  After one
    catalogued ingestion, under a dataset name that is one path component,
    into a lake created on an empty disk, it returns the four zones in
    order, each with one asset if the zone's name occurs in the path of the
    asset and none otherwise; the name of the zone of ingestion occurs in
    it, and so does every text that occurs in the dataset name, so that a
    dataset whose name contains another zone's name is counted there
    too. *)
Theorem zone_summary_counts_by_path
    base clk data name_ owner_ description_ tgs zone self w0 id w1 a :
  manager_init base (empty_world clk) = (Ok self, w0) →
  is_component name_ = true →
  ingest_data self data name_ owner_ description_ tgs zone w0 = (Ok id, w1) →
  get_asset id w1 = (Ok (Some a), w1) →
  ∃ l,
    get_zone_summary self w1 = (Ok l, w1) ∧
    l.*1 = zone_names ∧
    (∀ z s, (z, s) ∈ l →
       asset_count s = if Str.contains z (path a) then 1%nat else 0%nat) ∧
    (∀ z, Str.contains z name_ = true → Str.contains z (path a) = true) ∧
    Str.contains zone (path a) = true.
Proof.
  intros Hinit Hname Hing Hget.
  destruct (manager_init_spec base (empty_world clk)) as (w0' & Hinit' & Hdb0 & _ & Hdirs0).
  rewrite Hinit in Hinit'. injection Hinit' as -> <-.
  apply ingest_data_ok in Hing
    as (zp & p & w1' & a0 & Hz & Hp & Hst & Hsy & -> & Hpa & _ & _ & ->).
  cbn [storage] in Hz. rewrite zone_lookup_storage in Hz.
  destruct (decide (zone ∈ zone_names)) as [Hzone|Hzone];
    [rewrite bool_decide_eq_true_2 in Hz by done
    |rewrite bool_decide_eq_false_2 in Hz by done]; [|done].
  injection Hz as <-.
  pose proof (store_data_db _ _ _ _ _ _ _ _ Hst) as Hdb1.
  apply store_data_frame in Hst as [Hdirs1 _].
  assert (data_assets (db (register_asset a0 (tick w1')).2) = [row_of_asset a0]
          ∧ fs (register_asset a0 (tick w1')).2 = fs w1') as [Hrows Hfs].
  { revert Hget. rewrite register_asset_eq. cbn [tick db fs]. rewrite Hdb1, Hdb0.
    destruct (writable _ && _); cbn [snd db data_assets fs]; [done|].
    rewrite get_asset_missing; [done|]. unfold asset_ids. cbn. rewrite Hdb1, Hdb0.
    apply not_elem_of_nil. }
  set (w1 := (register_asset a0 (tick w1')).2) in *.
  assert (asset_of_row (row_of_asset a0) = Ok a) as Hrow.
  { revert Hget. erewrite get_asset_row.
    2:{ rewrite Hrows. cbn. by rewrite String.eqb_refl. }
    destruct (asset_of_row (row_of_asset a0)); by intros [= ->]. }
  assert (path a = p) as Hpath.
  { unfold asset_of_row in Hrow. repeat case_match; try done.
    injection Hrow as <-. by cbn. }
  assert (assets_of_rows (data_assets (db w1)) = Ok [a]) as Hall.
  { rewrite Hrows. cbn. by rewrite Hrow. }
  assert (∀ z, z ∈ zone_names →
            ∃ s, zone_summary_of {| storage := storage_at base |} z w1 = (Ok (z, s), w1) ∧
                 asset_count s = if Str.contains z (path a) then 1%nat else 0%nat) as Hsum.
  { intros z Hzn. apply zone_summary_of_single; [done| |done].
    rewrite Hfs. apply Hdirs1. by apply Hdirs0. }
  destruct (Hsum "raw") as (s1 & E1 & C1); [unfold zone_names; set_solver|].
  destruct (Hsum "bronze") as (s2 & E2 & C2); [unfold zone_names; set_solver|].
  destruct (Hsum "silver") as (s3 & E3 & C3); [unfold zone_names; set_solver|].
  destruct (Hsum "gold") as (s4 & E4 & C4); [unfold zone_names; set_solver|].
  exists [("raw", s1); ("bronze", s2); ("silver", s3); ("gold", s4)].
  split; [|split; [done|split; [|split]]].
  - unfold get_zone_summary. cbn [storage storage_at zones zone_names fmap list_fmap fst].
    repeat (eapply collect_cons_ok; [eassumption|]). reflexivity.
  - intros z s Hin. set_unfold.
    destruct Hin as [[= -> ->]|[[= -> ->]|[[= -> ->]|[[= -> ->]|[]]]]]; done.
  - intros z Hzn. rewrite Hpath, Hp. by apply contains_name_in_path.
  - rewrite Hpath, Hp. apply contains_zone_in_path.
    + unfold zone_names in Hzone. set_unfold.
      by destruct Hzone as [->|[->|[->|[->|[]]]]].
    + apply is_component_spec in Hname as [_ Hs]. destruct name_ as [|c u]; [done|].
      change "/" with (Str.of_char Str.slash) in Hs.
      rewrite contains_char_cons, orb_false_iff in Hs. destruct Hs as [Hc _].
      cbn [Str.startswith]. by rewrite andb_true_r.
Qed.

End SummaryExtras.

Lemma printable_spec s : printable s ↔ printable_b s = true.
Proof.
  unfold printable, printable_b. rewrite forallb_forall, Forall_forall.
  setoid_rewrite <- list_elem_of_In.
  split; intros Hp c Hc; specialize (Hp c Hc).
  - apply andb_true_iff. rewrite N.leb_le, N.leb_le. done.
  - apply andb_true_iff in Hp. rewrite !N.leb_le in Hp. done.
Qed.

Lemma list_ascii_app s t :
  String.list_ascii_of_string (s +:+ t)
  = String.list_ascii_of_string s ++ String.list_ascii_of_string t.
Proof. induction s as [|c s IH]; [done|]. rewrite str_app_cons. cbn. by rewrite IH. Qed.

Lemma printable_app s t : printable s → printable t → printable (s +:+ t).
Proof. unfold printable. rewrite list_ascii_app. apply Forall_app_2. Qed.

Lemma printable_escape_char c : printable (Json.escape_char c).
Proof. apply printable_spec. each_char c; reflexivity. Qed.

Lemma printable_escape s : printable (Json.escape s).
Proof.
  induction s as [|c s IH]; [by apply printable_spec|].
  cbn [Json.escape]. apply printable_app; [apply printable_escape_char|done].
Qed.

Lemma printable_dumps_str s : printable (Json.dumps_str s).
Proof.
  unfold Json.dumps_str. change (String Str.dquote ?x) with (Str.of_char Str.dquote +:+ x).
  apply printable_app; [by apply printable_spec|].
  apply printable_app; [apply printable_escape|by apply printable_spec].
Qed.

Lemma printable_join sep l :
  printable sep → Forall printable l → printable (Str.join sep l).
Proof.
  intros Hsep Hl. induction Hl as [|x l Hx Hl IH]; [by apply printable_spec|].
  destruct l as [|y l]; [done|]. rewrite join_cons2.
  apply printable_app; [done|]. apply printable_app; [done|]. exact IH.
Qed.

(** X23: the tags and the schema are stored as printable ASCII text: every
    other character is escaped by [json.dumps]. *)
Theorem serialized_fields_are_printable_ascii a :
  printable (row_tags (row_of_asset a)) ∧ printable (row_schema (row_of_asset a)).
Proof.
  cbn [row_of_asset row_tags row_schema]. unfold Json.dumps_list, Json.dumps_dict. split.
  - apply printable_app; [by apply printable_spec|].
    apply printable_app; [|by apply printable_spec].
    apply printable_join; [by apply printable_spec|].
    apply Forall_fmap, Forall_forall. intros x _. apply printable_dumps_str.
  - apply printable_app; [by apply printable_spec|].
    apply printable_app; [|by apply printable_spec].
    apply printable_join; [by apply printable_spec|].
    apply Forall_fmap, Forall_forall. intros [k v] _. unfold Json.dumps_item. cbn.
    apply printable_app; [apply printable_dumps_str|].
    apply printable_app; [by apply printable_spec|apply printable_dumps_str].
Qed.

Lemma fetch_by_id_Some id rows row :
  fetch_by_id id rows = Some row → row ∈ rows ∧ row_asset_id row = id.
Proof.
  unfold fetch_by_id. intros Hf. apply List.find_some in Hf as [Hin Heq].
  split; [by apply list_elem_of_In|]. by apply String.eqb_eq.
Qed.

Lemma insert_or_replace_length r rows :
  (length (insert_or_replace r rows) ≤ S (length rows))%nat.
Proof.
  unfold insert_or_replace. rewrite length_app. cbn.
  pose proof (length_filter (λ r', row_asset_id r' ≠ row_asset_id r) rows). lia.
Qed.

Lemma insert_or_replace_same_id r1 r2 rows :
  row_asset_id r1 = row_asset_id r2 →
  insert_or_replace r2 (insert_or_replace r1 rows) = insert_or_replace r2 rows.
Proof.
  intros Heq. unfold insert_or_replace. f_equal. rewrite <- Heq.
  apply filter_other_ids_idem.
Qed.

Section IdentityExtras.
Context {pd : Pandas} {dg : Digest}.

(** X6: [get_asset] answers [None] exactly for the identifiers that have no
    row; for an identifier with a row it returns the asset or raises. *)
Theorem get_asset_none_iff id w :
  get_asset id w = (Ok None, w) ↔ id ∉ asset_ids w.
Proof.
  split; [|apply get_asset_missing].
  unfold get_asset. unfold_M. intros Hg. apply fetch_by_id_None.
  destruct (fetch_by_id id (data_assets (db w))) as [row|]; [|done].
  by destruct (asset_of_row row).
Qed.

Lemma ingest_data_clock self data name_ owner_ description_ tgs zone w id w' :
  ingest_data self data name_ owner_ description_ tgs zone w = (Ok id, w') →
  clock w' = clock w ∧ ticks w' = S (S (S (ticks w))).
Proof.
  intros Hi.
  apply ingest_data_ok in Hi as (zp & p & w1 & a & _ & _ & Hs & _ & _ & _ & _ & _ & ->).
  apply store_data_ok in Hs as (_ & _ & _ & _ & _ & _ & _ & _ & Hc & Ht).
  rewrite register_asset_eq.
  destruct (writable _ && _); cbn; by rewrite Hc, Ht.
Qed.

Lemma ingest_data_rows_cases self data name_ owner_ description_ tgs zone w id w' :
  ingest_data self data name_ owner_ description_ tgs zone w = (Ok id, w') →
  data_assets (db w') = data_assets (db w) ∨
  ∃ r, row_asset_id r = id ∧
       data_assets (db w') = insert_or_replace r (data_assets (db w)).
Proof.
  intros Hi. apply ingest_data_asset in Hi as (zp & v & _ & Hdb & _ & ->).
  rewrite register_asset_eq. cbn [tick db]. rewrite Hdb.
  destruct (writable (db w) && _); cbn [snd db data_assets tick].
  - right. eexists. split; [|reflexivity]. done.
  - left. by rewrite Hdb.
Qed.

(** X19: the identifier depends on the name and on the reading of the clock
    only.  Two ingestions under one name whose readings print alike get the
    same identifier, and together they add at most one row to the catalog:
    the second replaces the first. *)
Theorem reingest_same_instant_replaces
    self d1 d2 name_ o1 o2 desc1 desc2 t1 t2 z1 z2 w id1 w1 id2 w2 :
  ingest_data self d1 name_ o1 desc1 t1 z1 w = (Ok id1, w1) →
  ingest_data self d2 name_ o2 desc2 t2 z2 w1 = (Ok id2, w2) →
  DateTime.to_str (clock w (5 + ticks w)) = DateTime.to_str (clock w (2 + ticks w)) →
  id2 = id1 ∧
  (length (data_assets (db w2)) ≤ S (length (data_assets (db w))))%nat.
Proof.
  intros H1 H2 Hsame.
  destruct (ingest_data_clock _ _ _ _ _ _ _ _ _ _ H1) as [Hc1 Ht1].
  pose proof (ingest_data_rows_cases _ _ _ _ _ _ _ _ _ _ H1) as Hr1.
  pose proof (ingest_data_rows_cases _ _ _ _ _ _ _ _ _ _ H2) as Hr2.
  apply ingest_data_asset in H1 as (zp1 & v1 & _ & _ & Hid1 & _).
  apply ingest_data_asset in H2 as (zp2 & v2 & _ & _ & Hid2 & _).
  rewrite Hc1, Ht1 in Hid2. cbn [Nat.add] in Hsame.
  assert (id2 = id1) as Hid by (rewrite Hid1, Hid2; by rewrite Hsame).
  split; [done|].
  destruct Hr1 as [E1|(r1 & Hi1 & E1)], Hr2 as [E2|(r2 & Hi2 & E2)]; rewrite E2, E1.
  - lia.
  - apply insert_or_replace_length.
  - apply insert_or_replace_length.
  - rewrite insert_or_replace_same_id by congruence. apply insert_or_replace_length.
Qed.

End IdentityExtras.

(** * The further properties on the sample states *)

Lemma asset_ids_stay_distinct_witness :
  NoDup (asset_ids ingested_lake) ∧ NoDup (asset_ids transformed_lake).
Proof.
  assert (NoDup (asset_ids ingested_lake)) as Hnd by decide_by_computation.
  split; [exact Hnd|].
  destruct (asset_ids_stay_distinct (pd := byte_frames) (dg := hex_digest)
              sample_manager sample_data "t1" "data_team" "Sample table" None "raw"
              sample_asset ingested_id identity_transform "t1_copy" "silver"
              ingested_lake Hnd) as (_ & _ & Ht).
  apply (Ht (Ok transformed_id) transformed_lake). by_computation.
Defined.

Lemma register_asset_keeps_other_assets_witness :
  (get_asset "a1" (register_asset second_asset sample_catalog).2).1
  = (get_asset "a1" sample_catalog).1.
Proof.
  apply (register_asset_keeps_other_assets second_asset sample_catalog (Ok true)
           (register_asset second_asset sample_catalog).2 "a1").
  - by_computation.
  - discriminate.
Defined.

Lemma search_assets_returns_everything_witness :
  search_assets EmptyString None sample_catalog = (Ok [sample_asset], sample_catalog) ∧
  search_assets EmptyString (Some []) sample_catalog = (Ok [sample_asset], sample_catalog) ∧
  asset_id <$> [sample_asset] = asset_ids sample_catalog ∧
  (NoDup (asset_ids sample_catalog) → NoDup [sample_asset]).
Proof.
  apply (search_assets_returns_everything sample_catalog [sample_asset]). by_computation.
Defined.

Lemma search_by_query_witness :
  ∃ found,
    search_assets "vent" None sample_catalog = (Ok found, sample_catalog) ∧
    sample_asset ∈ found.
Proof.
  destruct (search_by_query "vent" sample_catalog [sample_asset])
    as (_ & Hfits); [discriminate|by_computation|].
  destruct Hfits as (found & Hs & _ & Hsub); [by_computation|].
  exists found. split; [exact Hs|].
  apply (Hsub (row_of_asset sample_asset) sample_asset).
  - assert (data_assets (db sample_catalog) = [row_of_asset sample_asset]) as ->
      by by_computation.
    apply list_elem_of_singleton. reflexivity.
  - by_computation.
  - left. by_computation.
Defined.

Lemma add_lineage_fresh_key_witness :
  ∃ e,
    lineage (db (add_lineage "s" "t" "clean" transformed_lake).2)
    = lineage (db transformed_lake) ++ [e] ∧
    (∀ e', e' ∈ lineage (db transformed_lake) → edge_id e' < edge_id e) ∧
    (NoDup (edge_ids transformed_lake) →
     NoDup (edge_ids (add_lineage "s" "t" "clean" transformed_lake).2)).
Proof.
  apply (add_lineage_fresh_key "s" "t" "clean" transformed_lake). by_computation.
Defined.


Lemma store_same_second_overwrites_witness :
  ∃ p1 w1 p2 w2,
    store_data (pd := byte_frames) (storage_at "data_lake") sample_data "raw" "t1" "csv"
      frozen_lake = (Ok p1, w1) ∧
    store_data (pd := byte_frames) (storage_at "data_lake") other_data "raw" "t1" "csv"
      w1 = (Ok p2, w2) ∧
    p2 = p1 ∧
    dom (files (fs w2)) = dom (files (fs w1)) ∧
    ∃ f, files (fs w2) !! p1 = Some f ∧ content f = other_data.
Proof.
  pose (r1 := store_data (pd := byte_frames) (storage_at "data_lake") sample_data "raw"
                "t1" "csv" frozen_lake).
  pose (p1 := "data_lake/raw/t1/t1_20240101_000000.csv").
  pose (r2 := store_data (pd := byte_frames) (storage_at "data_lake") other_data "raw"
                "t1" "csv" r1.2).
  assert (r1 = (Ok p1, r1.2)) as H1 by by_computation.
  assert (r2 = (Ok p1, r2.2)) as H2 by by_computation.
  exists p1, r1.2, p1, r2.2. split; [exact H1|]. split; [exact H2|].
  apply (store_same_second_overwrites (pd := byte_frames) (storage_at "data_lake")
           sample_data other_data "raw" "t1" "csv" frozen_lake p1 r1.2 p1 r2.2 H1 H2).
  by_computation.
Defined.

Lemma file_info_after_store_witness :
  get_file_info (dg := hex_digest) (storage sample_manager) orphan_path stored_locked_lake =
  (Ok (Some {| info_size_bytes := 3;
               info_created_at := clock locked_lake (S (ticks locked_lake));
               info_modified_at := clock locked_lake (S (ticks locked_lake));
               info_checksum := "010203" |}), stored_locked_lake).
Proof.
  apply (file_info_after_store (pd := byte_frames) (dg := hex_digest)
           (storage sample_manager) sample_data "raw" "t1" "parquet" locked_lake).
  by_computation.
Defined.

Lemma list_datasets_after_store_witness :
  ∃ ds, list_datasets (storage_at "data_lake") "raw" stored_locked_lake
        = (Ok ds, stored_locked_lake) ∧ "t1" ∈ ds.
Proof.
  apply (list_datasets_after_store (pd := byte_frames) "data_lake" sample_data "raw" "t1"
           "parquet" locked_lake orphan_path stored_locked_lake).
  - by_computation.
  - by_computation.
  - discriminate.
  - decide_by_computation.
Defined.

Lemma list_datasets_unknown_zone_witness :
  list_datasets (storage_at "data_lake") "platinum" fresh_lake = (Ok [], fresh_lake) ∧
  ∀ (data : DataFrame (Pandas := byte_frames)) n fmt,
    ∃ e, (store_data (pd := byte_frames) (storage_at "data_lake") data "platinum" n fmt
            fresh_lake).1 = Raise e.
Proof.
  apply (list_datasets_unknown_zone (pd := byte_frames) "data_lake" "platinum" fresh_lake).
  decide_by_computation.
Defined.

Lemma load_data_unsupported_suffix_witness :
  load_data (pd := byte_frames) (storage_at "data_lake") "data_lake/raw/t1/notes.txt/"
    fresh_lake
  = (Raise (UnsupportedFileFormat ".txt"), fresh_lake).
Proof.
  apply (load_data_unsupported_suffix (pd := byte_frames) (storage_at "data_lake")
           "data_lake/raw/t1/notes.txt/" fresh_lake).
  decide_by_computation.
Defined.

Lemma load_data_hidden_file_witness :
  load_data (pd := byte_frames) (storage_at "data_lake") "data_lake/raw/.parquet" fresh_lake
  = (Raise (UnsupportedFileFormat EmptyString), fresh_lake).
Proof.
  apply (load_data_hidden_file (pd := byte_frames) (storage_at "data_lake")
           "data_lake/raw" "parquet" fresh_lake); [discriminate|by_computation..].
Defined.

Lemma ingest_only_adds_witness :
  dirs (fs fresh_lake) ⊆ dirs (fs ingested_lake) ∧
  lineage (db ingested_lake) = lineage (db fresh_lake).
Proof.
  destruct (ingest_only_adds (pd := byte_frames) (dg := hex_digest) sample_manager
              sample_data "t1" "data_team" "Sample table" (Some ["a"; "b"]) "raw"
              fresh_lake (Ok ingested_id) ingested_lake) as (Hd & _ & Hl & _).
  - by_computation.
  - split; [exact Hd|exact Hl].
Defined.

Lemma get_asset_after_ingest_witness :
  ∃ a, get_asset ingested_id ingested_lake = (Ok (Some a), ingested_lake) ∧
       name a = "t1" ∧ tags a = ["a"; "b"] ∧ format a = "parquet" ∧
       size_bytes a = 3%Z ∧ checksum a = "010203".
Proof.
  destruct (get_asset_after_ingest (pd := byte_frames) (dg := hex_digest) sample_manager
              sample_data "t1" "data_team" "Sample table" (Some ["a"; "b"]) "raw"
              fresh_lake ingested_id ingested_lake) as (zp & _ & _ & Hg).
  - by_computation.
  - by_computation.
  - by_computation.
  - by_computation.
  - eexists. split; [exact Hg|]. repeat split.
Defined.

Lemma reingest_same_instant_replaces_witness :
  ∃ id1 w1 id2 w2,
    ingest_data (pd := byte_frames) (dg := hex_digest) sample_manager sample_data
      "t1" "data_team" "First" None "raw" frozen_lake = (Ok id1, w1) ∧
    ingest_data (pd := byte_frames) (dg := hex_digest) sample_manager other_data
      "t1" "data_team" "Second" None "silver" w1 = (Ok id2, w2) ∧
    id2 = id1 ∧
    (length (data_assets (db w2)) ≤ S (length (data_assets (db frozen_lake))))%nat.
Proof.
  pose (r1 := ingest_data (pd := byte_frames) (dg := hex_digest) sample_manager sample_data
                "t1" "data_team" "First" None "raw" frozen_lake).
  pose (r2 := ingest_data (pd := byte_frames) (dg := hex_digest) sample_manager other_data
                "t1" "data_team" "Second" None "silver" r1.2).
  pose (id := md5_hexdigest (Digest := hex_digest)
                (Str.encode ("t1_" +:+ DateTime.to_str (frozen_clock 0)))).
  assert (r1 = (Ok id, r1.2)) as H1 by by_computation.
  assert (r2 = (Ok id, r2.2)) as H2 by by_computation.
  exists id, r1.2, id, r2.2. split; [exact H1|]. split; [exact H2|].
  apply (reingest_same_instant_replaces (pd := byte_frames) (dg := hex_digest)
           sample_manager sample_data other_data "t1" "data_team" "data_team" "First"
           "Second" None None "raw" "silver" frozen_lake id r1.2 id r2.2 H1 H2).
  by_computation.
Defined.

Lemma transform_records_lineage_witness :
  ∃ src e,
    get_asset ingested_id ingested_lake = (Ok (Some src), ingested_lake) ∧
    lineage (db transformed_lake) = lineage (db ingested_lake) ++ [e] ∧
    source_asset_id e = ingested_id ∧ target_asset_id e = transformed_id ∧
    transformation e = "identity".
Proof.
  destruct (transform_records_lineage (pd := byte_frames) (dg := hex_digest)
              sample_manager ingested_id identity_transform "t1_copy" "silver"
              ingested_lake transformed_id transformed_lake)
    as (src & e & Hg & Hl & Hs & Ht & Hn & _).
  - by_computation.
  - exists src, e. repeat split; assumption.
Defined.

Lemma transform_failure_adds_no_edge_witness :
  lineage (db (transform_data (pd := byte_frames) (dg := hex_digest) sample_manager
                 ingested_id identity_transform "t1_copy" "platinum" ingested_lake).2)
  = lineage (db ingested_lake).
Proof.
  apply (transform_failure_adds_no_edge (pd := byte_frames) (dg := hex_digest)
           sample_manager ingested_id identity_transform "t1_copy" "platinum"
           ingested_lake (InvalidZone "platinum")).
  by_computation.
Defined.

Lemma zone_summary_counts_by_path_witness :
  ∃ l,
    get_zone_summary sample_manager ingested_lake = (Ok l, ingested_lake) ∧
    l.*1 = zone_names ∧
    Str.contains "raw" (path ingested_asset) = true.
Proof.
  destruct (zone_summary_counts_by_path (pd := byte_frames) (dg := hex_digest)
              "data_lake" sample_clock sample_data "t1" "data_team" "Sample table"
              (Some ["a"; "b"]) "raw" sample_manager fresh_lake ingested_id ingested_lake
              ingested_asset) as (l & Hs & Hz & _ & _ & Hc).
  - by_computation.
  - by_computation.
  - by_computation.
  - by_computation.
  - exists l. repeat split; assumption.
Defined.
